(** * RaktSetu: the blood-unit traceability ledger

    A shallow embedding of [models/blockchain_traceability.py]: the
    [Block] and [BloodUnitBlockchain] classes, the JSON text that
    [json.dumps(..., sort_keys=True)] produces for a block, and the
    SHA-256 digest that [hashlib.sha256(...).hexdigest()] computes over it.

    Conventions of the embedding:
    - a Python [str] is a [string] whose characters are code points below
      256; a Python [int] is a [Z];
    - a Python [dict] with string keys is an association list in insertion
      order ([sort_keys] sorts it at serialisation time);
    - [datetime.now().isoformat()] and [uuid.uuid4().hex] are inputs of the
      operation that reads them;
    - a call that can raise or loop returns an [outcome]; the proof-of-work
      loop takes a fuel that bounds its iterations;
    - Python floats are not represented: the JSON universe has integers,
      booleans, strings, [None], lists and dicts. *)

From Stdlib Require Import ZArith NArith List String Ascii Bool Lia Arith.
From Stdlib Require Import DecimalString DecimalZ DecimalPos Permutation Sorted.
Import ListNotations.

Local Open Scope string_scope.
Local Open Scope list_scope.

(** ** SHA-256 (FIPS 180-4), as [hashlib.sha256] computes it *)

Module SHA256.

Local Open Scope N_scope.

Definition mask32 : N := 0xffffffff.

Definition add32 (x y : N) : N := N.land (x + y) mask32.

Definition rotr (n x : N) : N :=
  N.lor (N.shiftr x n) (N.land (N.shiftl x (32 - n)) mask32).

Definition not32 (x : N) : N := N.lxor x mask32.

Definition Ch (x y z : N) : N := N.lxor (N.land x y) (N.land (not32 x) z).

Definition Maj (x y z : N) : N :=
  N.lxor (N.lxor (N.land x y) (N.land x z)) (N.land y z).

Definition bsig0 (x : N) : N := N.lxor (N.lxor (rotr 2 x) (rotr 13 x)) (rotr 22 x).
Definition bsig1 (x : N) : N := N.lxor (N.lxor (rotr 6 x) (rotr 11 x)) (rotr 25 x).
Definition ssig0 (x : N) : N := N.lxor (N.lxor (rotr 7 x) (rotr 18 x)) (N.shiftr x 3).
Definition ssig1 (x : N) : N := N.lxor (N.lxor (rotr 17 x) (rotr 19 x)) (N.shiftr x 10).

(** Words written in hexadecimal, separated by spaces. *)
Definition hex_value (c : ascii) : option N :=
  let n := N_of_ascii c in
  if (48 <=? n) && (n <=? 57) then Some (n - 48)
  else if (97 <=? n) && (n <=? 102) then Some (n - 87)
  else None.

Fixpoint words_of_hex (s : string) (acc : N) : list N :=
  match s with
  | EmptyString => [acc]
  | String c s' =>
      match hex_value c with
      | Some d => words_of_hex s' (16 * acc + d)
      | None => acc :: words_of_hex s' 0
      end
  end.

(** The round constants: the first 32 bits of the fractional parts of
    the cube roots of the first 64 primes. *)
Definition K : list N :=
  Eval vm_compute in
    words_of_hex
      (String.concat " "
         [ "428a2f98 71374491 b5c0fbcf e9b5dba5 3956c25b 59f111f1 923f82a4 ab1c5ed5";
           "d807aa98 12835b01 243185be 550c7dc3 72be5d74 80deb1fe 9bdc06a7 c19bf174";
           "e49b69c1 efbe4786 0fc19dc6 240ca1cc 2de92c6f 4a7484aa 5cb0a9dc 76f988da";
           "983e5152 a831c66d b00327c8 bf597fc7 c6e00bf3 d5a79147 06ca6351 14292967";
           "27b70a85 2e1b2138 4d2c6dfc 53380d13 650a7354 766a0abb 81c2c92e 92722c85";
           "a2bfe8a1 a81a664b c24b8b70 c76c51a3 d192e819 d6990624 f40e3585 106aa070";
           "19a4c116 1e376c08 2748774c 34b0bcb5 391c0cb3 4ed8aa4a 5b9cca4f 682e6ff3";
           "748f82ee 78a5636f 84c87814 8cc70208 90befffa a4506ceb bef9a3f7 c67178f2" ]) 0.

(** The eight working variables, and the initial hash value. *)
Record regs : Type := Regs {
  ra : N; rb : N; rc : N; rd : N; re : N; rf : N; rg : N; rh : N
}.

Definition regs_of_words (ws : list N) : regs :=
  Regs (nth 0 ws 0) (nth 1 ws 0) (nth 2 ws 0) (nth 3 ws 0)
       (nth 4 ws 0) (nth 5 ws 0) (nth 6 ws 0) (nth 7 ws 0).

(** The square roots of the first 8 primes, likewise. *)
Definition H0 : regs :=
  Eval vm_compute in
    regs_of_words
      (words_of_hex
         "6a09e667 bb67ae85 3c6ef372 a54ff53a 510e527f 9b05688c 1f83d9ab 5be0cd19" 0).

(** One round, on the round constant [k] and the schedule word [w]. *)
Definition round (k w : N) (s : regs) : regs :=
  let t1 := add32 (add32 (add32 (add32 (rh s) (bsig1 (re s)))
                                (Ch (re s) (rf s) (rg s))) k) w in
  let t2 := add32 (bsig0 (ra s)) (Maj (ra s) (rb s) (rc s)) in
  Regs (add32 t1 t2) (ra s) (rb s) (rc s) (add32 (rd s) t1) (re s) (rf s) (rg s).

(** The message schedule is kept as a window of the last sixteen words:
    its head is [W t], and [W (t+16)] is appended behind it. *)
Definition next_word (win : list N) : N :=
  add32 (add32 (add32 (ssig1 (nth 14 win 0)) (nth 9 win 0))
               (ssig0 (nth 1 win 0))) (nth 0 win 0).

Fixpoint rounds (ks : list N) (win : list N) (s : regs) : regs :=
  match ks with
  | [] => s
  | k :: ks' => rounds ks' (tl win ++ [next_word win]) (round k (hd 0 win) s)
  end.

Definition compress (blk : list N) (s : regs) : regs :=
  let t := rounds K blk s in
  Regs (add32 (ra s) (ra t)) (add32 (rb s) (rb t)) (add32 (rc s) (rc t))
       (add32 (rd s) (rd t)) (add32 (re s) (re t)) (add32 (rf s) (rf t))
       (add32 (rg s) (rg t)) (add32 (rh s) (rh t)).

(** Padding: a one bit, zeros up to 56 modulo 64, the bit length on 64 bits. *)
Definition be_bytes (n : nat) (x : N) : list N :=
  map (fun i => N.land (N.shiftr x (8 * N.of_nat i)) 0xff) (rev (seq 0 n)).

Definition pad (msg : list N) : list N :=
  let len := List.length msg in
  let zeros := ((64 - ((len + 9) mod 64)) mod 64)%nat in
  msg ++ [0x80] ++ repeat 0 zeros ++ be_bytes 8 (8 * N.of_nat len).

Fixpoint words_of_bytes (bs : list N) : list N :=
  match bs with
  | b0 :: b1 :: b2 :: b3 :: rest =>
      N.lor (N.shiftl b0 24) (N.lor (N.shiftl b1 16) (N.lor (N.shiftl b2 8) b3))
      :: words_of_bytes rest
  | _ => []
  end.

Fixpoint hash_blocks (n : nat) (ws : list N) (s : regs) : regs :=
  match n with
  | O => s
  | S n' => hash_blocks n' (skipn 16 ws) (compress (firstn 16 ws) s)
  end.

Definition digest (msg : list N) : regs :=
  let ws := words_of_bytes (pad msg) in
  hash_blocks (List.length ws / 16) ws H0.

Definition hex_digit (d : N) : ascii :=
  if d <? 10 then ascii_of_N (48 + d) else ascii_of_N (87 + d).

Definition hex_word (x : N) : string :=
  string_of_list_ascii
    (map (fun i => hex_digit (N.land (N.shiftr x (4 * N.of_nat i)) 0xf))
         (rev (seq 0 8))).

(** [hashlib.sha256(bytes).hexdigest()]: 64 lowercase hexadecimal digits. *)
Definition hexdigest (bytes : string) : string :=
  let s := digest (map N_of_ascii (list_ascii_of_string bytes)) in
  (hex_word (ra s) ++ hex_word (rb s) ++ hex_word (rc s) ++ hex_word (rd s) ++
   hex_word (re s) ++ hex_word (rf s) ++ hex_word (rg s) ++ hex_word (rh s))%string.

End SHA256.

(** ** Python values that [json.dumps] serialises *)

#[local] Unset Elimination Schemes.

Inductive json : Type :=
| JNull : json                               (* None *)
| JBool : bool -> json
| JInt : Z -> json
| JStr : string -> json
| JList : list json -> json
| JDict : list (string * json) -> json.

#[local] Set Elimination Schemes.

(** Induction on a value, with the hypothesis on every item of a list
    and on every value of a dict. *)
Definition json_induction (P : json -> Prop)
    (Hnull : P JNull) (Hbool : forall b, P (JBool b))
    (Hint : forall z, P (JInt z)) (Hstr : forall s, P (JStr s))
    (Hlist : forall l, Forall P l -> P (JList l))
    (Hdict : forall d, Forall (fun kv => P (snd kv)) d -> P (JDict d))
  : forall v, P v :=
  fix go (v : json) : P v :=
    match v with
    | JNull => Hnull
    | JBool b => Hbool b
    | JInt z => Hint z
    | JStr s => Hstr s
    | JList l =>
        Hlist l ((fix items (l : list json) : Forall P l :=
                    match l with
                    | [] => Forall_nil P
                    | x :: l' => Forall_cons x (go x) (items l')
                    end) l)
    | JDict d =>
        Hdict d ((fix entries (d : list (string * json))
                    : Forall (fun kv => P (snd kv)) d :=
                    match d with
                    | [] => Forall_nil _
                    | kv :: d' =>
                        Forall_cons (P := fun kv => P (snd kv)) kv
                          (go (snd kv)) (entries d')
                    end) d)
    end.

(** A [dict] with string keys, in insertion order. *)
Definition dict : Type := list (string * json).

(** [d.get(k)], with [None] of Rocq for an absent key. *)
Fixpoint get (k : string) (d : dict) : option json :=
  match d with
  | [] => None
  | (k', v) :: d' => if String.eqb k' k then Some v else get k d'
  end.

(** [k in d] *)
Definition contains (k : string) (d : dict) : bool :=
  match get k d with Some _ => true | None => false end.

(** [d.get(k)] as a Python value: [None] for an absent key. *)
Definition get_or_none (k : string) (d : dict) : json :=
  match get k d with Some v => v | None => JNull end.

(** [d.get(k, default)] *)
Definition get_default (k : string) (default : json) (d : dict) : json :=
  match get k d with Some v => v | None => default end.

(** Truth value of a Python object, as [if] and the conditional
    expression test it. *)
Definition truthy (v : json) : bool :=
  match v with
  | JNull => false
  | JBool b => b
  | JInt z => negb (Z.eqb z 0)
  | JStr s => negb (String.eqb s EmptyString)
  | JList l => match l with [] => false | _ => true end
  | JDict d => match d with [] => false | _ => true end
  end.

(** *** The text of [json.dumps(v, sort_keys=True)] *)

Module Json.

(** The double quote character. *)
Definition dquote_char : ascii := "034"%char.
Definition dquote : string := String dquote_char EmptyString.

Definition hex4 (n : N) : string :=
  string_of_list_ascii
    (map (fun i => SHA256.hex_digit (N.land (N.shiftr n (4 * N.of_nat i)) 0xf))
         (rev (seq 0 4))).

(** [ensure_ascii] escaping of one character: the printable ASCII
    characters other than the quote and the backslash stand for
    themselves, seven characters have a short escape, every other one is
    written [\uXXXX]. *)
Definition escape_char (c : ascii) : string :=
  let n := N_of_ascii c in
  if N.eqb n 34 then "\" ++ dquote
  else if N.eqb n 92 then "\\"
  else if N.eqb n 10 then "\n"
  else if N.eqb n 13 then "\r"
  else if N.eqb n 9 then "\t"
  else if N.eqb n 8 then "\b"
  else if N.eqb n 12 then "\f"
  else if (N.leb 32 n && N.leb n 126)%bool then String c EmptyString
  else "\u" ++ hex4 n.

Fixpoint escape (s : string) : string :=
  match s with
  | EmptyString => EmptyString
  | String c s' => escape_char c ++ escape s'
  end.

(** [encode_basestring_ascii] *)
Definition quote (s : string) : string := dquote ++ escape s ++ dquote.

(** [int.__repr__] *)
Definition repr_int (z : Z) : string := NilZero.string_of_int (Z.to_int z).

Fixpoint join (sep : string) (l : list string) : string :=
  match l with
  | [] => EmptyString
  | [x] => x
  | x :: l' => x ++ sep ++ join sep l'
  end.

(** [sorted(d.items())] on the rendered items: keys in code point order.
    The keys of a dict are distinct, so the order of the values never
    decides. *)
Fixpoint insert_item {V : Type} (kv : string * V) (l : list (string * V))
  : list (string * V) :=
  match l with
  | [] => [kv]
  | kv' :: l' =>
      if String.leb (fst kv) (fst kv') then kv :: l
      else kv' :: insert_item kv l'
  end.

Fixpoint sort_items {V : Type} (l : list (string * V)) : list (string * V) :=
  match l with
  | [] => []
  | kv :: l' => insert_item kv (sort_items l')
  end.

Definition render_item (kv : string * string) : string :=
  quote (fst kv) ++ ": " ++ snd kv.

Fixpoint dumps (v : json) : string :=
  match v with
  | JNull => "null"
  | JBool true => "true"
  | JBool false => "false"
  | JInt z => repr_int z
  | JStr s => quote s
  | JList l => "[" ++ join ", " (map dumps l) ++ "]"
  | JDict d =>
      "{" ++ join ", "
               (map render_item
                  (sort_items (map (fun kv => (fst kv, dumps (snd kv))) d)))
          ++ "}"
  end.

(** *** Reading the text back

    The value that a text stands for: the dicts of Python compare equal
    whatever the order of insertion, and [canon] lists their items by
    key, as the text does. *)
Fixpoint canon (v : json) : json :=
  match v with
  | JList l => JList (map canon l)
  | JDict d => JDict (sort_items (map (fun kv => (fst kv, canon (snd kv))) d))
  | _ => v
  end.

(** One character of a string literal, read back from its escaped form:
    nothing at the closing quote. *)
Definition unhex4 (a b c d : ascii) : option ascii :=
  match SHA256.hex_value a, SHA256.hex_value b,
        SHA256.hex_value c, SHA256.hex_value d with
  | Some x, Some y, Some z, Some w =>
      Some (ascii_of_N (16 * (16 * (16 * x + y) + z) + w))
  | _, _, _, _ => None
  end.

Definition unescape_char (s : string) : option (ascii * string) :=
  match s with
  | EmptyString => None
  | String c rest =>
      if Ascii.eqb c dquote_char then None
      else if Ascii.eqb c "\" then
        match rest with
        | String e rest' =>
            if Ascii.eqb e dquote_char then Some (dquote_char, rest')
            else if Ascii.eqb e "\" then Some ("\"%char, rest')
            else if Ascii.eqb e "n" then Some (ascii_of_N 10, rest')
            else if Ascii.eqb e "r" then Some (ascii_of_N 13, rest')
            else if Ascii.eqb e "t" then Some (ascii_of_N 9, rest')
            else if Ascii.eqb e "b" then Some (ascii_of_N 8, rest')
            else if Ascii.eqb e "f" then Some (ascii_of_N 12, rest')
            else if Ascii.eqb e "u" then
              match rest' with
              | String h1 (String h2 (String h3 (String h4 rest''))) =>
                  match unhex4 h1 h2 h3 h4 with
                  | Some x => Some (x, rest'')
                  | None => None
                  end
              | _ => None
              end
            else None
        | EmptyString => None
        end
      else Some (c, rest)
  end.

Definition is_digit (c : ascii) : bool :=
  let n := N_of_ascii c in (N.leb 48 n && N.leb n 57)%bool.

(** A text that no number runs into: it does not start with a digit. *)
Definition delimited (s : string) : bool :=
  match s with
  | EmptyString => true
  | String c _ => negb (is_digit c)
  end.

Fixpoint all_digits (s : string) : bool :=
  match s with
  | EmptyString => true
  | String c s' => (is_digit c && all_digits s')%bool
  end.

(** What the first character of a text says of the value. *)
Inductive kind : Type := KNull | KTrue | KFalse | KNum | KStr | KList | KDict.

Definition kind_of (v : json) : kind :=
  match v with
  | JNull => KNull
  | JBool true => KTrue
  | JBool false => KFalse
  | JInt _ => KNum
  | JStr _ => KStr
  | JList _ => KList
  | JDict _ => KDict
  end.

Definition kind_of_char (c : ascii) : option kind :=
  if Ascii.eqb c "n" then Some KNull
  else if Ascii.eqb c "t" then Some KTrue
  else if Ascii.eqb c "f" then Some KFalse
  else if (is_digit c || Ascii.eqb c "-")%bool then Some KNum
  else if Ascii.eqb c dquote_char then Some KStr
  else if Ascii.eqb c "[" then Some KList
  else if Ascii.eqb c "{" then Some KDict
  else None.

End Json.

(** [s.encode()]: UTF-8. A code point below 128 is one byte, one from 128
    to 255 is two. *)
Fixpoint encode (s : string) : string :=
  match s with
  | EmptyString => EmptyString
  | String c s' =>
      let n := N_of_ascii c in
      if N.ltb n 128 then String c (encode s')
      else String (ascii_of_N (N.lor 192 (N.shiftr n 6)))
             (String (ascii_of_N (N.lor 128 (N.land n 63))) (encode s'))
  end.

Definition sha256_hexdigest (s : string) : string := SHA256.hexdigest (encode s).


(** ** Outcomes of a call *)

Inductive exn : Type := IndexError | KeyError | TypeError | AttributeError.

(** A call returns a value, raises, or is still looping when the fuel
    given to the proof-of-work search is spent. *)
Inductive outcome (A : Type) : Type :=
| Returns : A -> outcome A
| Raises : exn -> outcome A
| OutOfFuel : outcome A.

Arguments Returns {A} _.
Arguments Raises {A} _.
Arguments OutOfFuel {A}.

Definition bind {A B : Type} (m : outcome A) (k : A -> outcome B) : outcome B :=
  match m with
  | Returns a => k a
  | Raises e => Raises e
  | OutOfFuel => OutOfFuel
  end.

Notation "x <- m ;; k" := (bind m (fun x => k))
  (at level 61, m at next level, right associativity).

(** A [for] loop whose body may raise, threading the loop's variables. *)
Fixpoint for_each {A S : Type} (xs : list A) (body : S -> A -> outcome S) (s : S)
  : outcome S :=
  match xs with
  | [] => Returns s
  | x :: xs' => s' <- body s x ;; for_each xs' body s'
  end.

(** ** class Block *)

Record Block : Type := mkBlock {
  index : Z;
  timestamp : string;
  data : dict;
  previous_hash : string;
  nonce : Z;
  hash : string
}.

Definition set_nonce (b : Block) (n : Z) : Block :=
  mkBlock (index b) (timestamp b) (data b) (previous_hash b) n (hash b).

Definition set_hash (b : Block) (h : string) : Block :=
  mkBlock (index b) (timestamp b) (data b) (previous_hash b) (nonce b) h.

(** The text that [calculate_hash] digests. *)
Definition block_string (b : Block) : string :=
  Json.dumps (JDict [ ("index", JInt (index b));
                      ("timestamp", JStr (timestamp b));
                      ("data", JDict (data b));
                      ("previous_hash", JStr (previous_hash b));
                      ("nonce", JInt (nonce b)) ]).

Definition calculate_hash (b : Block) : string :=
  sha256_hexdigest (block_string b).

(** [Block.__init__] *)
Definition Block_init (index : Z) (timestamp : string) (data : dict)
    (previous_hash : string) : Block :=
  let self := mkBlock index timestamp data previous_hash 0 EmptyString in
  set_hash self (calculate_hash self).

(** ["0" * difficulty] *)
Fixpoint zeros (difficulty : nat) : string :=
  match difficulty with
  | O => EmptyString
  | S d => String "0" (zeros d)
  end.

(** [s[:n]] for [n >= 0] *)
Definition slice_to (n : nat) (s : string) : string := substring 0 n s.

(** The negation of the loop condition of [mine_block]. *)
Definition sealed (difficulty : nat) (b : Block) : bool :=
  String.eqb (slice_to difficulty (hash b)) (zeros difficulty).

(** [mine_block]: each unit of fuel pays for one iteration of the loop. *)
Fixpoint mine_block (fuel : nat) (difficulty : nat) (self : Block) : outcome Block :=
  if sealed difficulty self then Returns self
  else match fuel with
       | O => OutOfFuel
       | S fuel' =>
           let self1 := set_nonce self (nonce self + 1) in
           mine_block fuel' difficulty (set_hash self1 (calculate_hash self1))
       end.

Definition to_dict (b : Block) : dict :=
  [ ("index", JInt (index b));
    ("timestamp", JStr (timestamp b));
    ("data", JDict (data b));
    ("previous_hash", JStr (previous_hash b));
    ("hash", JStr (hash b));
    ("nonce", JInt (nonce b)) ].

(** ** class BloodUnitBlockchain *)

Record BloodUnitBlockchain : Type := mkChain {
  chain : list Block;
  pending_transactions : list dict;
  difficulty : nat
}.

Definition genesis_data : dict :=
  [ ("type", JStr "genesis");
    ("message", JStr "BloodFlow AI Blockchain Initialized") ].

Definition create_genesis_block (fuel : nat) (now : string)
    (self : BloodUnitBlockchain) : outcome BloodUnitBlockchain :=
  let genesis_block := Block_init 0 now genesis_data "0" in
  mined <- mine_block fuel (difficulty self) genesis_block ;;
  Returns (mkChain (chain self ++ [mined]) (pending_transactions self)
                   (difficulty self)).

(** [BloodUnitBlockchain.__init__] *)
Definition BloodUnitBlockchain_init (fuel : nat) (now : string)
  : outcome BloodUnitBlockchain :=
  create_genesis_block fuel now (mkChain [] [] 2).

(** [l[-1]] *)
Fixpoint last_item {A : Type} (l : list A) : option A :=
  match l with
  | [] => None
  | [x] => Some x
  | _ :: l' => last_item l'
  end.

Definition get_latest_block (self : BloodUnitBlockchain) : outcome Block :=
  match last_item (chain self) with
  | Some b => Returns b
  | None => Raises IndexError
  end.

Definition add_transaction (transaction : dict) (self : BloodUnitBlockchain)
  : BloodUnitBlockchain :=
  mkChain (chain self) (pending_transactions self ++ [transaction])
          (difficulty self).

(** [mine_pending_transactions]: the state after the call and the value
    returned, [None] of Rocq standing for Python's [None]. *)
Definition mine_pending_transactions (fuel : nat) (now : string)
    (self : BloodUnitBlockchain)
  : outcome (BloodUnitBlockchain * option Block) :=
  match pending_transactions self with
  | [] => Returns (self, None)
  | _ :: _ =>
      latest <- get_latest_block self ;;
      let new_block :=
        Block_init (Z.of_nat (List.length (chain self))) now
          [("transactions", JList (map JDict (pending_transactions self)))]
          (hash latest) in
      mined <- mine_block fuel (difficulty self) new_block ;;
      Returns (mkChain (chain self ++ [mined]) [] (difficulty self), Some mined)
  end.

(** [str.upper] on the letters a to z; the digits of [uuid4().hex] are
    hexadecimal, so no other letter reaches it. *)
Definition upper_char (c : ascii) : ascii :=
  let n := N_of_ascii c in
  if (N.leb 97 n && N.leb n 122)%bool then ascii_of_N (n - 32) else c.

Fixpoint upper (s : string) : string :=
  match s with
  | EmptyString => EmptyString
  | String c s' => String (upper_char c) (upper s')
  end.

Definition create_blood_unit (uuid_hex now : string)
    (donor_id blood_type collection_date location : string)
    (self : BloodUnitBlockchain) : string * BloodUnitBlockchain :=
  let unit_id := ("UNIT-" ++ upper (slice_to 12 uuid_hex))%string in
  let transaction :=
    [ ("type", JStr "COLLECTION");
      ("unit_id", JStr unit_id);
      ("blood_type", JStr blood_type);
      ("donor_id", JStr donor_id);
      ("collection_date", JStr collection_date);
      ("location", JStr location);
      ("timestamp", JStr now);
      ("status", JStr "collected") ] in
  (unit_id, add_transaction transaction self).

(** The record that [add_testing_record] builds. *)
Definition testing_transaction (now : string) (unit_id : string)
    (test_results : dict) : dict :=
  [ ("type", JStr "TESTING");
    ("unit_id", JStr unit_id);
    ("test_results", JDict test_results);
    ("tested_by", get_default "technician_id" (JStr "LAB-001") test_results);
    ("timestamp", JStr now);
    ("status", JStr (if truthy (get_default "passed" (JBool true) test_results)
                     then "tested" else "rejected")) ].

(** The [add_*_record] methods read the clock twice: [now] for the
    record, [now_block] for the block that seals it. They return nothing,
    so the outcome is the state after the call. *)
Definition add_testing_record (fuel : nat) (now now_block : string)
    (unit_id : string) (test_results : dict) (self : BloodUnitBlockchain)
  : outcome BloodUnitBlockchain :=
  let transaction := testing_transaction now unit_id test_results in
  r <- mine_pending_transactions fuel now_block (add_transaction transaction self) ;;
  Returns (fst r).

(** [temperature] is a float in the source; it enters the record as the
    JSON value the caller passes. *)
Definition add_storage_record (fuel : nat) (now now_block : string)
    (unit_id storage_location : string) (temperature : json)
    (expiry_date : string) (self : BloodUnitBlockchain)
  : outcome BloodUnitBlockchain :=
  let transaction :=
    [ ("type", JStr "STORAGE");
      ("unit_id", JStr unit_id);
      ("storage_location", JStr storage_location);
      ("temperature", temperature);
      ("expiry_date", JStr expiry_date);
      ("timestamp", JStr now);
      ("status", JStr "stored") ] in
  r <- mine_pending_transactions fuel now_block (add_transaction transaction self) ;;
  Returns (fst r).

Definition add_transfer_record (fuel : nat) (now now_block : string)
    (unit_id from_location to_location transported_by : string)
    (self : BloodUnitBlockchain) : outcome BloodUnitBlockchain :=
  let transaction :=
    [ ("type", JStr "TRANSFER");
      ("unit_id", JStr unit_id);
      ("from_location", JStr from_location);
      ("to_location", JStr to_location);
      ("transported_by", JStr transported_by);
      ("timestamp", JStr now);
      ("status", JStr "in_transit") ] in
  r <- mine_pending_transactions fuel now_block (add_transaction transaction self) ;;
  Returns (fst r).

Definition add_transfusion_record (fuel : nat) (now now_block : string)
    (unit_id hospital patient_id doctor_id : string)
    (self : BloodUnitBlockchain) : outcome BloodUnitBlockchain :=
  let transaction :=
    [ ("type", JStr "TRANSFUSION");
      ("unit_id", JStr unit_id);
      ("hospital", JStr hospital);
      ("patient_id_hash", JStr (slice_to 16 (sha256_hexdigest patient_id)));
      ("doctor_id", JStr doctor_id);
      ("timestamp", JStr now);
      ("status", JStr "transfused") ] in
  r <- mine_pending_transactions fuel now_block (add_transaction transaction self) ;;
  Returns (fst r).

(** *** Queries *)

(** [for x in v]: the items of a list, the characters of a string, the
    keys of a dict; anything else is not iterable. *)
Definition iterate (v : json) : outcome (list json) :=
  match v with
  | JList l => Returns l
  | JStr s => Returns (map (fun c => JStr (String c EmptyString)) (list_ascii_of_string s))
  | JDict d => Returns (map (fun kv => JStr (fst kv)) d)
  | _ => Raises TypeError
  end.

(** The receiver of [x.get(...)]: only a dict has the method. *)
Definition as_dict (x : json) : outcome dict :=
  match x with
  | JDict d => Returns d
  | _ => Raises AttributeError
  end.

(** [v[k]] for a string key [k] *)
Definition subscript (v : json) (k : string) : outcome json :=
  match v with
  | JDict d => match get k d with Some x => Returns x | None => Raises KeyError end
  | _ => Raises TypeError
  end.

(** [v == s] for a string [s] *)
Definition eq_str (v : json) (s : string) : bool :=
  match v with
  | JStr s' => String.eqb s' s
  | _ => false
  end.

(** The records of a block, as the three scanning queries read them:
    nothing when the block's data has no "transactions" key. *)
Definition block_items (block : Block) : outcome (list json) :=
  match get "transactions" (data block) with
  | None => Returns []
  | Some v => iterate v
  end.

Definition get_unit_history (unit_id : string) (self : BloodUnitBlockchain)
  : outcome (list json) :=
  for_each (chain self)
    (fun history block =>
       items <- block_items block ;;
       for_each items
         (fun history item =>
            transaction <- as_dict item ;;
            if eq_str (get_or_none "unit_id" transaction) unit_id
            then Returns (history ++
                   [JDict [ ("block_index", JInt (index block));
                            ("block_hash", JStr (hash block));
                            ("transaction", JDict transaction) ]])
            else Returns history)
         history)
    [].

(** The body of the loop of [is_chain_valid], over the indices it visits.
    The indices come from [range(1, len(chain))], so both lookups succeed. *)
Fixpoint valid_at (blocks : list Block) (indices : list nat) : bool :=
  match indices with
  | [] => true
  | i :: rest =>
      match nth_error blocks i, nth_error blocks (i - 1) with
      | Some current_block, Some previous_block =>
          if negb (String.eqb (hash current_block) (calculate_hash current_block))
          then false
          else if negb (String.eqb (previous_hash current_block) (hash previous_block))
          then false
          else valid_at blocks rest
      | _, _ => false
      end
  end.

Definition is_chain_valid (self : BloodUnitBlockchain) : bool :=
  valid_at (chain self) (seq 1 (List.length (chain self) - 1)).

Definition verify_unit_authenticity (unit_id : string) (self : BloodUnitBlockchain)
  : outcome dict :=
  history <- get_unit_history unit_id self ;;
  match last_item history with
  | None =>
      Returns [ ("verified", JBool false);
                ("message", JStr "Unit ID not found in blockchain");
                ("unit_id", JStr unit_id) ]
  | Some latest =>
      let is_valid := is_chain_valid self in
      transaction <- subscript latest "transaction" ;;
      status <- subscript transaction "status" ;;
      Returns [ ("verified", JBool is_valid);
                ("message", JStr (if is_valid then "Unit verified and authentic"
                                  else "Blockchain compromised!"));
                ("unit_id", JStr unit_id);
                ("total_records", JInt (Z.of_nat (List.length history)));
                ("current_status", status);
                ("blockchain_valid", JBool is_valid) ]
  end.

Definition export_chain (self : BloodUnitBlockchain) : list dict :=
  map to_dict (chain self).

(** A Python [set], as the list of its elements: [add] raises on a list
    or a dict, and keeps one of two equal elements. [True == 1] and
    [False == 0] hold in Python. *)
Definition hashable (v : json) : bool :=
  match v with
  | JList _ | JDict _ => false
  | _ => true
  end.

Definition py_eqb (a b : json) : bool :=
  match a, b with
  | JNull, JNull => true
  | JStr s, JStr t => String.eqb s t
  | JInt x, JInt y => Z.eqb x y
  | JBool x, JBool y => Bool.eqb x y
  | JInt x, JBool y => Z.eqb x (if y then 1 else 0)
  | JBool x, JInt y => Z.eqb (if x then 1 else 0) y
  | _, _ => false
  end.

Definition add_unique (s : list json) (v : json) : list json :=
  if existsb (py_eqb v) s then s else s ++ [v].

Definition set_add (v : json) (s : list json) : outcome (list json) :=
  if hashable v then Returns (add_unique s v) else Raises TypeError.

(** [list(units)] enumerates the set in an order Python leaves open; the
    model lists the elements in the order of their first insertion. *)
Definition get_units_by_status (status : string) (self : BloodUnitBlockchain)
  : outcome (list json) :=
  for_each (chain self)
    (fun units block =>
       items <- block_items block ;;
       for_each items
         (fun units item =>
            transaction <- as_dict item ;;
            if eq_str (get_or_none "status" transaction) status
            then set_add (get_or_none "unit_id" transaction) units
            else Returns units)
         units)
    [].

Definition audit_record (block : Block) (transaction : dict) : json :=
  JDict [ ("block", JInt (index block));
          ("timestamp", get_or_none "timestamp" transaction);
          ("type", get_or_none "type" transaction);
          ("unit_id", get_or_none "unit_id" transaction);
          ("status", get_or_none "status" transaction);
          ("block_hash", JStr (hash block)) ].

Definition get_audit_trail (start_date end_date : string)
    (self : BloodUnitBlockchain) : outcome (list json) :=
  for_each (chain self)
    (fun audit_records block =>
       let block_time := timestamp block in
       if (String.leb start_date block_time && String.leb block_time end_date)%bool
       then
         items <- block_items block ;;
         for_each items
           (fun audit_records item =>
              transaction <- as_dict item ;;
              Returns (audit_records ++ [audit_record block transaction]))
           audit_records
       else Returns audit_records)
    [].

(** ** Ledgers and records, for the statements *)

(** The ledgers that the class can produce: construction, then any
    sequence of its mutating methods that returned. *)
Inductive reachable : BloodUnitBlockchain -> Prop :=
| reach_init fuel now l :
    BloodUnitBlockchain_init fuel now = Returns l -> reachable l
| reach_add_transaction transaction l :
    reachable l -> reachable (add_transaction transaction l)
| reach_mine fuel now l l' r :
    reachable l ->
    mine_pending_transactions fuel now l = Returns (l', r) -> reachable l'
| reach_create_unit uuid_hex now donor_id blood_type collection_date location l :
    reachable l ->
    reachable (snd (create_blood_unit uuid_hex now donor_id blood_type
                      collection_date location l))
| reach_testing fuel now now_block unit_id test_results l l' :
    reachable l ->
    add_testing_record fuel now now_block unit_id test_results l = Returns l' ->
    reachable l'
| reach_storage fuel now now_block unit_id storage_location temperature expiry_date l l' :
    reachable l ->
    add_storage_record fuel now now_block unit_id storage_location temperature
      expiry_date l = Returns l' ->
    reachable l'
| reach_transfer fuel now now_block unit_id from_location to_location transported_by l l' :
    reachable l ->
    add_transfer_record fuel now now_block unit_id from_location to_location
      transported_by l = Returns l' ->
    reachable l'
| reach_transfusion fuel now now_block unit_id hospital patient_id doctor_id l l' :
    reachable l ->
    add_transfusion_record fuel now now_block unit_id hospital patient_id
      doctor_id l = Returns l' ->
    reachable l'.

(** The block [self] carries when its nonce is [n] and its hash has been
    recomputed: the state of [mine_block] after the iteration that sets
    the nonce to [n]. *)
Definition at_nonce (self : Block) (n : Z) : Block :=
  let self1 := set_nonce self n in set_hash self1 (calculate_hash self1).

(** The data of a block sealed from the pending records. *)
Definition transactions_data (pending : list dict) : dict :=
  [("transactions", JList (map JDict pending))].

(** The records of a block when every item that the queries iterate over
    is a dict. *)
Fixpoint all_dicts (items : list json) : option (list dict) :=
  match items with
  | [] => Some []
  | JDict d :: rest =>
      match all_dicts rest with
      | Some ds => Some (d :: ds)
      | None => None
      end
  | _ :: _ => None
  end.

Definition records (block : Block) : option (list dict) :=
  match block_items block with
  | Returns items => all_dicts items
  | _ => None
  end.

Definition records_or_nil (block : Block) : list dict :=
  match records block with Some ds => ds | None => [] end.

Definition block_typed (block : Block) : bool :=
  match records block with Some _ => true | None => false end.

(** Every block of the chain holds records, or none at all. *)
Definition chain_typed (self : BloodUnitBlockchain) : bool :=
  forallb block_typed (chain self).

(** [transaction] is a record of the block [block] of the chain. *)
Definition record_in (self : BloodUnitBlockchain) (block : Block)
    (transaction : dict) : Prop :=
  In block (chain self) /\ In transaction (records_or_nil block).

(** Every unit id of the chain can be a member of a set. *)
Definition unit_ids_hashable (self : BloodUnitBlockchain) : bool :=
  forallb (fun block =>
             forallb (fun transaction => hashable (get_or_none "unit_id" transaction))
                     (records_or_nil block))
          (chain self).

(** The unit ids of the records at a status, record after record, and
    the set they make. *)
Definition unit_ids_at (status : string) (self : BloodUnitBlockchain) : list json :=
  flat_map (fun block =>
              map (get_or_none "unit_id")
                  (filter (fun transaction =>
                             eq_str (get_or_none "status" transaction) status)
                          (records_or_nil block)))
           (chain self).

Definition units_at (status : string) (self : BloodUnitBlockchain) : list json :=
  fold_left add_unique (unit_ids_at status self) [].

(** The history of a unit, stated over the records: the matching records
    of each block, block after block. *)
Definition history_entry (block : Block) (transaction : dict) : json :=
  JDict [ ("block_index", JInt (index block));
          ("block_hash", JStr (hash block));
          ("transaction", JDict transaction) ].

Definition history_of (unit_id : string) (self : BloodUnitBlockchain) : list json :=
  flat_map (fun block =>
              map (history_entry block)
                  (filter (fun transaction =>
                             eq_str (get_or_none "unit_id" transaction) unit_id)
                          (records_or_nil block)))
           (chain self).

(** The audit trail, stated over the records: every record of every
    block whose own timestamp lies between the bounds. *)
Definition audit_of (start_date end_date : string) (self : BloodUnitBlockchain)
  : list json :=
  flat_map (fun block =>
              if (String.leb start_date (timestamp block)
                  && String.leb (timestamp block) end_date)%bool
              then map (audit_record block) (records_or_nil block)
              else [])
           (chain self).

(** The audit trail as the specification words it: every record whose
    own "timestamp" lies between the bounds. *)
Definition audit_by_record_time (start_date end_date : string)
    (self : BloodUnitBlockchain) : list json :=
  flat_map (fun block =>
              map (audit_record block)
                  (filter (fun transaction =>
                             match get "timestamp" transaction with
                             | Some (JStr t) =>
                                 (String.leb start_date t && String.leb t end_date)%bool
                             | _ => false
                             end)
                          (records_or_nil block)))
           (chain self).

(** [chain[i] = block]: a sealed block overwritten in place. *)
Fixpoint replace_nth {A : Type} (i : nat) (x : A) (l : list A) : list A :=
  match l, i with
  | [], _ => []
  | _ :: l', O => x :: l'
  | y :: l', S i' => y :: replace_nth i' x l'
  end.

Definition tamper (i : nat) (block : Block) (self : BloodUnitBlockchain)
  : BloodUnitBlockchain :=
  mkChain (replace_nth i block (chain self)) (pending_transactions self)
          (difficulty self).

(** What [calculate_hash] reads of a block: every field but the stored
    hash, the data up to the order of the keys of its dicts. *)
Definition content (b : Block) : Z * string * json * string * Z :=
  (index b, timestamp b, Json.canon (JDict (data b)), previous_hash b, nonce b).

(** [block.data = d] *)
Definition set_data (b : Block) (d : dict) : Block :=
  mkBlock (index b) (timestamp b) d (previous_hash b) (nonce b) (hash b).

(** The export format read back: the block whose fields are those of an
    exported dictionary. *)
Definition from_dict (d : dict) : option Block :=
  match get "index" d, get "timestamp" d, get "data" d,
        get "previous_hash" d, get "nonce" d, get "hash" d with
  | Some (JInt i), Some (JStr t), Some (JDict dt),
    Some (JStr p), Some (JInt n), Some (JStr h) => Some (mkBlock i t dt p n h)
  | _, _, _, _, _, _ => None
  end.

(** ** A run of the program, on SHA-256 itself

    The clock readings are chosen so that each proof-of-work search ends
    at nonce 0 or 1. *)

Definition result_or {A : Type} (default : A) (o : outcome A) : A :=
  match o with Returns a => a | _ => default end.

Definition demo_unit : string := "UNIT-3F2A9C1E7B4D".

(** [BloodUnitBlockchain()] *)
Definition demo_created : BloodUnitBlockchain :=
  Eval vm_compute in
    result_or (mkChain [] [] 2)
      (BloodUnitBlockchain_init 1 "2024-03-01T09:00:00.100208").

(** [create_blood_unit("D1", "O+", "2024-03-01", "Pune")], not sealed yet *)
Definition demo_collected : BloodUnitBlockchain :=
  Eval vm_compute in
    snd (create_blood_unit "3f2a9c1e7b4d4e0f8a6b5c4d3e2f1a0b"
           "2024-03-01T09:15:00.123456" "D1" "O+" "2024-03-01" "Pune"
           demo_created).

(** [mine_pending_transactions()] *)
Definition demo_sealed : BloodUnitBlockchain :=
  Eval vm_compute in
    fst (result_or (demo_collected, None)
           (mine_pending_transactions 1 "2024-03-01T09:15:00.700060" demo_collected)).

Definition demo_failed_test : dict :=
  [("passed", JBool false); ("technician_id", JStr "LAB-7")].

(** [add_testing_record(unit, {"passed": False, ...})] *)
Definition demo_tested : BloodUnitBlockchain :=
  Eval vm_compute in
    result_or demo_sealed
      (add_testing_record 1 "2024-03-01T11:30:00.250000"
         "2024-03-01T11:30:00.300078" demo_unit demo_failed_test demo_sealed).

(** The same test recorded while the collection record is still pending. *)
Definition demo_batched : BloodUnitBlockchain :=
  Eval vm_compute in
    result_or demo_collected
      (add_testing_record 0 "2024-03-01T11:30:00.250000"
         "2024-03-01T11:30:00.300311" demo_unit demo_failed_test demo_collected).

(** The last block of the run, its test record rewritten from failed to
    passed, the stored hash left as it was. *)
Definition demo_passed_test : dict :=
  [("passed", JBool true); ("technician_id", JStr "LAB-7")].

Definition demo_forged_block : Block :=
  Eval vm_compute in
    match last_item (chain demo_tested) with
    | Some b =>
        set_data b
          (transactions_data
             [testing_transaction "2024-03-01T11:30:00.250000" demo_unit
                demo_passed_test])
    | None => Block_init 0 EmptyString [] EmptyString
    end.

(** A first block that keeps nothing of the genesis block but its hash. *)
Definition demo_forged_genesis : Block :=
  Eval vm_compute in
    match chain demo_tested with
    | g :: _ => mkBlock 7 "1999-12-31T23:59:59" [] "tampered" 42 (hash g)
    | [] => Block_init 0 EmptyString [] EmptyString
    end.

(** ** Invariants of the chain *)

(** The two checks of [is_chain_valid] at index [i]. *)
Definition link_ok (blocks : list Block) (i : nat) : Prop :=
  exists current_block previous_block,
    nth_error blocks i = Some current_block /\
    nth_error blocks (i - 1) = Some previous_block /\
    hash current_block = calculate_hash current_block /\
    previous_hash current_block = hash previous_block.

Record ledger_inv (l : BloodUnitBlockchain) : Prop := mkInv {
  inv_nonempty : chain l <> [];
  inv_hash : forall b, In b (chain l) -> hash b = calculate_hash b;
  inv_sealed : forall b, In b (chain l) -> sealed (difficulty l) b = true;
  inv_linked : forall i cur prev,
      nth_error (chain l) (S i) = Some cur ->
      nth_error (chain l) i = Some prev -> previous_hash cur = hash prev;
  inv_index : forall i b, nth_error (chain l) i = Some b -> index b = Z.of_nat i;
  inv_typed : chain_typed l = true;
  inv_difficulty : difficulty l = 2
}.

(** ** The rest of the class, and its callers *)

(** [len(v)] *)
Definition py_len (v : json) : outcome nat :=
  match v with
  | JList l => Returns (List.length l)
  | JStr s => Returns (String.length s)
  | JDict d => Returns (List.length d)
  | _ => Raises TypeError
  end.

Definition get_chain_info (self : BloodUnitBlockchain) : outcome dict :=
  total_transactions <-
    for_each (chain self)
      (fun total block =>
         n <- py_len (get_default "transactions" (JList []) (data block)) ;;
         Returns (total + n))
      0 ;;
  let chain_valid := is_chain_valid self in
  latest <- get_latest_block self ;;
  Returns [ ("total_blocks", JInt (Z.of_nat (List.length (chain self))));
            ("total_transactions", JInt (Z.of_nat total_transactions));
            ("chain_valid", JBool chain_valid);
            ("latest_block_hash", JStr (hash latest));
            ("difficulty", JInt (Z.of_nat (difficulty self))) ].

(** The records that the other methods build. *)
Definition collection_transaction (unit_id now : string)
    (donor_id blood_type collection_date location : string) : dict :=
  [ ("type", JStr "COLLECTION");
    ("unit_id", JStr unit_id);
    ("blood_type", JStr blood_type);
    ("donor_id", JStr donor_id);
    ("collection_date", JStr collection_date);
    ("location", JStr location);
    ("timestamp", JStr now);
    ("status", JStr "collected") ].

Definition storage_transaction (now unit_id storage_location : string)
    (temperature : json) (expiry_date : string) : dict :=
  [ ("type", JStr "STORAGE");
    ("unit_id", JStr unit_id);
    ("storage_location", JStr storage_location);
    ("temperature", temperature);
    ("expiry_date", JStr expiry_date);
    ("timestamp", JStr now);
    ("status", JStr "stored") ].

Definition transfer_transaction (now unit_id from_location to_location
    transported_by : string) : dict :=
  [ ("type", JStr "TRANSFER");
    ("unit_id", JStr unit_id);
    ("from_location", JStr from_location);
    ("to_location", JStr to_location);
    ("transported_by", JStr transported_by);
    ("timestamp", JStr now);
    ("status", JStr "in_transit") ].

Definition transfusion_transaction (now unit_id hospital patient_id
    doctor_id : string) : dict :=
  [ ("type", JStr "TRANSFUSION");
    ("unit_id", JStr unit_id);
    ("hospital", JStr hospital);
    ("patient_id_hash", JStr (slice_to 16 (sha256_hexdigest patient_id)));
    ("doctor_id", JStr doctor_id);
    ("timestamp", JStr now);
    ("status", JStr "transfused") ].

(** One call of a mutating method that returned. *)
Inductive step : BloodUnitBlockchain -> BloodUnitBlockchain -> Prop :=
| step_add_transaction transaction l :
    step l (add_transaction transaction l)
| step_mine fuel now l l' r :
    mine_pending_transactions fuel now l = Returns (l', r) -> step l l'
| step_create_unit uuid_hex now donor_id blood_type collection_date location l :
    step l (snd (create_blood_unit uuid_hex now donor_id blood_type
                   collection_date location l))
| step_testing fuel now now_block unit_id test_results l l' :
    add_testing_record fuel now now_block unit_id test_results l = Returns l' ->
    step l l'
| step_storage fuel now now_block unit_id storage_location temperature expiry_date l l' :
    add_storage_record fuel now now_block unit_id storage_location temperature
      expiry_date l = Returns l' ->
    step l l'
| step_transfer fuel now now_block unit_id from_location to_location transported_by l l' :
    add_transfer_record fuel now now_block unit_id from_location to_location
      transported_by l = Returns l' ->
    step l l'
| step_transfusion fuel now now_block unit_id hospital patient_id doctor_id l l' :
    add_transfusion_record fuel now now_block unit_id hospital patient_id
      doctor_id l = Returns l' ->
    step l l'.

(** Any number of such calls, one after the other. *)
Inductive evolves : BloodUnitBlockchain -> BloodUnitBlockchain -> Prop :=
| evolves_refl l : evolves l l
| evolves_step l l' l'' : evolves l l' -> step l' l'' -> evolves l l''.

(** The calls that the endpoint [POST /api/v1/blockchain/unit/create] of
    [main.py] makes on the ledger: the unit is created, then sealed. The
    outcome is the unit id it answers with and the ledger after it. *)
Definition register_unit (fuel : nat) (uuid_hex now now_block : string)
    (donor_id blood_type collection_date location : string)
    (self : BloodUnitBlockchain) : outcome (string * BloodUnitBlockchain) :=
  let created := create_blood_unit uuid_hex now donor_id blood_type
                   collection_date location self in
  r <- mine_pending_transactions fuel now_block (snd created) ;;
  Returns (fst created, fst r).

(** Classes of characters. *)
Definition is_hex_lower (c : ascii) : bool :=
  let n := N_of_ascii c in
  ((N.leb 48 n && N.leb n 57) || (N.leb 97 n && N.leb n 102))%bool.

Definition is_hex_upper (c : ascii) : bool :=
  let n := N_of_ascii c in
  ((N.leb 48 n && N.leb n 57) || (N.leb 65 n && N.leb n 70))%bool.

Definition is_printable (c : ascii) : bool :=
  let n := N_of_ascii c in (N.leb 32 n && N.leb n 126)%bool.

Fixpoint all_chars (p : ascii -> bool) (s : string) : bool :=
  match s with
  | EmptyString => true
  | String c s' => (p c && all_chars p s')%bool
  end.

(** The number of records of the chain. *)
Definition total_records (self : BloodUnitBlockchain) : nat :=
  List.length (flat_map records_or_nil (chain self)).

(** The sealed unit with its blood type rewritten in place, and the same
    ledger after one more call. *)
Definition demo_tampered : BloodUnitBlockchain :=
  Eval vm_compute in
    match nth_error (chain demo_sealed) 1 with
    | Some b =>
        tamper 1
          (set_data b
             (transactions_data
                [collection_transaction demo_unit "2024-03-01T09:15:00.123456"
                   "D1" "AB-" "2024-03-01" "Pune"]))
          demo_sealed
    | None => demo_sealed
    end.

Definition demo_tampered_tested : BloodUnitBlockchain :=
  Eval vm_compute in
    result_or demo_tampered
      (add_testing_record 1 "2024-03-01T11:30:00.250000"
         "2024-03-01T11:30:00.300078" demo_unit demo_failed_test demo_tampered).

(** * Properties *)

(** ** The digest and the text against CPython

    The right-hand sides are what [hashlib] and [json] of CPython give for
    the same inputs. *)

Example sha256_abc :
  SHA256.hexdigest "abc"
  = "ba7816bf8f01cfea414140de5dae2223b00361a396177a9cb410ff61f20015ad".
Proof. vm_compute. reflexivity. Qed.

Example sha256_empty :
  SHA256.hexdigest EmptyString
  = "e3b0c44298fc1c149afbf4c8996fb92427ae41e4649b934ca495991b7852b855".
Proof. vm_compute. reflexivity. Qed.

Example sha256_two_blocks :
  SHA256.hexdigest "abcdbcdecdefdefgefghfghighijhijkijkljklmklmnlmnomnopnopq"
  = "248d6a61d20638b8e5c026930c3e6039a33ce45964ff2167f6ecedd419db06c1".
Proof. vm_compute. reflexivity. Qed.

(** A four-character string with two characters above 127: its UTF-8
    encoding is six bytes. *)
Example sha256_utf8 :
  sha256_hexdigest
    (String "D" (String (ascii_of_N 233) (String "j" (String (ascii_of_N 224)
       EmptyString))))
  = "7781664201e16213da1231d116ef3af3a43d8b6f8e9c607ce71dbdab4432ca3c".
Proof. vm_compute. reflexivity. Qed.

(** [json.dumps] with [sort_keys=True] of a nested value with escaped
    characters, through its digest. *)
Example dumps_nested :
  sha256_hexdigest
    (Json.dumps
       (JDict [ ("k", JStr (String "D" (String (ascii_of_N 233) (String "j"
                              (String (ascii_of_N 224) (String (ascii_of_N 9)
                                 EmptyString))))));
                ("a", JList [JInt 1; JDict [("z", JNull); ("b", JBool true)]]);
                ("B", JInt (-12)) ]))
  = "3a63ca53c792731bdcb5d9de353e1ecfb4f7dd31d9a8a07115fb2a6c115175b0".
Proof. vm_compute. reflexivity. Qed.

(** The nonces and hashes of the three blocks of the run. *)
Example demo_tested_blocks :
  map (fun b => (index b, nonce b, hash b)) (chain demo_tested)
  = [ (0%Z, 1%Z, "003547db06282675ff366f28268aa2f1370efff3ad64c3d4f2882be278051b80");
      (1%Z, 1%Z, "00ae48c1e2df089cf17c289e6e313aa7dbddefc4ce3e1836bded0e3a7a03d105");
      (2%Z, 1%Z, "004e464274b6f81d63ba9f6c6167e5baaa72a9bdb313bcc14a219f8ac11bdcf8") ].
Proof. reflexivity. Qed.

(** ** The proof-of-work search *)

#[local] Opaque SHA256.hexdigest.
Arguments calculate_hash : simpl never.

Lemma calculate_hash_set_hash (b : Block) (h : string) :
  calculate_hash (set_hash b h) = calculate_hash b.
Proof. reflexivity. Qed.

Lemma at_nonce_hash (b : Block) (n : Z) :
  hash (at_nonce b n) = calculate_hash (at_nonce b n).
Proof. reflexivity. Qed.

Lemma at_nonce_self (b : Block) :
  hash b = calculate_hash b -> at_nonce b (nonce b) = b.
Proof.
  intros H. destruct b as [i t d p n h]. unfold at_nonce, set_nonce, set_hash.
  simpl in *. rewrite H. reflexivity.
Qed.

Lemma at_nonce_at_nonce (b : Block) (n m : Z) :
  at_nonce (at_nonce b n) m = at_nonce b m.
Proof. reflexivity. Qed.

Lemma Block_init_at_nonce (i : Z) (t : string) (d : dict) (p : string) :
  Block_init i t d p = at_nonce (Block_init i t d p) 0.
Proof. reflexivity. Qed.

Lemma mine_block_unfold (fuel d : nat) (b : Block) :
  mine_block fuel d b =
  if sealed d b then Returns b
  else match fuel with
       | O => OutOfFuel
       | S fuel' => mine_block fuel' d (at_nonce b (nonce b + 1))
       end.
Proof. destruct fuel; reflexivity. Qed.

(** What a search that returns has done: the block is sealed, only its
    nonce and hash have moved, and the hash is the one of its content. *)
Lemma mine_block_returns (fuel d : nat) :
  forall b b', mine_block fuel d b = Returns b' ->
    sealed d b' = true /\
    (exists k : nat, k <= fuel /\
       (k = 0 -> b' = b) /\ (0 < k -> b' = at_nonce b (nonce b + Z.of_nat k))) /\
    index b' = index b /\ timestamp b' = timestamp b /\ data b' = data b /\
    previous_hash b' = previous_hash b.
Proof.
  induction fuel as [|fuel IH]; intros b b' H; rewrite mine_block_unfold in H;
    destruct (sealed d b) eqn:Hs.
  - injection H as <-. split; [assumption|]. split; [|tauto].
    exists 0. repeat split; intros; try lia.
  - discriminate.
  - injection H as <-. split; [assumption|]. split; [|tauto].
    exists 0. repeat split; intros; try lia.
  - apply IH in H. destruct H as (Hsealed & (k & Hk & Hk0 & Hkp) & Hi & Ht & Hd & Hp).
    split; [assumption|]. split; [|tauto].
    exists (S k). split; [lia|]. split; [discriminate|]. intros _.
    destruct k as [|k].
    + rewrite Hk0 by reflexivity. reflexivity.
    + rewrite Hkp by lia. rewrite at_nonce_at_nonce. f_equal.
      change (nonce (at_nonce b (nonce b + 1))) with (nonce b + 1)%Z. lia.
Qed.

Lemma mine_block_hash (fuel d : nat) (b b' : Block) :
  mine_block fuel d b = Returns b' ->
  hash b = calculate_hash b -> hash b' = calculate_hash b'.
Proof.
  intros H Hb. apply mine_block_returns in H.
  destruct H as (_ & (k & _ & Hk0 & Hkp) & _).
  destruct k as [|k].
  - rewrite Hk0 by reflexivity. assumption.
  - rewrite Hkp by lia. apply at_nonce_hash.
Qed.

Lemma mine_block_never_raises (fuel d : nat) :
  forall b e, mine_block fuel d b <> Raises e.
Proof.
  induction fuel as [|fuel IH]; intros b e; rewrite mine_block_unfold;
    destruct (sealed d b); try discriminate. apply IH.
Qed.

(** More fuel never changes the result of a search that returned. *)
Lemma mine_block_more_fuel (fuel d : nat) :
  forall b b' extra, mine_block fuel d b = Returns b' ->
    mine_block (fuel + extra) d b = Returns b'.
Proof.
  induction fuel as [|fuel IH]; intros b b' extra H;
    rewrite mine_block_unfold in H; rewrite mine_block_unfold;
    destruct (sealed d b); try assumption; try discriminate.
  simpl. apply IH. assumption.
Qed.

(** The search returns as soon as some nonce seals the block: [k]
    iterations suffice when the nonce [nonce b + k] does. *)
Lemma mine_block_terminates (d : nat) (k : nat) :
  forall b, hash b = calculate_hash b ->
    sealed d (at_nonce b (nonce b + Z.of_nat k)) = true ->
    exists b', mine_block k d b = Returns b'.
Proof.
  induction k as [|k IH]; intros b Hb Hk; rewrite mine_block_unfold;
    destruct (sealed d b) eqn:Hs; try (eexists; reflexivity).
  - replace (nonce b + Z.of_nat 0)%Z with (nonce b) in Hk by lia.
    rewrite at_nonce_self in Hk by assumption. congruence.
  - apply IH; [apply at_nonce_hash|].
    rewrite at_nonce_at_nonce.
    change (nonce (at_nonce b (nonce b + 1))) with (nonce b + 1)%Z.
    replace (nonce b + 1 + Z.of_nat k)%Z with (nonce b + Z.of_nat (S k))%Z by lia.
    assumption.
Qed.

(** ** Sealing the pending records *)

Lemma last_item_snoc {A : Type} (l : list A) (x : A) :
  last_item (l ++ [x]) = Some x.
Proof.
  induction l as [|y l IH]; [reflexivity|].
  simpl. rewrite IH. destruct (l ++ [x]) eqn:E; [|reflexivity].
  destruct l; discriminate.
Qed.

Lemma last_item_nth_error {A : Type} (l : list A) (x : A) :
  last_item l = Some x -> nth_error l (List.length l - 1) = Some x.
Proof.
  induction l as [|y l IH]; [discriminate|].
  destruct l as [|z l]; [intros [= ->]; reflexivity|].
  intros H. specialize (IH H). simpl in *.
  rewrite Nat.sub_0_r in IH. assumption.
Qed.

Lemma last_item_none {A : Type} (l : list A) : last_item l = None -> l = [].
Proof.
  induction l as [|y l IH]; [reflexivity|].
  destruct l as [|z l]; [discriminate|]. intros H. specialize (IH H). discriminate.
Qed.

(** [mine_pending_transactions] on a buffer that is not empty, whenever
    it returns. *)
Lemma mine_pending_returns (fuel : nat) (now : string)
    (l l' : BloodUnitBlockchain) (r : option Block) (latest : Block) :
  pending_transactions l <> [] ->
  last_item (chain l) = Some latest ->
  mine_pending_transactions fuel now l = Returns (l', r) ->
  exists b,
    r = Some b /\
    l' = mkChain (chain l ++ [b]) [] (difficulty l) /\
    index b = Z.of_nat (List.length (chain l)) /\
    timestamp b = now /\
    data b = transactions_data (pending_transactions l) /\
    previous_hash b = hash latest /\
    sealed (difficulty l) b = true /\
    hash b = calculate_hash b.
Proof.
  intros Hp Hlast H. unfold mine_pending_transactions, get_latest_block in H.
  destruct (pending_transactions l) as [|tx txs] eqn:Epend; [contradiction|].
  rewrite Hlast in H. simpl in H.
  destruct (mine_block fuel (difficulty l) _) as [b| |] eqn:Hmine; try discriminate.
  simpl in H. injection H as <- <-.
  pose proof (mine_block_hash _ _ _ _ Hmine eq_refl) as Hhash.
  apply mine_block_returns in Hmine.
  destruct Hmine as (Hs & _ & Hi & Ht & Hd & Hph).
  exists b. repeat split; assumption.
Qed.

Lemma mine_pending_empty (fuel : nat) (now : string) (l : BloodUnitBlockchain) :
  pending_transactions l = [] ->
  mine_pending_transactions fuel now l = Returns (l, None).
Proof. intros H. unfold mine_pending_transactions. rewrite H. reflexivity. Qed.

(** With a nonce that seals the new block, [k] units of fuel are enough. *)
Lemma mine_pending_terminates (k : nat) (now : string)
    (l : BloodUnitBlockchain) (latest : Block) :
  last_item (chain l) = Some latest ->
  sealed (difficulty l)
    (at_nonce (Block_init (Z.of_nat (List.length (chain l))) now
                 (transactions_data (pending_transactions l)) (hash latest))
              (Z.of_nat k)) = true ->
  exists l' r, forall extra,
    mine_pending_transactions (k + extra) now l = Returns (l', r).
Proof.
  intros Hlast Hk. unfold mine_pending_transactions, get_latest_block.
  destruct (pending_transactions l) as [|tx txs] eqn:Epend.
  - exists l, None. reflexivity.
  - rewrite Hlast. simpl bind.
    set (candidate := Block_init _ _ _ _) in *.
    destruct (mine_block_terminates (difficulty l) k candidate eq_refl Hk) as [b Hb].
    eexists _, _. intros extra.
    rewrite (mine_block_more_fuel _ _ _ _ extra Hb). reflexivity.
Qed.

(** The four [add_*_record] methods append one record and seal. *)
Lemma add_record_is_append_then_seal (l l' : BloodUnitBlockchain) :
  (exists fuel now now_block unit_id test_results,
     add_testing_record fuel now now_block unit_id test_results l = Returns l') \/
  (exists fuel now now_block unit_id storage_location temperature expiry_date,
     add_storage_record fuel now now_block unit_id storage_location temperature
       expiry_date l = Returns l') \/
  (exists fuel now now_block unit_id from_location to_location transported_by,
     add_transfer_record fuel now now_block unit_id from_location to_location
       transported_by l = Returns l') \/
  (exists fuel now now_block unit_id hospital patient_id doctor_id,
     add_transfusion_record fuel now now_block unit_id hospital patient_id
       doctor_id l = Returns l') ->
  exists fuel now_block transaction r,
    mine_pending_transactions fuel now_block (add_transaction transaction l)
    = Returns (l', r).
Proof.
  intros [H|[H|[H|H]]].
  - destruct H as (fuel & now & nb & u & tr & H). unfold add_testing_record in H.
    destruct (mine_pending_transactions _ _ _) as [[l1 r]| |] eqn:E; try discriminate.
    injection H as <-. eauto.
  - destruct H as (fuel & now & nb & u & sl & te & ex & H). unfold add_storage_record in H.
    destruct (mine_pending_transactions _ _ _) as [[l1 r]| |] eqn:E; try discriminate.
    injection H as <-. eauto.
  - destruct H as (fuel & now & nb & u & fl & tl & tb & H). unfold add_transfer_record in H.
    destruct (mine_pending_transactions _ _ _) as [[l1 r]| |] eqn:E; try discriminate.
    injection H as <-. eauto.
  - destruct H as (fuel & now & nb & u & ho & pa & doc & H). unfold add_transfusion_record in H.
    destruct (mine_pending_transactions _ _ _) as [[l1 r]| |] eqn:E; try discriminate.
    injection H as <-. eauto.
Qed.

(** Induction over the reachable ledgers, on the three primitive steps. *)
Lemma reachable_primitive_ind (P : BloodUnitBlockchain -> Prop) :
  (forall fuel now l, BloodUnitBlockchain_init fuel now = Returns l -> P l) ->
  (forall transaction l, P l -> P (add_transaction transaction l)) ->
  (forall fuel now l l' r, P l ->
     mine_pending_transactions fuel now l = Returns (l', r) -> P l') ->
  forall l, reachable l -> P l.
Proof.
  intros Hinit Hadd Hmine l Hr.
  induction Hr as [fuel now l H | tx l _ IH | fuel now l l' r _ IH H
                  | u n d b c lo l _ IH
                  | fuel now nb u tr l l' _ IH H
                  | fuel now nb u sl te ex l l' _ IH H
                  | fuel now nb u fl tl tb l l' _ IH H
                  | fuel now nb u ho pa doc l l' _ IH H].
  - eapply Hinit; eassumption.
  - apply Hadd; assumption.
  - eapply Hmine; eassumption.
  - apply Hadd; assumption.
  - destruct (add_record_is_append_then_seal l l') as (f & n & tx & r & E).
    { left. eauto 10. }
    eapply Hmine; [apply Hadd; eassumption | eassumption].
  - destruct (add_record_is_append_then_seal l l') as (f & n & tx & r & E).
    { right; left. eauto 10. }
    eapply Hmine; [apply Hadd; eassumption | eassumption].
  - destruct (add_record_is_append_then_seal l l') as (f & n & tx & r & E).
    { right; right; left. eauto 10. }
    eapply Hmine; [apply Hadd; eassumption | eassumption].
  - destruct (add_record_is_append_then_seal l l') as (f & n & tx & r & E).
    { right; right; right. eauto 10. }
    eapply Hmine; [apply Hadd; eassumption | eassumption].
Qed.

(** ** Validation *)

Lemma valid_at_true (blocks : list Block) (indices : list nat) :
  valid_at blocks indices = true <-> Forall (link_ok blocks) indices.
Proof.
  induction indices as [|i rest IH]; simpl.
  - split; [constructor | reflexivity].
  - destruct (nth_error blocks i) as [cur|] eqn:Ecur.
    2:{ split; [discriminate|]. intros H. inversion H as [|? ? (c & p & Hc & _) _].
        congruence. }
    destruct (nth_error blocks (i - 1)) as [prev|] eqn:Eprev.
    2:{ split; [discriminate|]. intros H. inversion H as [|? ? (c & p & _ & Hp & _) _].
        congruence. }
    destruct (String.eqb (hash cur) (calculate_hash cur)) eqn:Eh; simpl.
    2:{ split; [discriminate|]. intros H.
        inversion H as [|? ? (c & p & Hc & _ & Hh & _) _].
        apply String.eqb_neq in Eh. congruence. }
    destruct (String.eqb (previous_hash cur) (hash prev)) eqn:El; simpl.
    2:{ split; [discriminate|]. intros H.
        inversion H as [|? ? (c & p & Hc & Hp & _ & Hl) _].
        apply String.eqb_neq in El. congruence. }
    apply String.eqb_eq in Eh, El. rewrite IH. split.
    + intros H. constructor; [|assumption]. exists cur, prev. auto.
    + intros H. inversion H; assumption.
Qed.

(** [is_chain_valid], block by block. *)
Lemma is_chain_valid_true (l : BloodUnitBlockchain) :
  is_chain_valid l = true <->
  forall i, 1 <= i < List.length (chain l) -> link_ok (chain l) i.
Proof.
  unfold is_chain_valid. rewrite valid_at_true, Forall_forall.
  split; intros H i Hi; apply H.
  - apply in_seq. lia.
  - apply in_seq in Hi. lia.
Qed.

Lemma nth_error_snoc {A : Type} (l : list A) (x y : A) (i : nat) :
  nth_error (l ++ [x]) i = Some y ->
  (i < List.length l /\ nth_error l i = Some y) \/ (i = List.length l /\ y = x).
Proof.
  intros H. destruct (Nat.lt_ge_cases i (List.length l)) as [Hlt|Hge].
  - left. rewrite nth_error_app1 in H by assumption. auto.
  - right. rewrite nth_error_app2 in H by assumption.
    destruct (i - List.length l) as [|n] eqn:E.
    + simpl in H. injection H as <-. split; [lia | reflexivity].
    + simpl in H. destruct n; discriminate.
Qed.

Lemma all_dicts_map (ds : list dict) : all_dicts (map JDict ds) = Some ds.
Proof. induction ds as [|d ds IH]; simpl; [|rewrite IH]; reflexivity. Qed.

Lemma records_transactions_data (b : Block) (pending : list dict) :
  data b = transactions_data pending -> records b = Some pending.
Proof.
  intros H. unfold records, block_items. rewrite H. simpl. apply all_dicts_map.
Qed.

Lemma chain_typed_snoc (bs : list Block) (b : Block) (p : list dict) (d : nat) :
  chain_typed (mkChain bs p d) = true -> block_typed b = true ->
  forall p', chain_typed (mkChain (bs ++ [b]) p' d) = true.
Proof.
  unfold chain_typed. simpl. intros H Hb p'. rewrite forallb_app, H. simpl.
  rewrite Hb. reflexivity.
Qed.

(** The invariant holds after construction. *)
Lemma ledger_inv_init (fuel : nat) (now : string) (l : BloodUnitBlockchain) :
  BloodUnitBlockchain_init fuel now = Returns l -> ledger_inv l.
Proof.
  unfold BloodUnitBlockchain_init, create_genesis_block. simpl.
  destruct (mine_block fuel 2 _) as [g| |] eqn:Hmine; try discriminate.
  simpl. intros [= <-].
  pose proof (mine_block_hash _ _ _ _ Hmine eq_refl) as Hhash.
  apply mine_block_returns in Hmine.
  destruct Hmine as (Hs & _ & Hi & _ & Hd & _).
  constructor; simpl.
  - discriminate.
  - intros b [<-|[]]. assumption.
  - intros b [<-|[]]. assumption.
  - intros i cur prev Hc. destruct i; discriminate.
  - intros [|i] b Hb; [|destruct i; discriminate].
    injection Hb as <-. assumption.
  - unfold chain_typed, block_typed, records, block_items. simpl.
    rewrite Hd. reflexivity.
  - reflexivity.
Qed.

Lemma ledger_inv_add_transaction (transaction : dict) (l : BloodUnitBlockchain) :
  ledger_inv l -> ledger_inv (add_transaction transaction l).
Proof. intros [H1 H2 H3 H4 H5 H6 H7]. constructor; assumption. Qed.

Lemma ledger_inv_mine (fuel : nat) (now : string) (l l' : BloodUnitBlockchain)
    (r : option Block) :
  ledger_inv l ->
  mine_pending_transactions fuel now l = Returns (l', r) -> ledger_inv l'.
Proof.
  intros Hinv H.
  destruct (pending_transactions l) as [|tx txs] eqn:Ep.
  { rewrite mine_pending_empty in H by assumption. injection H as <- _. assumption. }
  destruct (last_item (chain l)) as [latest|] eqn:Hlast.
  2:{ apply last_item_none in Hlast. destruct (inv_nonempty l Hinv Hlast). }
  destruct (mine_pending_returns fuel now l l' r latest) as
      (b & _ & -> & Hi & _ & Hd & Hph & Hs & Hh); try assumption.
  { rewrite Ep. discriminate. }
  destruct Hinv as [H1 H2 H3 H4 H5 H6 H7].
  constructor; cbn [chain difficulty pending_transactions].
  - destruct (chain l); discriminate.
  - intros b0 Hb0. apply in_app_or in Hb0. destruct Hb0 as [Hb0|[<-|[]]]; auto.
  - intros b0 Hb0. apply in_app_or in Hb0. destruct Hb0 as [Hb0|[<-|[]]]; auto.
  - intros i cur prev Hc Hp.
    apply nth_error_snoc in Hc. destruct Hc as [[Hlt Hc]|[Hlen ->]].
    + apply nth_error_snoc in Hp. destruct Hp as [[_ Hp]|[Hlen _]]; [|lia].
      eapply H4; eassumption.
    + apply nth_error_snoc in Hp. destruct Hp as [[_ Hp]|[Hlen' _]]; [|lia].
      apply last_item_nth_error in Hlast.
      rewrite <- Hlen in Hlast. simpl in Hlast. rewrite Nat.sub_0_r in Hlast.
      rewrite Hph. congruence.
  - intros i b0 Hb0. apply nth_error_snoc in Hb0.
    destruct Hb0 as [[_ Hb0]|[-> ->]]; auto.
  - destruct l as [bs p d]. simpl in *.
    apply chain_typed_snoc with (p := p); [assumption|].
    unfold block_typed. rewrite (records_transactions_data b _ Hd). reflexivity.
  - assumption.
Qed.

Lemma reachable_inv (l : BloodUnitBlockchain) : reachable l -> ledger_inv l.
Proof.
  apply reachable_primitive_ind.
  - apply ledger_inv_init.
  - apply ledger_inv_add_transaction.
  - intros fuel now l0 l' r. apply ledger_inv_mine.
Qed.

Lemma ledger_inv_valid (l : BloodUnitBlockchain) :
  ledger_inv l -> is_chain_valid l = true.
Proof.
  intros Hinv. apply is_chain_valid_true. intros i Hi.
  destruct (nth_error (chain l) i) as [cur|] eqn:Ec.
  2:{ apply nth_error_None in Ec. lia. }
  destruct (nth_error (chain l) (i - 1)) as [prev|] eqn:Ep.
  2:{ apply nth_error_None in Ep. lia. }
  exists cur, prev. repeat split; try assumption.
  - apply (inv_hash l Hinv). eapply nth_error_In; eassumption.
  - apply (inv_linked l Hinv (i - 1)); [|assumption].
    replace (S (i - 1)) with i by lia. assumption.
Qed.

(** ** Loops that collect *)

Lemma for_each_map {A B S : Type} (h : A -> B) (xs : list A)
    (body : S -> B -> outcome S) :
  forall s, for_each (map h xs) body s = for_each xs (fun s x => body s (h x)) s.
Proof.
  induction xs as [|x xs IH]; intros s; simpl; [reflexivity|].
  destruct (body s (h x)); simpl; auto.
Qed.

(** A loop whose body folds [g] over what [f] gives for the item is a
    fold of [g] over the items that [f] gives, one after the other. *)
Lemma for_each_fold {A B S : Type} (xs : list A) (body : S -> A -> outcome S)
    (f : A -> list B) (g : S -> B -> S) :
  (forall s x, In x xs -> body s x = Returns (fold_left g (f x) s)) ->
  forall s, for_each xs body s = Returns (fold_left g (flat_map f xs) s).
Proof.
  induction xs as [|x xs IH]; intros H s; simpl; [reflexivity|].
  rewrite H by (left; reflexivity). simpl.
  rewrite fold_left_app. apply IH. intros s' x' Hx'. apply H. right. assumption.
Qed.

Lemma fold_left_snoc {B : Type} (bs s : list B) :
  fold_left (fun acc b => acc ++ [b]) bs s = s ++ bs.
Proof.
  revert s. induction bs as [|b bs IH]; intros s; simpl.
  - rewrite app_nil_r. reflexivity.
  - rewrite IH, <- app_assoc. reflexivity.
Qed.

Lemma for_each_collect {A B : Type} (xs : list A)
    (body : list B -> A -> outcome (list B)) (f : A -> list B) :
  (forall s x, In x xs -> body s x = Returns (s ++ f x)) ->
  forall s, for_each xs body s = Returns (s ++ flat_map f xs).
Proof.
  intros H s. rewrite <- fold_left_snoc.
  apply for_each_fold. intros s' x Hx. rewrite fold_left_snoc. apply H, Hx.
Qed.

Lemma flat_map_filter {A B : Type} (p : A -> bool) (e : A -> B) (xs : list A) :
  flat_map (fun x => if p x then [e x] else []) xs = map e (filter p xs).
Proof.
  induction xs as [|x xs IH]; simpl; [reflexivity|].
  destruct (p x); simpl; rewrite IH; reflexivity.
Qed.

Lemma flat_map_singletons {A B : Type} (e : A -> B) (xs : list A) :
  flat_map (fun x => [e x]) xs = map e xs.
Proof. induction xs as [|x xs IH]; simpl; [|rewrite IH]; reflexivity. Qed.

Lemma all_dicts_some (items : list json) (ds : list dict) :
  all_dicts items = Some ds -> items = map JDict ds.
Proof.
  revert ds. induction items as [|x items IH]; intros ds H; simpl in H.
  - injection H as <-. reflexivity.
  - destruct x; try discriminate.
    destruct (all_dicts items) as [ds'|]; [|discriminate].
    injection H as <-. simpl. rewrite (IH ds' eq_refl). reflexivity.
Qed.

(** In a typed chain, the items of a block are its records. *)
Lemma block_items_typed (l : BloodUnitBlockchain) (b : Block) :
  chain_typed l = true -> In b (chain l) ->
  block_items b = Returns (map JDict (records_or_nil b)).
Proof.
  unfold chain_typed. rewrite forallb_forall. intros H Hb. specialize (H b Hb).
  unfold block_typed, records_or_nil, records in *.
  destruct (block_items b) as [items| |]; try discriminate.
  destruct (all_dicts items) as [ds|] eqn:E; [|discriminate].
  rewrite (all_dicts_some items ds E). reflexivity.
Qed.

Lemma get_unit_history_typed (unit_id : string) (l : BloodUnitBlockchain) :
  chain_typed l = true ->
  get_unit_history unit_id l = Returns (history_of unit_id l).
Proof.
  intros Ht. unfold get_unit_history, history_of.
  change (Returns (flat_map ?f (chain l))) with (Returns ([] ++ flat_map f (chain l))).
  apply for_each_collect. intros s b Hb.
  rewrite (block_items_typed l b Ht Hb). simpl bind.
  rewrite for_each_map, <- flat_map_filter.
  apply for_each_collect. intros s' d _. simpl.
  destruct (eq_str _ _); [reflexivity|]. rewrite app_nil_r. reflexivity.
Qed.

Lemma get_audit_trail_typed (start_date end_date : string) (l : BloodUnitBlockchain) :
  chain_typed l = true ->
  get_audit_trail start_date end_date l = Returns (audit_of start_date end_date l).
Proof.
  intros Ht. unfold get_audit_trail, audit_of.
  change (Returns (flat_map ?f (chain l))) with (Returns ([] ++ flat_map f (chain l))).
  apply for_each_collect. intros s b Hb. cbv zeta.
  destruct (String.leb start_date (timestamp b) && String.leb (timestamp b) end_date)%bool.
  - rewrite (block_items_typed l b Ht Hb). simpl bind.
    rewrite for_each_map, <- flat_map_singletons.
    apply for_each_collect. intros s' d _. reflexivity.
  - rewrite app_nil_r. reflexivity.
Qed.

(** ** The set of [get_units_by_status] *)

Lemma py_eqb_refl (v : json) : hashable v = true -> py_eqb v v = true.
Proof.
  destruct v as [|b|z|s|l|d]; simpl; intros H; try discriminate; try reflexivity.
  - destruct b; reflexivity.
  - apply Z.eqb_refl.
  - apply String.eqb_refl.
Qed.

Lemma py_eqb_str (u : string) (w : json) : py_eqb (JStr u) w = true -> w = JStr u.
Proof.
  destruct w; simpl; intros H; try discriminate.
  apply String.eqb_eq in H. congruence.
Qed.

Lemma existsb_py_eqb_In (v : json) (s : list json) :
  hashable v = true -> In v s -> existsb (py_eqb v) s = true.
Proof.
  intros Hv Hin. apply existsb_exists. exists v. split; [assumption|].
  apply py_eqb_refl, Hv.
Qed.

Lemma add_unique_incl (s : list json) (v w : json) :
  In w s -> In w (add_unique s v).
Proof.
  unfold add_unique. destruct (existsb _ _); [auto|]. intros H.
  apply in_or_app. left. assumption.
Qed.

Lemma add_unique_In (s : list json) (v w : json) :
  In w (add_unique s v) -> In w s \/ w = v.
Proof.
  unfold add_unique. destruct (existsb _ _); [auto|]. intros H.
  apply in_app_or in H. destruct H as [H|[H|[]]]; auto.
Qed.

Lemma add_unique_NoDup (s : list json) (v : json) :
  hashable v = true -> NoDup s -> NoDup (add_unique s v).
Proof.
  intros Hv Hs. unfold add_unique. destruct (existsb _ _) eqn:E; [assumption|].
  apply NoDup_app; [assumption | repeat constructor; intros [] | ].
  intros w Hw [<-|[]]. rewrite (existsb_py_eqb_In _ _ Hv Hw) in E. discriminate.
Qed.

Lemma add_unique_covers (s : list json) (v : json) :
  hashable v = true -> existsb (py_eqb v) (add_unique s v) = true.
Proof.
  intros Hv. unfold add_unique.
  destruct (existsb (py_eqb v) s) eqn:E; [assumption|].
  rewrite existsb_app. simpl. rewrite (py_eqb_refl v Hv), orb_true_r. reflexivity.
Qed.

Lemma fold_add_unique_incl (ids s : list json) (w : json) :
  In w s -> In w (fold_left add_unique ids s).
Proof.
  revert s. induction ids as [|v ids IH]; intros s H; simpl; [assumption|].
  apply IH, add_unique_incl, H.
Qed.

Lemma fold_add_unique_In (ids s : list json) (w : json) :
  In w (fold_left add_unique ids s) -> In w s \/ In w ids.
Proof.
  revert s. induction ids as [|v ids IH]; intros s H; simpl in *; [auto|].
  apply IH in H. destruct H as [H|H]; [|auto].
  apply add_unique_In in H. destruct H as [H| ->]; auto.
Qed.

Lemma fold_add_unique_NoDup (ids s : list json) :
  forallb hashable ids = true -> NoDup s -> NoDup (fold_left add_unique ids s).
Proof.
  revert s. induction ids as [|v ids IH]; intros s Hh Hs; simpl in *; [assumption|].
  apply andb_prop in Hh. destruct Hh as [Hv Hh].
  apply IH; [assumption|]. apply add_unique_NoDup; assumption.
Qed.

Lemma existsb_incl (v : json) (s t : list json) :
  (forall w, In w s -> In w t) ->
  existsb (py_eqb v) s = true -> existsb (py_eqb v) t = true.
Proof.
  intros Hst H. apply existsb_exists in H. destruct H as (w & Hw & E).
  apply existsb_exists. exists w. auto.
Qed.

Lemma fold_add_unique_covers (ids s : list json) (v : json) :
  forallb hashable ids = true -> In v ids ->
  existsb (py_eqb v) (fold_left add_unique ids s) = true.
Proof.
  revert s. induction ids as [|w ids IH]; intros s Hh Hin; simpl in *; [contradiction|].
  apply andb_prop in Hh. destruct Hh as [Hw Hh].
  destruct Hin as [->|Hin]; [|apply IH; assumption].
  apply existsb_incl with (s := add_unique s v).
  - intros w. apply fold_add_unique_incl.
  - apply add_unique_covers, Hw.
Qed.

Lemma unit_ids_at_In (status : string) (l : BloodUnitBlockchain) (v : json) :
  In v (unit_ids_at status l) <->
  exists block transaction,
    record_in l block transaction /\
    eq_str (get_or_none "status" transaction) status = true /\
    get_or_none "unit_id" transaction = v.
Proof.
  unfold unit_ids_at, record_in. rewrite in_flat_map. split.
  - intros (b & Hb & Hv). apply in_map_iff in Hv. destruct Hv as (tx & Hv & Htx).
    apply filter_In in Htx. destruct Htx as [Htx Hs]. exists b, tx. auto.
  - intros (b & tx & [Hb Htx] & Hs & Hv). exists b. split; [assumption|].
    apply in_map_iff. exists tx. split; [assumption|]. apply filter_In. auto.
Qed.

Lemma unit_ids_at_hashable (status : string) (l : BloodUnitBlockchain) :
  unit_ids_hashable l = true -> forallb hashable (unit_ids_at status l) = true.
Proof.
  unfold unit_ids_hashable. rewrite !forallb_forall. intros H v Hv.
  apply unit_ids_at_In in Hv. destruct Hv as (b & tx & [Hb Htx] & _ & <-).
  specialize (H b Hb). rewrite forallb_forall in H. apply H, Htx.
Qed.

Lemma get_units_by_status_typed (status : string) (l : BloodUnitBlockchain) :
  chain_typed l = true -> unit_ids_hashable l = true ->
  get_units_by_status status l = Returns (units_at status l).
Proof.
  intros Ht Hh. unfold get_units_by_status, units_at, unit_ids_at.
  apply for_each_fold. intros s b Hb.
  rewrite (block_items_typed l b Ht Hb). simpl bind.
  rewrite for_each_map, <- flat_map_filter.
  apply for_each_fold. intros s' d Hd. simpl.
  destruct (eq_str _ _); [|reflexivity]. simpl. unfold set_add.
  unfold unit_ids_hashable in Hh. rewrite forallb_forall in Hh.
  specialize (Hh b Hb). rewrite forallb_forall in Hh. rewrite (Hh d Hd). reflexivity.
Qed.

Lemma eq_str_get (k s : string) (d : dict) :
  eq_str (get_or_none k d) s = true <-> get k d = Some (JStr s).
Proof.
  unfold get_or_none. destruct (get k d) as [v|]; simpl.
  - destruct v; simpl; split; try discriminate.
    + intros H. apply String.eqb_eq in H. congruence.
    + intros [= ->]. apply String.eqb_refl.
  - split; discriminate.
Qed.

Lemma get_or_none_str (k s : string) (d : dict) :
  get_or_none k d = JStr s <-> get k d = Some (JStr s).
Proof.
  unfold get_or_none. destruct (get k d) as [v|]; split; congruence.
Qed.

(** ** Recording a test *)

Lemma testing_transaction_status (now unit_id : string) (test_results : dict) :
  get "status" (testing_transaction now unit_id test_results)
  = Some (JStr (if truthy (get_default "passed" (JBool true) test_results)
                then "tested" else "rejected")).
Proof. reflexivity. Qed.

Lemma add_testing_record_returns (fuel : nat) (now now_block unit_id : string)
    (test_results : dict) (l l' : BloodUnitBlockchain) (latest : Block) :
  last_item (chain l) = Some latest ->
  add_testing_record fuel now now_block unit_id test_results l = Returns l' ->
  exists b,
    l' = mkChain (chain l ++ [b]) [] (difficulty l) /\
    index b = Z.of_nat (List.length (chain l)) /\
    previous_hash b = hash latest /\
    data b = transactions_data
               (pending_transactions l
                ++ [testing_transaction now unit_id test_results]) /\
    sealed (difficulty l) b = true /\
    hash b = calculate_hash b.
Proof.
  intros Hlast H. unfold add_testing_record in H.
  destruct (mine_pending_transactions _ _ _) as [[l1 r]| |] eqn:E; try discriminate.
  injection H as <-.
  assert (Hp : pending_transactions
                 (add_transaction (testing_transaction now unit_id test_results) l)
               <> []).
  { simpl. destruct (pending_transactions l); discriminate. }
  destruct (mine_pending_returns _ _ _ _ _ latest Hp Hlast E)
    as (b & _ & -> & Hi & _ & Hd & Hph & Hs & Hh).
  exists b. repeat split; assumption.
Qed.

Lemma add_testing_record_never_raises (fuel : nat) (now now_block unit_id : string)
    (test_results : dict) (l : BloodUnitBlockchain) (latest : Block) (e : exn) :
  last_item (chain l) = Some latest ->
  add_testing_record fuel now now_block unit_id test_results l <> Raises e.
Proof.
  intros Hlast H. unfold add_testing_record, mine_pending_transactions,
    get_latest_block in H.
  simpl in H. destruct (pending_transactions l ++ _) as [|tx txs]; [discriminate|].
  rewrite Hlast in H. simpl in H.
  destruct (mine_block fuel (difficulty l) _) as [b| |] eqn:Hmine; try discriminate.
  simpl in H. injection H as ->. exact (mine_block_never_raises _ _ _ _ Hmine).
Qed.

Lemma add_testing_record_terminates (k : nat) (now now_block unit_id : string)
    (test_results : dict) (l : BloodUnitBlockchain) (latest : Block) :
  last_item (chain l) = Some latest ->
  sealed (difficulty l)
    (at_nonce (Block_init (Z.of_nat (List.length (chain l))) now_block
                 (transactions_data
                    (pending_transactions l
                     ++ [testing_transaction now unit_id test_results]))
                 (hash latest))
              (Z.of_nat k)) = true ->
  exists l', forall extra,
    add_testing_record (k + extra) now now_block unit_id test_results l
    = Returns l'.
Proof.
  intros Hlast Hk.
  destruct (mine_pending_terminates k now_block
              (add_transaction (testing_transaction now unit_id test_results) l)
              latest Hlast Hk) as (l' & r & Hrun).
  exists l'. intros extra. unfold add_testing_record. rewrite Hrun. reflexivity.
Qed.

(** ** The text determines the value *)

Lemma append_assoc (a b c : string) :
  ((a ++ b) ++ c = a ++ (b ++ c))%string.
Proof. induction a as [|x a IH]; simpl; congruence. Qed.

Lemma unescape_escape_char (c : ascii) (x : string) :
  Json.unescape_char (Json.escape_char c ++ x) = Some (c, x).
Proof. destruct c as [[] [] [] [] [] [] [] []]; vm_compute; reflexivity. Qed.

Lemma escape_determines (s : string) :
  forall s' r r',
    (Json.escape s ++ String Json.dquote_char r
     = Json.escape s' ++ String Json.dquote_char r')%string ->
    s = s' /\ r = r'.
Proof.
  induction s as [|c s IH]; intros [|c' s'] r r' H.
  - simpl in H. injection H as ->. auto.
  - change (Json.escape (String c' s'))
      with (Json.escape_char c' ++ Json.escape s')%string in H.
    rewrite append_assoc in H. apply (f_equal Json.unescape_char) in H.
    rewrite unescape_escape_char in H. discriminate.
  - change (Json.escape (String c s))
      with (Json.escape_char c ++ Json.escape s)%string in H.
    rewrite append_assoc in H. apply (f_equal Json.unescape_char) in H.
    rewrite unescape_escape_char in H. discriminate.
  - change (Json.escape (String c s))
      with (Json.escape_char c ++ Json.escape s)%string in H.
    change (Json.escape (String c' s'))
      with (Json.escape_char c' ++ Json.escape s')%string in H.
    rewrite !append_assoc in H. apply (f_equal Json.unescape_char) in H.
    rewrite !unescape_escape_char in H. injection H as -> H.
    apply IH in H. destruct H as [-> ->]. auto.
Qed.

Lemma quote_append (s r : string) :
  (Json.quote s ++ r
   = String Json.dquote_char (Json.escape s ++ String Json.dquote_char r))%string.
Proof.
  unfold Json.quote, Json.dquote. simpl. rewrite append_assoc. reflexivity.
Qed.

Lemma quote_determines (s s' r r' : string) :
  (Json.quote s ++ r = Json.quote s' ++ r')%string -> s = s' /\ r = r'.
Proof.
  rewrite !quote_append. intros [= H]. apply escape_determines. assumption.
Qed.

Lemma digits_determine (s : string) :
  forall s' r r',
    Json.all_digits s = true -> Json.all_digits s' = true ->
    Json.delimited r = true -> Json.delimited r' = true ->
    (s ++ r = s' ++ r')%string -> s = s' /\ r = r'.
Proof.
  induction s as [|c s IH]; intros [|c' s'] r r' Hs Hs' Hr Hr' H; simpl in *.
  - auto.
  - subst r. simpl in Hr. apply andb_prop in Hs'. destruct Hs' as [Hc _].
    rewrite Hc in Hr. discriminate.
  - subst r'. simpl in Hr'. apply andb_prop in Hs. destruct Hs as [Hc _].
    rewrite Hc in Hr'. discriminate.
  - injection H as -> H. apply andb_prop in Hs, Hs'.
    destruct (IH s' r r') as [-> ->]; tauto.
Qed.

Lemma string_of_uint_digits (d : Decimal.uint) :
  Json.all_digits (NilEmpty.string_of_uint d) = true.
Proof. induction d; simpl; auto. Qed.

(** The three shapes of [int.__repr__]. *)
Lemma repr_int_shape (z : Z) :
  (z = 0%Z /\ Json.repr_int z = "0") \/
  (exists p, z = Z.pos p /\
     Json.repr_int z = NilEmpty.string_of_uint (Pos.to_uint p)) \/
  (exists p, z = Z.neg p /\
     Json.repr_int z = String "-" (NilEmpty.string_of_uint (Pos.to_uint p))).
Proof.
  destruct z as [|p|p].
  - left. auto.
  - right; left. exists p. split; [reflexivity|].
    unfold Json.repr_int. simpl. unfold NilZero.string_of_uint.
    pose proof (Unsigned.to_uint_nonnil p).
    destruct (Pos.to_uint p); [contradiction|..]; reflexivity.
  - right; right. exists p. split; [reflexivity|].
    unfold Json.repr_int. simpl. unfold NilZero.string_of_uint.
    pose proof (Unsigned.to_uint_nonnil p).
    destruct (Pos.to_uint p); [contradiction|..]; reflexivity.
Qed.

Lemma digits_of_pos_head (p : positive) :
  exists c s, NilEmpty.string_of_uint (Pos.to_uint p) = String c s /\
              Json.is_digit c = true.
Proof.
  pose proof (Unsigned.to_uint_nonnil p).
  destruct (Pos.to_uint p); [contradiction|..]; simpl; eauto.
Qed.

Lemma digits_of_pos_inj (p q : positive) :
  NilEmpty.string_of_uint (Pos.to_uint p) = NilEmpty.string_of_uint (Pos.to_uint q) ->
  p = q.
Proof.
  intros H. apply Unsigned.to_uint_inj.
  apply (f_equal NilEmpty.uint_of_string) in H.
  rewrite !NilEmpty.usu in H. congruence.
Qed.

Lemma repr_int_determines (z z' : Z) (r r' : string) :
  Json.delimited r = true -> Json.delimited r' = true ->
  (Json.repr_int z ++ r = Json.repr_int z' ++ r')%string -> z = z' /\ r = r'.
Proof.
  intros Hr Hr' H.
  destruct (repr_int_shape z) as [[-> E]|[(p & -> & E)|(p & -> & E)]];
  destruct (repr_int_shape z') as [[-> E']|[(q & -> & E')|(q & -> & E')]];
  rewrite ?E, ?E' in H; clear E E'.
  - simpl in H. injection H as ->. auto.
  - apply (digits_determine "0") in H; auto using string_of_uint_digits.
    destruct H as [H ->]. change "0"%string with
      (NilEmpty.string_of_uint (Decimal.D0 Decimal.Nil)) in H.
    apply (f_equal NilEmpty.uint_of_string) in H. rewrite !NilEmpty.usu in H.
    injection H as H. symmetry in H. destruct (Unsigned.to_uint_nonzero q H).
  - simpl in H. discriminate.
  - apply (digits_determine _ "0") in H; auto using string_of_uint_digits.
    destruct H as [H ->]. change "0"%string with
      (NilEmpty.string_of_uint (Decimal.D0 Decimal.Nil)) in H.
    apply (f_equal NilEmpty.uint_of_string) in H. rewrite !NilEmpty.usu in H.
    injection H as H. destruct (Unsigned.to_uint_nonzero p H).
  - apply digits_determine in H; auto using string_of_uint_digits.
    destruct H as [H ->]. apply digits_of_pos_inj in H. subst. auto.
  - destruct (digits_of_pos_head p) as (c & s & E & Hc). rewrite E in H.
    simpl in H. injection H as -> _. discriminate.
  - simpl in H. discriminate.
  - destruct (digits_of_pos_head q) as (c & s & E & Hc). rewrite E in H.
    simpl in H. injection H as <- _. discriminate.
  - simpl in H. injection H as H.
    apply digits_determine in H; auto using string_of_uint_digits.
    destruct H as [H ->]. apply digits_of_pos_inj in H. subst. auto.
Qed.

Lemma join_cons_append (sep x : string) (t : list string) (r : string) :
  (Json.join sep (x :: t) ++ r
   = x ++ match t with
          | [] => r
          | _ :: _ => sep ++ (Json.join sep t ++ r)
          end)%string.
Proof.
  destruct t as [|y t]; [reflexivity|].
  change (Json.join sep (x :: y :: t))
    with (x ++ sep ++ Json.join sep (y :: t))%string.
  rewrite !append_assoc. reflexivity.
Qed.

(** A sequence of items separated by ", " and closed by [close] is
    determined by its text, when each item is and no item starts with
    [close]. *)
Lemma join_determines {A : Type} (tx : A -> string) (E : A -> A -> Prop)
    (close : ascii) :
  Json.is_digit close = false -> close <> ","%char ->
  (forall x, exists c s, tx x = String c s /\ c <> close) ->
  forall xs,
    Forall (fun x => forall x' q q',
              Json.delimited q = true -> Json.delimited q' = true ->
              (tx x ++ q = tx x' ++ q')%string -> E x x' /\ q = q') xs ->
    forall xs' r r',
      (Json.join ", " (map tx xs) ++ String close r
       = Json.join ", " (map tx xs') ++ String close r')%string ->
      Forall2 E xs xs' /\ r = r'.
Proof.
  intros Hclose Hcomma Hhead xs HF.
  induction HF as [|x t Hx _ IH]; intros xs' r r' H.
  - destruct xs' as [|x' t'].
    + simpl in H. injection H as ->. auto.
    + simpl map in H. rewrite join_cons_append in H.
      destruct (Hhead x') as (c & s & E1 & Hc). rewrite E1 in H.
      simpl in H. injection H as <- _. contradiction.
  - destruct xs' as [|x' t'].
    + simpl map in H. rewrite join_cons_append in H.
      destruct (Hhead x) as (c & s & E1 & Hc). rewrite E1 in H.
      simpl in H. injection H as -> _. contradiction.
    + simpl map in H. rewrite !join_cons_append in H.
      apply Hx in H.
      2:{ destruct (map tx t); simpl; [rewrite Hclose|]; reflexivity. }
      2:{ destruct (map tx t'); simpl; [rewrite Hclose|]; reflexivity. }
      destruct H as [He H].
      assert (H' : (Json.join ", " (map tx t) ++ String close r
                    = Json.join ", " (map tx t') ++ String close r')%string).
      { destruct (map tx t) as [|y l] eqn:Et; destruct (map tx t') as [|y' l'] eqn:Et'.
        - exact H.
        - simpl in H. injection H as -> _. contradiction.
        - simpl in H. injection H as <- _. contradiction.
        - simpl in H. injection H as H. exact H. }
      apply IH in H'. destruct H' as [HF2 ->]. split; [constructor|]; auto.
Qed.

Lemma insert_item_map {V W : Type} (h : V -> W) (kv : string * V)
    (l : list (string * V)) :
  Json.insert_item (fst kv, h (snd kv)) (map (fun e => (fst e, h (snd e))) l)
  = map (fun e => (fst e, h (snd e))) (Json.insert_item kv l).
Proof.
  induction l as [|e l IH]; simpl; [reflexivity|].
  destruct (String.leb (fst kv) (fst e)); simpl; [reflexivity|].
  rewrite IH. reflexivity.
Qed.

(** Sorting by key commutes with a change of the values. *)
Lemma sort_items_map {V W : Type} (h : V -> W) (l : list (string * V)) :
  Json.sort_items (map (fun e => (fst e, h (snd e))) l)
  = map (fun e => (fst e, h (snd e))) (Json.sort_items l).
Proof.
  induction l as [|kv l IH]; simpl; [reflexivity|].
  rewrite IH. apply insert_item_map.
Qed.

Lemma insert_item_In {V : Type} (kv e : string * V) (l : list (string * V)) :
  In e (Json.insert_item kv l) -> e = kv \/ In e l.
Proof.
  induction l as [|e' l IH]; simpl.
  - intros [<-|[]]. auto.
  - destruct (String.leb (fst kv) (fst e')); simpl.
    + intros [<-|[<-|H]]; auto.
    + intros [<-|H]; auto. apply IH in H. tauto.
Qed.

Lemma sort_items_In {V : Type} (e : string * V) (l : list (string * V)) :
  In e (Json.sort_items l) -> In e l.
Proof.
  induction l as [|kv l IH]; simpl; [auto|].
  intros H. apply insert_item_In in H. destruct H as [->|H]; auto.
Qed.

Lemma dumps_dict (d : dict) :
  Json.dumps (JDict d)
  = ("{" ++ Json.join ", "
              (map (fun kv => Json.quote (fst kv) ++ ": " ++ Json.dumps (snd kv))
                   (Json.sort_items d))
         ++ "}")%string.
Proof.
  simpl. rewrite (sort_items_map Json.dumps d), map_map. reflexivity.
Qed.

Lemma dumps_head (v : json) :
  exists c s, Json.dumps v = String c s /\
              Json.kind_of_char c = Some (Json.kind_of v).
Proof.
  destruct v as [|b|z|s|l|d].
  - eexists _, _. split; reflexivity.
  - destruct b; eexists _, _; split; reflexivity.
  - simpl Json.dumps.
    destruct (repr_int_shape z) as [[-> E]|[(p & -> & E)|(p & -> & E)]]; rewrite E.
    + eexists _, _. split; reflexivity.
    + destruct (digits_of_pos_head p) as (c & s & -> & Hc).
      exists c, s. split; [reflexivity|].
      unfold Json.kind_of_char. rewrite Hc.
      destruct c as [[] [] [] [] [] [] [] []]; try discriminate; reflexivity.
    + eexists _, _. split; reflexivity.
  - eexists _, _. split; reflexivity.
  - eexists _, _. split; reflexivity.
  - rewrite dumps_dict. eexists _, _. split; reflexivity.
Qed.

Lemma dumps_same_kind (v v' : json) (r r' : string) :
  (Json.dumps v ++ r = Json.dumps v' ++ r')%string ->
  Json.kind_of v = Json.kind_of v'.
Proof.
  destruct (dumps_head v) as (c & s & -> & Hc).
  destruct (dumps_head v') as (c' & s' & -> & Hc').
  simpl. intros [= -> _]. congruence.
Qed.

Lemma dumps_list_append (l : list json) (r : string) :
  (Json.dumps (JList l) ++ r
   = String "[" (Json.join ", " (map Json.dumps l) ++ String "]" r))%string.
Proof. simpl. rewrite append_assoc. reflexivity. Qed.

Lemma dumps_dict_append (d : dict) (r : string) :
  (Json.dumps (JDict d) ++ r
   = String "{"
       (Json.join ", "
          (map (fun kv => Json.quote (fst kv) ++ ": " ++ Json.dumps (snd kv))
               (Json.sort_items d))
        ++ String "}" r))%string.
Proof. rewrite dumps_dict. simpl. rewrite append_assoc. reflexivity. Qed.

Lemma canon_dict (d : dict) :
  Json.canon (JDict d)
  = JDict (map (fun kv => (fst kv, Json.canon (snd kv))) (Json.sort_items d)).
Proof. simpl. rewrite (sort_items_map Json.canon d). reflexivity. Qed.

Lemma Forall2_map_eq {A B : Type} (f : A -> B) (xs xs' : list A) :
  Forall2 (fun x x' => f x = f x') xs xs' -> map f xs = map f xs'.
Proof. induction 1; simpl; congruence. Qed.

(** The text of a value, followed by anything that is not a digit,
    determines the value up to the order of the keys of its dicts, and
    what follows. *)
Lemma dumps_determines (v : json) :
  forall v' r r',
    Json.delimited r = true -> Json.delimited r' = true ->
    (Json.dumps v ++ r = Json.dumps v' ++ r')%string ->
    Json.canon v = Json.canon v' /\ r = r'.
Proof.
  induction v as [|b|z|s|l IH|d IH] using json_induction;
    intros v' r r' Hr Hr' H;
    pose proof (dumps_same_kind _ _ _ _ H) as Hk;
    destruct v' as [|b'|z'|s'|l'|d']; try (destruct b); try (destruct b');
    try discriminate Hk; clear Hk.
  - simpl in H. injection H as ->. auto.
  - simpl in H. injection H as ->. auto.
  - simpl in H. injection H as ->. auto.
  - simpl Json.dumps in H. apply repr_int_determines in H; try assumption.
    destruct H as [-> ->]. auto.
  - simpl Json.dumps in H. apply quote_determines in H.
    destruct H as [-> ->]. auto.
  - rewrite !dumps_list_append in H. injection H as H.
    apply (join_determines Json.dumps
             (fun x x' => Json.canon x = Json.canon x')) in H.
    + destruct H as [HF ->]. split; [|reflexivity].
      simpl. f_equal. apply Forall2_map_eq. assumption.
    + reflexivity.
    + discriminate.
    + intros x. destruct (dumps_head x) as (c & t & E & Hc).
      exists c, t. split; [assumption|]. intros ->. discriminate.
    + assumption.
  - rewrite !dumps_dict_append in H. injection H as H.
    apply (join_determines
             (fun kv => Json.quote (fst kv) ++ ": " ++ Json.dumps (snd kv))%string
             (fun kv kv' => fst kv = fst kv' /\
                            Json.canon (snd kv) = Json.canon (snd kv'))) in H.
    + destruct H as [HF ->]. split; [|reflexivity].
      rewrite !canon_dict. f_equal.
      induction HF as [|kv kv' t t' [Hk Hv] _ IHF]; simpl; [reflexivity|].
      rewrite Hk, Hv, IHF. reflexivity.
    + reflexivity.
    + discriminate.
    + intros kv. eexists _, _. split; [reflexivity|]. discriminate.
    + apply Forall_forall. intros kv Hin. apply sort_items_In in Hin.
      rewrite Forall_forall in IH. specialize (IH kv Hin).
      intros kv' q q' Hq Hq' Hkv.
      rewrite !append_assoc in Hkv. apply quote_determines in Hkv.
      destruct Hkv as [Hk Hkv]. simpl in Hkv. injection Hkv as Hkv.
      apply IH in Hkv; try assumption. destruct Hkv as [Hv ->]. auto.
Qed.

(** Two values with the same text are the same, up to the order in which
    the keys of their dicts were inserted. *)
Lemma dumps_injective (v v' : json) :
  Json.dumps v = Json.dumps v' -> Json.canon v = Json.canon v'.
Proof.
  intros H.
  destruct (dumps_determines v v' EmptyString EmptyString eq_refl eq_refl) as [E _].
  - rewrite H. reflexivity.
  - exact E.
Qed.

(** The text that is hashed determines the five fields of the block. *)
Lemma block_string_injective (b b' : Block) :
  block_string b = block_string b' ->
  index b = index b' /\ timestamp b = timestamp b' /\
  Json.canon (JDict (data b)) = Json.canon (JDict (data b')) /\
  previous_hash b = previous_hash b' /\ nonce b = nonce b'.
Proof.
  intros H. apply dumps_injective in H.
  rewrite !canon_dict in H. simpl in H.
  injection H as Hd Hi Hn Hp Ht. repeat split; try assumption.
  simpl. rewrite Hd. reflexivity.
Qed.

(** For dicts, whose keys are distinct, the canonical forms agree only
    when every key has the same value, up to the order of keys, in both. *)
Lemma get_insert_item (kv : string * json) (l : dict) (k : string) :
  ~ In (fst kv) (map fst l) ->
  get k (Json.insert_item kv l)
  = if String.eqb (fst kv) k then Some (snd kv) else get k l.
Proof.
  destruct kv as [k0 v0]. simpl fst. simpl snd.
  induction l as [|[k1 v1] l IH]; intros Hnot; simpl; [reflexivity|].
  destruct (String.leb k0 k1); simpl; [reflexivity|].
  rewrite IH by (intros Hin; apply Hnot; right; exact Hin).
  destruct (String.eqb k1 k) eqn:E1; [|reflexivity].
  destruct (String.eqb k0 k) eqn:E0; [|reflexivity].
  apply String.eqb_eq in E0, E1. subst. exfalso. apply Hnot. left. reflexivity.
Qed.

Lemma sort_items_keys {V : Type} (l : list (string * V)) (k : string) :
  In k (map fst (Json.sort_items l)) -> In k (map fst l).
Proof.
  intros H. apply in_map_iff in H. destruct H as (e & <- & He).
  apply in_map, sort_items_In, He.
Qed.

Lemma get_sort_items (d : dict) (k : string) :
  NoDup (map fst d) -> get k (Json.sort_items d) = get k d.
Proof.
  induction d as [|[k0 v0] d IH]; intros Hnd; [reflexivity|].
  inversion Hnd as [|? ? Hnot Hnd']; subst. simpl Json.sort_items.
  rewrite get_insert_item.
  - simpl. rewrite IH by assumption. reflexivity.
  - simpl. intros Hin. apply Hnot. apply sort_items_keys in Hin. exact Hin.
Qed.

Lemma get_map_canon (d : dict) (k : string) :
  get k (map (fun kv => (fst kv, Json.canon (snd kv))) d)
  = option_map Json.canon (get k d).
Proof.
  induction d as [|[k0 v0] d IH]; simpl; [reflexivity|].
  destruct (String.eqb k0 k); [reflexivity | exact IH].
Qed.

Lemma canon_dict_get (d d' : dict) (k : string) :
  NoDup (map fst d) -> NoDup (map fst d') ->
  Json.canon (JDict d) = Json.canon (JDict d') ->
  option_map Json.canon (get k d) = option_map Json.canon (get k d').
Proof.
  intros Hd Hd' H. rewrite !canon_dict in H. injection H as H.
  apply (f_equal (get k)) in H. rewrite !get_map_canon in H.
  rewrite !get_sort_items in H by assumption. exact H.
Qed.

(** ** Overwriting a sealed block *)

Lemma replace_nth_length {A : Type} (i : nat) (x : A) (l : list A) :
  List.length (replace_nth i x l) = List.length l.
Proof.
  revert i. induction l as [|y l IH]; intros [|i]; simpl; try reflexivity.
  rewrite IH. reflexivity.
Qed.

Lemma nth_error_replace_nth_same {A : Type} (i : nat) (x : A) (l : list A) :
  i < List.length l -> nth_error (replace_nth i x l) i = Some x.
Proof.
  revert i. induction l as [|y l IH]; intros [|i] H; simpl in *; try lia.
  - reflexivity.
  - apply IH. lia.
Qed.

Lemma nth_error_replace_nth_other {A : Type} (i j : nat) (x : A) (l : list A) :
  j <> i -> nth_error (replace_nth i x l) j = nth_error l j.
Proof.
  revert i j. induction l as [|y l IH]; intros [|i] [|j] H; simpl;
    try reflexivity; try contradiction.
  apply IH. lia.
Qed.

(** One failing index is enough for [is_chain_valid] to return false. *)
Lemma is_chain_valid_false (l : BloodUnitBlockchain) (i : nat) :
  1 <= i < List.length (chain l) -> ~ link_ok (chain l) i ->
  is_chain_valid l = false.
Proof.
  intros Hi Hbad. destruct (is_chain_valid l) eqn:E; [|reflexivity].
  exfalso. apply Hbad. apply is_chain_valid_true; assumption.
Qed.

Lemma tamper_bad_hash (l : BloodUnitBlockchain) (i : nat) (b' : Block) :
  1 <= i < List.length (chain l) ->
  hash b' <> calculate_hash b' ->
  is_chain_valid (tamper i b' l) = false.
Proof.
  intros Hi Hbad. apply is_chain_valid_false with (i := i); simpl.
  - rewrite replace_nth_length. assumption.
  - intros (cur & prev & Hc & _ & Hh & _).
    rewrite nth_error_replace_nth_same in Hc by lia. congruence.
Qed.

Lemma tamper_bad_link (l : BloodUnitBlockchain) (i : nat) (b b' : Block) :
  is_chain_valid l = true ->
  1 <= i -> nth_error (chain l) i = Some b ->
  previous_hash b' <> previous_hash b ->
  is_chain_valid (tamper i b' l) = false.
Proof.
  intros Hv Hi Hb Hbad.
  assert (Hlt : i < List.length (chain l)).
  { apply nth_error_Some. congruence. }
  apply is_chain_valid_false with (i := i); simpl.
  - rewrite replace_nth_length. lia.
  - intros (cur & prev & Hc & Hp & _ & Hl).
    rewrite nth_error_replace_nth_same in Hc by lia.
    rewrite nth_error_replace_nth_other in Hp by lia.
    destruct (proj1 (is_chain_valid_true l) Hv i) as (c0 & p0 & Hc0 & Hp0 & _ & Hl0);
      [lia|].
    congruence.
Qed.

Lemma tamper_bad_successor (l : BloodUnitBlockchain) (i : nat) (b b' : Block) :
  is_chain_valid l = true ->
  S i < List.length (chain l) -> nth_error (chain l) i = Some b ->
  hash b' <> hash b ->
  is_chain_valid (tamper i b' l) = false.
Proof.
  intros Hv Hi Hb Hbad.
  apply is_chain_valid_false with (i := S i); simpl.
  - rewrite replace_nth_length. lia.
  - unfold link_ok. replace (S i - 1) with i by lia.
    intros (cur & prev & Hc & Hp & _ & Hl).
    rewrite nth_error_replace_nth_other in Hc by lia.
    rewrite nth_error_replace_nth_same in Hp by lia.
    destruct (proj1 (is_chain_valid_true l) Hv (S i)) as (c0 & p0 & Hc0 & Hp0 & _ & Hl0);
      [lia|].
    replace (S i - 1) with i in Hp0 by lia. congruence.
Qed.

(** The first block is read for its hash alone. *)
Lemma link_ok_genesis (bs : list Block) (g g' : Block) (i : nat) :
  hash g' = hash g -> 1 <= i ->
  link_ok (g :: bs) i -> link_ok (g' :: bs) i.
Proof.
  intros Hh Hi (cur & prev & Hc & Hp & Hc' & Hl).
  destruct i as [|[|i]]; [lia| |].
  - simpl in *. injection Hp as <-. exists cur, g'. simpl.
    repeat split; congruence.
  - exists cur, prev. repeat split; assumption.
Qed.

Lemma tamper_genesis_unseen (l : BloodUnitBlockchain) (g g' : Block) :
  nth_error (chain l) 0 = Some g -> hash g' = hash g ->
  is_chain_valid (tamper 0 g' l) = is_chain_valid l.
Proof.
  intros Hg Hh. destruct l as [bs p d]. destruct bs as [|g0 bs]; [discriminate|].
  simpl in Hg. injection Hg as ->.
  apply Bool.eq_iff_eq_true. rewrite !is_chain_valid_true. simpl.
  split; intros H i Hi; specialize (H i Hi).
  - apply link_ok_genesis with (g := g'); [congruence | lia | assumption].
  - apply link_ok_genesis with (g := g); [congruence | lia | assumption].
Qed.

(** ** What the statements leave out *)

Lemma reachable_chain_typed (l : BloodUnitBlockchain) :
  reachable l -> chain_typed l = true.
Proof. intros H. apply (inv_typed l (reachable_inv l H)). Qed.

(** A last record without a "status" key makes the verification raise. *)
Lemma verify_unit_without_status (unit_id : string) (l : BloodUnitBlockchain)
    (block : Block) (transaction : dict) :
  chain_typed l = true ->
  last_item (history_of unit_id l) = Some (history_entry block transaction) ->
  get "status" transaction = None ->
  verify_unit_authenticity unit_id l = Raises KeyError.
Proof.
  intros Ht Hlast Hst. unfold verify_unit_authenticity.
  rewrite (get_unit_history_typed unit_id l Ht). simpl bind. rewrite Hlast.
  unfold history_entry at 1. simpl. rewrite Hst. reflexivity.
Qed.

(** A list or a dict as unit id cannot enter the set. *)
Lemma set_add_unhashable (v : json) (s : list json) :
  hashable v = false -> set_add v s = Raises TypeError.
Proof. intros H. unfold set_add. rewrite H. reflexivity. Qed.

(** ** The demonstration run is a run of the program *)

Lemma demo_created_reachable : reachable demo_created.
Proof.
  apply (reach_init 1 "2024-03-01T09:00:00.100208"). vm_compute. reflexivity.
Qed.

Lemma demo_collected_reachable : reachable demo_collected.
Proof.
  assert (E : demo_collected =
              snd (create_blood_unit "3f2a9c1e7b4d4e0f8a6b5c4d3e2f1a0b"
                     "2024-03-01T09:15:00.123456" "D1" "O+" "2024-03-01" "Pune"
                     demo_created)) by (vm_compute; reflexivity).
  rewrite E. apply reach_create_unit, demo_created_reachable.
Qed.

Lemma demo_sealed_reachable : reachable demo_sealed.
Proof.
  apply (reach_mine 1 "2024-03-01T09:15:00.700060" demo_collected demo_sealed
           (last_item (chain demo_sealed))).
  - apply demo_collected_reachable.
  - vm_compute. reflexivity.
Qed.

Lemma demo_tested_reachable : reachable demo_tested.
Proof.
  apply (reach_testing 1 "2024-03-01T11:30:00.250000" "2024-03-01T11:30:00.300078"
           demo_unit demo_failed_test demo_sealed).
  - apply demo_sealed_reachable.
  - vm_compute. reflexivity.
Qed.

Lemma demo_batched_reachable : reachable demo_batched.
Proof.
  apply (reach_testing 0 "2024-03-01T11:30:00.250000" "2024-03-01T11:30:00.300311"
           demo_unit demo_failed_test demo_collected).
  - apply demo_collected_reachable.
  - vm_compute. reflexivity.
Qed.

(** ** The claims *)

(** C1. Every ledger obtained from the constructor by any sequence of
    [add_transaction], [create_blood_unit], the four [add_*_record]
    methods and [mine_pending_transactions] passes [is_chain_valid], and
    each block after the first carries the hash of the block before it
    as its [previous_hash]. *)
Theorem reachable_chain_valid (l : BloodUnitBlockchain) :
  reachable l ->
  is_chain_valid l = true /\
  forall i current_block previous_block,
    1 <= i ->
    nth_error (chain l) i = Some current_block ->
    nth_error (chain l) (i - 1) = Some previous_block ->
    previous_hash current_block = hash previous_block.
Proof.
  intros Hr. apply reachable_inv in Hr. split.
  - apply ledger_inv_valid. assumption.
  - intros i cur prev Hi Hc Hp. apply (inv_linked l Hr (i - 1)); [|assumption].
    replace (S (i - 1)) with i by lia. assumption.
Qed.

Lemma reachable_chain_valid_witness :
  reachable demo_tested /\
  is_chain_valid demo_tested = true /\
  forall i current_block previous_block,
    1 <= i ->
    nth_error (chain demo_tested) i = Some current_block ->
    nth_error (chain demo_tested) (i - 1) = Some previous_block ->
    previous_hash current_block = hash previous_block.
Proof.
  split.
  - exact demo_tested_reachable.
  - exact (reachable_chain_valid demo_tested demo_tested_reachable).
Defined.

(** C2, as the code has it. In a ledger that passes [is_chain_valid],
    let the block at index [i] be overwritten by [b']. The result is
    false
    - when [i >= 1] and only the stored hash was changed;
    - when [i >= 1] and the [previous_hash] was changed;
    - when [i >= 1], the stored hash was kept and the index, the
      timestamp, the data, the [previous_hash] or the nonce was changed,
      unless SHA-256 gives the changed text the digest of the original
      text;
    - when the block has a successor and its stored hash was changed.
    The first block is read for its hash alone: overwriting it by any
    block with the same hash leaves the result true. *)
Theorem tampering_detected (l : BloodUnitBlockchain) (i : nat) (b b' : Block) :
  is_chain_valid l = true ->
  nth_error (chain l) i = Some b ->
  (forall h, 1 <= i -> h <> hash b ->
     is_chain_valid (tamper i (set_hash b h) l) = false) /\
  (1 <= i -> previous_hash b' <> previous_hash b ->
     is_chain_valid (tamper i b' l) = false) /\
  (1 <= i -> hash b' = hash b -> content b' <> content b ->
     (sha256_hexdigest (block_string b') = sha256_hexdigest (block_string b) ->
      block_string b' = block_string b) ->
     is_chain_valid (tamper i b' l) = false) /\
  (S i < List.length (chain l) -> hash b' <> hash b ->
     is_chain_valid (tamper i b' l) = false) /\
  (i = 0 -> hash b' = hash b -> is_chain_valid (tamper i b' l) = true).
Proof.
  intros Hv Hb.
  assert (Hlt : i < List.length (chain l)).
  { apply nth_error_Some. congruence. }
  assert (Hgood : 1 <= i -> hash b = calculate_hash b).
  { intros Hi.
    destruct (proj1 (is_chain_valid_true l) Hv i) as (c & p & Hc & _ & Hh & _);
      [lia|].
    congruence. }
  repeat split.
  - intros h Hi Hh. apply tamper_bad_hash; [lia|].
    rewrite calculate_hash_set_hash, <- (Hgood Hi). exact Hh.
  - intros Hi Hp. eapply tamper_bad_link; eassumption.
  - intros Hi Hh Hc Hsha. apply tamper_bad_hash; [lia|].
    rewrite Hh, (Hgood Hi). unfold calculate_hash. intros E.
    symmetry in E. apply Hsha in E. apply block_string_injective in E.
    apply Hc. unfold content.
    destruct E as (-> & -> & -> & -> & ->). reflexivity.
  - intros Hs Hh. eapply tamper_bad_successor; eassumption.
  - intros -> Hh. rewrite (tamper_genesis_unseen l b b' Hb Hh). exact Hv.
Qed.

(** The test record of the last block of the run rewritten from failed to
    passed: the two texts have different digests, and the ledger no longer
    validates. *)
Lemma tampering_detected_witness :
  exists b,
    is_chain_valid demo_tested = true /\
    nth_error (chain demo_tested) 2 = Some b /\
    hash demo_forged_block = hash b /\
    content demo_forged_block <> content b /\
    calculate_hash demo_forged_block <> calculate_hash b /\
    is_chain_valid (tamper 2 demo_forged_block demo_tested) = false.
Proof.
  destruct (nth_error (chain demo_tested) 2) as [b|] eqn:Hb; [|discriminate].
  assert (Hv : is_chain_valid demo_tested = true) by (vm_compute; reflexivity).
  destruct (tampering_detected demo_tested 2 b demo_forged_block Hv Hb)
    as (_ & _ & Hdata & _ & _).
  vm_compute in Hb. injection Hb as <-.
  assert (Hh : hash demo_forged_block
               = "004e464274b6f81d63ba9f6c6167e5baaa72a9bdb313bcc14a219f8ac11bdcf8")
    by reflexivity.
  assert (Hc : content demo_forged_block <>
               content
                 (mkBlock 2 "2024-03-01T11:30:00.300078"
                    (transactions_data
                       [testing_transaction "2024-03-01T11:30:00.250000" demo_unit
                          demo_failed_test])
                    "00ae48c1e2df089cf17c289e6e313aa7dbddefc4ce3e1836bded0e3a7a03d105"
                    1
                    "004e464274b6f81d63ba9f6c6167e5baaa72a9bdb313bcc14a219f8ac11bdcf8")).
  { intros E. vm_compute in E. discriminate E. }
  assert (Hd : calculate_hash demo_forged_block <>
               calculate_hash
                 (mkBlock 2 "2024-03-01T11:30:00.300078"
                    (transactions_data
                       [testing_transaction "2024-03-01T11:30:00.250000" demo_unit
                          demo_failed_test])
                    "00ae48c1e2df089cf17c289e6e313aa7dbddefc4ce3e1836bded0e3a7a03d105"
                    1
                    "004e464274b6f81d63ba9f6c6167e5baaa72a9bdb313bcc14a219f8ac11bdcf8")).
  { intros E. vm_compute in E. discriminate E. }
  eexists. split; [exact Hv|]. split; [reflexivity|]. split; [exact Hh|].
  split; [exact Hc|]. split; [exact Hd|].
  apply Hdata; try assumption; try lia.
  intros E. exfalso. apply Hd. exact E.
Defined.

(** C2, as the claim words it, fails on the first block. Every field of
    the genesis block of the run but its hash is overwritten, and the
    ledger still validates; and in the ledger just constructed, whose
    chain is the genesis block alone, the hash itself is overwritten and
    the ledger still validates. *)
Lemma genesis_tampering_undetected :
  exists g alone,
    nth_error (chain demo_tested) 0 = Some g /\
    is_chain_valid demo_tested = true /\
    index demo_forged_genesis <> index g /\
    timestamp demo_forged_genesis <> timestamp g /\
    data demo_forged_genesis <> data g /\
    previous_hash demo_forged_genesis <> previous_hash g /\
    nonce demo_forged_genesis <> nonce g /\
    is_chain_valid (tamper 0 demo_forged_genesis demo_tested) = true /\
    chain demo_created = [alone] /\
    is_chain_valid demo_created = true /\
    is_chain_valid (tamper 0 (set_hash alone "tampered") demo_created) = true.
Proof.
  destruct (nth_error (chain demo_tested) 0) as [g|] eqn:Hg; [|discriminate].
  destruct (chain demo_created) as [|alone rest] eqn:Hc; [discriminate|].
  exists g, alone. vm_compute in Hg. injection Hg as <-.
  vm_compute in Hc. injection Hc as <- <-.
  repeat split; try discriminate; vm_compute; reflexivity.
Qed.

(** C3. On a ledger whose pending buffer is not empty,
    [mine_pending_transactions] never raises; whenever it returns, it
    returns a block that it has appended behind the unchanged chain, whose
    index is the former length of the chain, whose [previous_hash] is the
    hash of the former last block, whose data are the pending records in
    their order, whose hash is the hash of its content and starts with
    [difficulty] zeros, and the pending buffer is empty afterwards; and it
    does return, within [k] iterations of the search, as soon as the nonce
    [k] seals the new block. *)
Theorem seal_appends_one_block (l : BloodUnitBlockchain) (now : string)
    (latest : Block) :
  pending_transactions l <> [] ->
  last_item (chain l) = Some latest ->
  (forall fuel l' r,
     mine_pending_transactions fuel now l = Returns (l', r) ->
     exists b,
       r = Some b /\
       chain l' = chain l ++ [b] /\
       index b = Z.of_nat (List.length (chain l)) /\
       previous_hash b = hash latest /\
       data b = transactions_data (pending_transactions l) /\
       hash b = calculate_hash b /\
       slice_to (difficulty l) (hash b) = zeros (difficulty l) /\
       pending_transactions l' = [] /\
       difficulty l' = difficulty l) /\
  (forall fuel e, mine_pending_transactions fuel now l <> Raises e) /\
  (forall k,
     sealed (difficulty l)
       (at_nonce (Block_init (Z.of_nat (List.length (chain l))) now
                    (transactions_data (pending_transactions l)) (hash latest))
                 (Z.of_nat k)) = true ->
     exists l' b, forall extra,
       mine_pending_transactions (k + extra) now l = Returns (l', Some b)).
Proof.
  intros Hp Hlast. split; [|split].
  - intros fuel l' r H.
    destruct (mine_pending_returns fuel now l l' r latest Hp Hlast H)
      as (b & -> & -> & Hi & _ & Hd & Hph & Hs & Hh).
    exists b. repeat split; try assumption.
    apply String.eqb_eq. exact Hs.
  - intros fuel e H. unfold mine_pending_transactions, get_latest_block in H.
    destruct (pending_transactions l) as [|tx txs]; [discriminate|].
    rewrite Hlast in H. simpl in H.
    destruct (mine_block fuel (difficulty l) _) as [b| |] eqn:Hmine;
      try discriminate.
    simpl in H. injection H as ->. exact (mine_block_never_raises _ _ _ _ Hmine).
  - intros k Hk.
    destruct (mine_pending_terminates k now l latest Hlast Hk) as (l' & r & Hrun).
    pose proof (Hrun 0) as H0.
    destruct (mine_pending_returns _ now l l' r latest Hp Hlast H0) as (b & -> & _).
    exists l', b. exact Hrun.
Qed.

Lemma seal_appends_one_block_witness :
  exists latest l' b,
    pending_transactions demo_collected <> [] /\
    last_item (chain demo_collected) = Some latest /\
    mine_pending_transactions 1 "2024-03-01T09:15:00.700060" demo_collected
      = Returns (l', Some b) /\
    chain l' = chain demo_collected ++ [b] /\
    index b = 1%Z /\
    previous_hash b = hash latest /\
    data b = transactions_data (pending_transactions demo_collected) /\
    slice_to 2 (hash b) = "00" /\
    pending_transactions l' = [].
Proof.
  assert (Hp : pending_transactions demo_collected <> []) by discriminate.
  destruct (last_item (chain demo_collected)) as [latest|] eqn:Hlast;
    [|discriminate].
  destruct (seal_appends_one_block demo_collected "2024-03-01T09:15:00.700060"
              latest Hp Hlast) as (Hret & _ & Hterm).
  destruct (Hterm 1) as (l' & b & Hrun).
  { vm_compute in Hlast. injection Hlast as <-. vm_compute. reflexivity. }
  specialize (Hrun 0). change (1 + 0) with 1 in Hrun.
  destruct (Hret _ _ _ Hrun) as (b0 & Hb0 & Hc & Hi & Hph & Hd & _ & Hs & Hpe & _).
  injection Hb0 as <-.
  exists latest, l', b. repeat split; assumption.
Defined.

(** C4. For every block of a reachable ledger, the recomputed hash is the
    stored one; storing the recomputed hash and recomputing gives the
    same value again; and the block read back from its exported
    dictionary is the block itself, so that the hash recomputed from the
    exported fields is the stored hash, which the dictionary also
    carries. *)
Theorem block_hash_recomputes (l : BloodUnitBlockchain) (b : Block) :
  reachable l -> In b (chain l) ->
  calculate_hash b = hash b /\
  calculate_hash (set_hash b (calculate_hash b)) = calculate_hash b /\
  from_dict (to_dict b) = Some b /\
  option_map calculate_hash (from_dict (to_dict b)) = Some (hash b) /\
  get "hash" (to_dict b) = Some (JStr (hash b)).
Proof.
  intros Hr Hb. apply reachable_inv in Hr.
  pose proof (inv_hash l Hr b Hb) as Hh.
  assert (Hfrom : from_dict (to_dict b) = Some b) by (destruct b; reflexivity).
  repeat split; try (symmetry; assumption); try assumption; try reflexivity.
  rewrite Hfrom. simpl. congruence.
Qed.

Lemma block_hash_recomputes_witness :
  exists b,
    reachable demo_tested /\ In b (chain demo_tested) /\
    index b = 2%Z /\
    calculate_hash b = hash b /\
    option_map calculate_hash (from_dict (to_dict b)) = Some (hash b).
Proof.
  destruct (last_item (chain demo_tested)) as [b|] eqn:Hlast; [|discriminate].
  assert (Hin : In b (chain demo_tested)).
  { vm_compute in Hlast. injection Hlast as <-. right; right; left. reflexivity. }
  destruct (block_hash_recomputes demo_tested b demo_tested_reachable Hin)
    as (H1 & _ & _ & H4 & _).
  exists b. repeat split; try assumption.
  - exact demo_tested_reachable.
  - vm_compute in Hlast. injection Hlast as <-. reflexivity.
Defined.

(** C5, as the code has it. On a chain whose blocks hold records,
    [get_audit_trail] returns, in chain order, every record of every
    block whose own timestamp (the block's, not the record's) lies
    between the bounds, both included, each reduced to its timestamp,
    type, unit id and status and annotated with the index and the hash
    of its block. *)
Theorem audit_trail_by_block_time (start_date end_date : string)
    (l : BloodUnitBlockchain) :
  chain_typed l = true ->
  get_audit_trail start_date end_date l
  = Returns
      (flat_map
         (fun block =>
            if (String.leb start_date (timestamp block)
                && String.leb (timestamp block) end_date)%bool
            then map (audit_record block) (records_or_nil block)
            else [])
         (chain l)).
Proof. apply get_audit_trail_typed. Qed.

(** Between 09:15:00.5 and 10:00 the trail of the run holds the
    collection record, stamped 09:15:00.123456, because its block was
    sealed at 09:15:00.700060. *)
Lemma audit_trail_by_block_time_witness :
  chain_typed demo_tested = true /\
  exists block transaction,
    get_audit_trail "2024-03-01T09:15:00.5" "2024-03-01T10:00:00" demo_tested
      = Returns [audit_record block transaction] /\
    timestamp block = "2024-03-01T09:15:00.700060" /\
    get "timestamp" transaction = Some (JStr "2024-03-01T09:15:00.123456").
Proof.
  assert (Ht : chain_typed demo_tested = true) by (vm_compute; reflexivity).
  split; [exact Ht|].
  pose proof (audit_trail_by_block_time "2024-03-01T09:15:00.5"
                "2024-03-01T10:00:00" demo_tested Ht) as H.
  destruct (nth_error (chain demo_tested) 1) as [block|] eqn:Hb; [|discriminate].
  destruct (records_or_nil block) as [|transaction rest] eqn:Hr.
  { vm_compute in Hb. injection Hb as <-. discriminate. }
  exists block, transaction. rewrite H.
  vm_compute in Hb. injection Hb as <-.
  vm_compute in Hr. injection Hr as <- <-.
  repeat split; vm_compute; reflexivity.
Defined.

(** C5, as the claim words it, fails: the collection record of the run is
    stamped 09:15:00.123456, inside the bounds 09:15:00 and 09:15:00.5,
    and the trail for these bounds is empty, its block being sealed at
    09:15:00.700060. *)
Lemma audit_trail_ignores_record_time :
  exists block transaction t,
    record_in demo_tested block transaction /\
    get "timestamp" transaction = Some (JStr t) /\
    String.leb "2024-03-01T09:15:00" t = true /\
    String.leb t "2024-03-01T09:15:00.5" = true /\
    audit_by_record_time "2024-03-01T09:15:00" "2024-03-01T09:15:00.5" demo_tested
      = [audit_record block transaction] /\
    get_audit_trail "2024-03-01T09:15:00" "2024-03-01T09:15:00.5" demo_tested
      = Returns [].
Proof.
  destruct (nth_error (chain demo_tested) 1) as [block|] eqn:Hb; [|discriminate].
  destruct (records_or_nil block) as [|transaction rest] eqn:Hr.
  { vm_compute in Hb. injection Hb as <-. discriminate. }
  exists block, transaction, "2024-03-01T09:15:00.123456".
  vm_compute in Hb. injection Hb as <-.
  vm_compute in Hr. injection Hr as <- <-.
  repeat split; try (vm_compute; reflexivity).
  - right; left. reflexivity.
  - left. reflexivity.
Qed.

(** C6. On a chain whose blocks hold records with hashable unit ids,
    [get_units_by_status] returns a list without duplicates whose members
    are unit ids of records at that status, that has, for every record at
    that status, a member equal to its unit id; so a string is in the
    list exactly when some record of the chain, the latest of its unit or
    not, has it as unit id and the status as status. *)
Theorem units_by_status_any_record (status : string) (l : BloodUnitBlockchain) :
  chain_typed l = true ->
  unit_ids_hashable l = true ->
  exists units,
    get_units_by_status status l = Returns units /\
    NoDup units /\
    (forall v, In v units ->
       exists block transaction,
         record_in l block transaction /\
         eq_str (get_or_none "status" transaction) status = true /\
         get_or_none "unit_id" transaction = v) /\
    (forall block transaction,
       record_in l block transaction ->
       eq_str (get_or_none "status" transaction) status = true ->
       existsb (py_eqb (get_or_none "unit_id" transaction)) units = true) /\
    (forall unit_id : string,
       In (JStr unit_id) units <->
       exists block transaction,
         record_in l block transaction /\
         get "status" transaction = Some (JStr status) /\
         get "unit_id" transaction = Some (JStr unit_id)).
Proof.
  intros Ht Hh. exists (units_at status l).
  pose proof (unit_ids_at_hashable status l Hh) as Hids.
  assert (Hsound : forall v, In v (units_at status l) ->
            exists block transaction,
              record_in l block transaction /\
              eq_str (get_or_none "status" transaction) status = true /\
              get_or_none "unit_id" transaction = v).
  { intros v Hv. apply fold_add_unique_In in Hv. destruct Hv as [[]|Hv].
    apply unit_ids_at_In. assumption. }
  assert (Hcomplete : forall block transaction,
            record_in l block transaction ->
            eq_str (get_or_none "status" transaction) status = true ->
            existsb (py_eqb (get_or_none "unit_id" transaction))
                    (units_at status l) = true).
  { intros b tx Hin Hs. apply fold_add_unique_covers; [assumption|].
    apply unit_ids_at_In. exists b, tx. auto. }
  split; [apply get_units_by_status_typed; assumption|].
  split; [apply fold_add_unique_NoDup; [assumption | constructor]|].
  split; [assumption|]. split; [assumption|].
  intros u. split.
  - intros Hu. destruct (Hsound _ Hu) as (b & tx & Hin & Hs & Hv).
    exists b, tx. split; [assumption|]. split.
    + apply eq_str_get. assumption.
    + apply get_or_none_str. assumption.
  - intros (b & tx & Hin & Hs & Hv).
    apply eq_str_get in Hs. apply get_or_none_str in Hv.
    specialize (Hcomplete b tx Hin Hs). rewrite Hv in Hcomplete.
    apply existsb_exists in Hcomplete. destruct Hcomplete as (w & Hw & E).
    apply py_eqb_str in E. subst w. assumption.
Qed.

(** The unit of the run is returned for "collected" although its latest
    record says "rejected". *)
Lemma units_by_status_any_record_witness :
  chain_typed demo_tested = true /\
  unit_ids_hashable demo_tested = true /\
  get_units_by_status "collected" demo_tested = Returns [JStr demo_unit] /\
  get_units_by_status "rejected" demo_tested = Returns [JStr demo_unit] /\
  exists units,
    get_units_by_status "collected" demo_tested = Returns units /\
    NoDup units /\ In (JStr demo_unit) units.
Proof.
  assert (Ht : chain_typed demo_tested = true) by (vm_compute; reflexivity).
  assert (Hh : unit_ids_hashable demo_tested = true) by (vm_compute; reflexivity).
  destruct (units_by_status_any_record "collected" demo_tested Ht Hh)
    as (units & Hrun & Hnd & _ & _ & Hstr).
  repeat split; try assumption; try (vm_compute; reflexivity).
  exists units. repeat split; try assumption.
  apply Hstr.
  destruct (nth_error (chain demo_tested) 1) as [block|] eqn:Hb; [|discriminate].
  destruct (records_or_nil block) as [|transaction rest] eqn:Hr.
  { vm_compute in Hb. injection Hb as <-. discriminate. }
  exists block, transaction.
  vm_compute in Hb. injection Hb as <-.
  vm_compute in Hr. injection Hr as <- <-.
  repeat split; try (vm_compute; reflexivity).
  - right; left. reflexivity.
  - left. reflexivity.
Defined.

(** C7. On a ledger whose pending buffer is empty,
    [mine_pending_transactions] returns [None] with any fuel, without
    raising, and the ledger after the call is the ledger before it. *)
Theorem seal_empty_is_noop (fuel : nat) (now : string) (l : BloodUnitBlockchain) :
  pending_transactions l = [] ->
  mine_pending_transactions fuel now l = Returns (l, None).
Proof. apply mine_pending_empty. Qed.

Lemma seal_empty_is_noop_witness :
  pending_transactions demo_tested = [] /\
  mine_pending_transactions 0 "2024-03-01T12:00:00" demo_tested
  = Returns (demo_tested, None).
Proof.
  split.
  - reflexivity.
  - apply (seal_empty_is_noop 0 "2024-03-01T12:00:00" demo_tested). reflexivity.
Defined.

(** C8. On a chain whose blocks hold records, [get_unit_history] returns
    the records of the unit in chain order, each with the index and the
    hash of its block. When there is none, [verify_unit_authenticity]
    returns, without raising, the not-found verdict, whose "verified" is
    false. When there are some and the last one carries a status, it
    returns a verdict whose "verified" and "blockchain_valid" are the
    value of [is_chain_valid], whose "total_records" is the length of the
    history and whose "current_status" is the status of the last record
    of the history. *)
Theorem verify_unit_verdict (unit_id : string) (l : BloodUnitBlockchain) :
  chain_typed l = true ->
  get_unit_history unit_id l
  = Returns
      (flat_map
         (fun block =>
            map (history_entry block)
                (filter (fun transaction =>
                           eq_str (get_or_none "unit_id" transaction) unit_id)
                        (records_or_nil block)))
         (chain l)) /\
  (history_of unit_id l = [] ->
   verify_unit_authenticity unit_id l
   = Returns [ ("verified", JBool false);
               ("message", JStr "Unit ID not found in blockchain");
               ("unit_id", JStr unit_id) ]) /\
  (forall block transaction status,
     last_item (history_of unit_id l) = Some (history_entry block transaction) ->
     get "status" transaction = Some status ->
     verify_unit_authenticity unit_id l
     = Returns [ ("verified", JBool (is_chain_valid l));
                 ("message", JStr (if is_chain_valid l
                                   then "Unit verified and authentic"
                                   else "Blockchain compromised!"));
                 ("unit_id", JStr unit_id);
                 ("total_records",
                  JInt (Z.of_nat (List.length (history_of unit_id l))));
                 ("current_status", status);
                 ("blockchain_valid", JBool (is_chain_valid l)) ]).
Proof.
  intros Ht. pose proof (get_unit_history_typed unit_id l Ht) as Hh.
  split; [exact Hh|]. split.
  - intros Hnil. unfold verify_unit_authenticity. rewrite Hh, Hnil. reflexivity.
  - intros b tx st Hlast Hst. unfold verify_unit_authenticity.
    rewrite Hh. simpl bind. rewrite Hlast.
    unfold history_entry at 1. simpl. rewrite Hst. reflexivity.
Qed.

Lemma verify_unit_verdict_witness :
  chain_typed demo_tested = true /\
  verify_unit_authenticity "UNIT-000000000000" demo_tested
  = Returns [ ("verified", JBool false);
              ("message", JStr "Unit ID not found in blockchain");
              ("unit_id", JStr "UNIT-000000000000") ] /\
  verify_unit_authenticity demo_unit demo_tested
  = Returns [ ("verified", JBool true);
              ("message", JStr "Unit verified and authentic");
              ("unit_id", JStr demo_unit);
              ("total_records", JInt 2);
              ("current_status", JStr "rejected");
              ("blockchain_valid", JBool true) ].
Proof.
  assert (Ht : chain_typed demo_tested = true) by (vm_compute; reflexivity).
  split; [exact Ht|]. split.
  - apply (verify_unit_verdict "UNIT-000000000000" demo_tested Ht).
    vm_compute. reflexivity.
  - destruct (verify_unit_verdict demo_unit demo_tested Ht) as (_ & _ & Hfound).
    destruct (last_item (chain demo_tested)) as [block|] eqn:Hb; [|discriminate].
    rewrite (Hfound block
               (testing_transaction "2024-03-01T11:30:00.250000" demo_unit
                  demo_failed_test) (JStr "rejected")).
    + vm_compute. reflexivity.
    + vm_compute in Hb. injection Hb as <-. vm_compute. reflexivity.
    + reflexivity.
Defined.

(** C9, as the code has it. The record that [add_testing_record] appends
    has the status "rejected" when "passed" is [False] and "tested" when
    it is [True]. The call never raises; whenever it returns, one block
    has been appended, which holds the records that were pending before
    the call followed by the new record (the new record alone when
    nothing was pending), and the pending buffer is empty; and it returns
    within [k] iterations of the search as soon as the nonce [k] seals
    that block. *)
Theorem testing_record_sealed (now now_block unit_id : string)
    (test_results : dict) (l : BloodUnitBlockchain) (latest : Block) :
  last_item (chain l) = Some latest ->
  (get "passed" test_results = Some (JBool false) ->
   get "status" (testing_transaction now unit_id test_results)
   = Some (JStr "rejected")) /\
  (get "passed" test_results = Some (JBool true) ->
   get "status" (testing_transaction now unit_id test_results)
   = Some (JStr "tested")) /\
  (forall fuel l',
     add_testing_record fuel now now_block unit_id test_results l = Returns l' ->
     exists b,
       chain l' = chain l ++ [b] /\
       records b = Some (pending_transactions l
                         ++ [testing_transaction now unit_id test_results]) /\
       (pending_transactions l = [] ->
        records b = Some [testing_transaction now unit_id test_results]) /\
       pending_transactions l' = []) /\
  (forall fuel e,
     add_testing_record fuel now now_block unit_id test_results l <> Raises e) /\
  (forall k,
     sealed (difficulty l)
       (at_nonce (Block_init (Z.of_nat (List.length (chain l))) now_block
                    (transactions_data
                       (pending_transactions l
                        ++ [testing_transaction now unit_id test_results]))
                    (hash latest))
                 (Z.of_nat k)) = true ->
     exists l', forall extra,
       add_testing_record (k + extra) now now_block unit_id test_results l
       = Returns l').
Proof.
  intros Hlast. repeat split.
  - intros Hp. rewrite testing_transaction_status. unfold get_default.
    rewrite Hp. reflexivity.
  - intros Hp. rewrite testing_transaction_status. unfold get_default.
    rewrite Hp. reflexivity.
  - intros fuel l' H.
    destruct (add_testing_record_returns _ _ _ _ _ _ _ latest Hlast H)
      as (b & -> & _ & _ & Hd & _).
    exists b. repeat split.
    + apply records_transactions_data. assumption.
    + intros Hnil. rewrite Hnil in Hd. apply records_transactions_data. assumption.
  - intros fuel e. apply add_testing_record_never_raises with (latest := latest).
    assumption.
  - intros k. apply add_testing_record_terminates. assumption.
Qed.

Lemma testing_record_sealed_witness :
  exists latest,
    last_item (chain demo_sealed) = Some latest /\
    get "status"
      (testing_transaction "2024-03-01T11:30:00.250000" demo_unit demo_failed_test)
    = Some (JStr "rejected") /\
    add_testing_record 1 "2024-03-01T11:30:00.250000" "2024-03-01T11:30:00.300078"
      demo_unit demo_failed_test demo_sealed = Returns demo_tested /\
    exists b,
      chain demo_tested = chain demo_sealed ++ [b] /\
      records b = Some [testing_transaction "2024-03-01T11:30:00.250000" demo_unit
                          demo_failed_test] /\
      pending_transactions demo_tested = [].
Proof.
  destruct (last_item (chain demo_sealed)) as [latest|] eqn:Hlast; [|discriminate].
  exists latest. split; [reflexivity|].
  destruct (testing_record_sealed "2024-03-01T11:30:00.250000"
              "2024-03-01T11:30:00.300078" demo_unit demo_failed_test
              demo_sealed latest Hlast) as (Hrej & _ & Hret & _ & _).
  split; [apply Hrej; reflexivity|].
  assert (Hrun : add_testing_record 1 "2024-03-01T11:30:00.250000"
                   "2024-03-01T11:30:00.300078" demo_unit demo_failed_test
                   demo_sealed = Returns demo_tested) by (vm_compute; reflexivity).
  split; [exact Hrun|].
  destruct (Hret _ _ Hrun) as (b & Hc & _ & Hown & Hp).
  exists b. repeat split; try assumption. apply Hown. reflexivity.
Defined.

(** C9, as the claim words it, fails: called while the collection record
    of the unit is still pending, [add_testing_record] seals the test
    record in one block with it. *)
Lemma testing_record_shares_block :
  reachable demo_collected /\
  add_testing_record 0 "2024-03-01T11:30:00.250000" "2024-03-01T11:30:00.300311"
    demo_unit demo_failed_test demo_collected = Returns demo_batched /\
  exists b collection,
    last_item (chain demo_batched) = Some b /\
    get "type" collection = Some (JStr "COLLECTION") /\
    records b = Some [collection;
                      testing_transaction "2024-03-01T11:30:00.250000" demo_unit
                        demo_failed_test].
Proof.
  split; [exact demo_collected_reachable|].
  split; [vm_compute; reflexivity|].
  destruct (last_item (chain demo_batched)) as [b|] eqn:Hb; [|discriminate].
  destruct (pending_transactions demo_collected) as [|collection rest] eqn:Hc;
    [discriminate|].
  exists b, collection. vm_compute in Hb. injection Hb as <-.
  vm_compute in Hc. injection Hc as <- <-.
  repeat split; vm_compute; reflexivity.
Qed.

(** C10. When the results given to [add_testing_record] have no "passed"
    key, the record it builds has the status "tested"; whenever the call
    returns, that record is the last one of the block it has appended; the
    call never raises, and it returns within [k] iterations of the search
    as soon as the nonce [k] seals that block. *)
Theorem missing_outcome_counts_as_passed (now now_block unit_id : string)
    (test_results : dict) (l : BloodUnitBlockchain) (latest : Block) :
  get "passed" test_results = None ->
  last_item (chain l) = Some latest ->
  get "type" (testing_transaction now unit_id test_results) = Some (JStr "TESTING") /\
  get "status" (testing_transaction now unit_id test_results) = Some (JStr "tested") /\
  (forall fuel l',
     add_testing_record fuel now now_block unit_id test_results l = Returns l' ->
     exists b,
       last_item (chain l') = Some b /\
       option_map last_item (records b)
       = Some (Some (testing_transaction now unit_id test_results))) /\
  (forall fuel e,
     add_testing_record fuel now now_block unit_id test_results l <> Raises e) /\
  (forall k,
     sealed (difficulty l)
       (at_nonce (Block_init (Z.of_nat (List.length (chain l))) now_block
                    (transactions_data
                       (pending_transactions l
                        ++ [testing_transaction now unit_id test_results]))
                    (hash latest))
                 (Z.of_nat k)) = true ->
     exists l', forall extra,
       add_testing_record (k + extra) now now_block unit_id test_results l
       = Returns l').
Proof.
  intros Hp Hlast. repeat split.
  - rewrite testing_transaction_status. unfold get_default. rewrite Hp. reflexivity.
  - intros fuel l' H.
    destruct (add_testing_record_returns _ _ _ _ _ _ _ latest Hlast H)
      as (b & -> & _ & _ & Hd & _).
    exists b. split; [apply last_item_snoc|].
    rewrite (records_transactions_data b _ Hd). simpl.
    rewrite last_item_snoc. reflexivity.
  - intros fuel e. apply add_testing_record_never_raises with (latest := latest).
    assumption.
  - intros k. apply add_testing_record_terminates. assumption.
Qed.

Lemma missing_outcome_counts_as_passed_witness :
  exists latest l',
    get "passed" [("technician_id", JStr "LAB-7")] = None /\
    last_item (chain demo_sealed) = Some latest /\
    add_testing_record 1 "2024-03-01T11:30:00.250000" "2024-03-01T11:30:00.300082"
      demo_unit [("technician_id", JStr "LAB-7")] demo_sealed = Returns l' /\
    exists b transaction,
      last_item (chain l') = Some b /\
      option_map last_item (records b) = Some (Some transaction) /\
      get "status" transaction = Some (JStr "tested").
Proof.
  destruct (last_item (chain demo_sealed)) as [latest|] eqn:Hlast; [|discriminate].
  destruct (missing_outcome_counts_as_passed "2024-03-01T11:30:00.250000"
              "2024-03-01T11:30:00.300082" demo_unit
              [("technician_id", JStr "LAB-7")] demo_sealed latest eq_refl Hlast)
    as (_ & Hstatus & Hret & _ & Hterm).
  destruct (Hterm 1) as (l' & Hrun).
  { vm_compute in Hlast. injection Hlast as <-. vm_compute. reflexivity. }
  specialize (Hrun 0). change (1 + 0) with 1 in Hrun.
  destruct (Hret _ _ Hrun) as (b & Hb & Hrec).
  exists latest, l'. repeat split; try assumption.
  exists b, (testing_transaction "2024-03-01T11:30:00.250000" demo_unit
               [("technician_id", JStr "LAB-7")]).
  repeat split; assumption.
Defined.

(** * Further properties *)

(** ** The shape of a digest *)

Lemma string_length_append (a b : string) :
  String.length (a ++ b) = String.length a + String.length b.
Proof. induction a as [|c a IH]; simpl; [|rewrite IH]; reflexivity. Qed.

Lemma all_chars_append (p : ascii -> bool) (a b : string) :
  all_chars p (a ++ b) = (all_chars p a && all_chars p b)%bool.
Proof.
  induction a as [|c a IH]; simpl; [reflexivity|].
  rewrite IH, andb_assoc. reflexivity.
Qed.

Lemma hex_digit_lower (d : N) :
  (d < 16)%N -> is_hex_lower (SHA256.hex_digit d) = true.
Proof.
  intros Hd.
  assert (Hall : forallb (fun n => is_hex_lower (SHA256.hex_digit (N.of_nat n)))
                         (seq 0 16) = true) by (vm_compute; reflexivity).
  rewrite forallb_forall in Hall.
  rewrite <- (N2Nat.id d). apply Hall. apply in_seq. lia.
Qed.

Lemma hex_word_shape (x : N) :
  String.length (SHA256.hex_word x) = 8 /\
  all_chars is_hex_lower (SHA256.hex_word x) = true.
Proof.
  unfold SHA256.hex_word. split; [reflexivity|].
  cbn [seq rev app map string_of_list_ascii all_chars].
  rewrite !hex_digit_lower; [reflexivity|..];
    change 15%N with (N.ones 4); rewrite N.land_ones;
    apply N.mod_lt; discriminate.
Qed.

#[local] Transparent SHA256.hexdigest.

Lemma hexdigest_shape (bytes : string) :
  String.length (SHA256.hexdigest bytes) = 64 /\
  all_chars is_hex_lower (SHA256.hexdigest bytes) = true.
Proof.
  unfold SHA256.hexdigest. cbv zeta.
  generalize (SHA256.digest (map N_of_ascii (list_ascii_of_string bytes))).
  intros s. rewrite !string_length_append, !all_chars_append.
  destruct (hex_word_shape (SHA256.ra s)) as [-> ->].
  destruct (hex_word_shape (SHA256.rb s)) as [-> ->].
  destruct (hex_word_shape (SHA256.rc s)) as [-> ->].
  destruct (hex_word_shape (SHA256.rd s)) as [-> ->].
  destruct (hex_word_shape (SHA256.re s)) as [-> ->].
  destruct (hex_word_shape (SHA256.rf s)) as [-> ->].
  destruct (hex_word_shape (SHA256.rg s)) as [-> ->].
  destruct (hex_word_shape (SHA256.rh s)) as [-> ->].
  split; reflexivity.
Qed.

#[local] Opaque SHA256.hexdigest.

(** X1. Whatever the block, [calculate_hash] returns 64 characters, each
    a digit or a letter from a to f. *)
Theorem calculate_hash_is_hex64 (b : Block) :
  String.length (calculate_hash b) = 64 /\
  all_chars is_hex_lower (calculate_hash b) = true.
Proof. unfold calculate_hash, sha256_hexdigest. apply hexdigest_shape. Qed.

(** ** More on the proof-of-work search *)

Lemma zeros_length (d : nat) : String.length (zeros d) = d.
Proof. induction d as [|d IH]; simpl; [|rewrite IH]; reflexivity. Qed.

Lemma slice_to_length (n : nat) (s : string) :
  String.length (slice_to n s) <= String.length s.
Proof.
  unfold slice_to. revert n. induction s as [|c s IH]; intros [|n]; simpl; try lia.
  specialize (IH n). lia.
Qed.

Lemma slice_to_short (n : nat) (s : string) :
  n <= String.length s -> String.length (slice_to n s) = n.
Proof.
  unfold slice_to. revert n. induction s as [|c s IH]; intros [|n] H; simpl in *;
    try lia. rewrite IH by lia. reflexivity.
Qed.

(** A digest never starts with more than 64 zeros. *)
Lemma sealed_beyond_digest (d : nat) (b : Block) :
  64 < d -> hash b = calculate_hash b -> sealed d b = false.
Proof.
  intros Hd Hb. unfold sealed. apply String.eqb_neq. intros E.
  apply (f_equal String.length) in E. rewrite zeros_length in E.
  pose proof (slice_to_length d (hash b)) as Hle.
  rewrite Hb in Hle at 2. unfold calculate_hash, sha256_hexdigest in Hle.
  rewrite (proj1 (hexdigest_shape _)) in Hle. lia.
Qed.

Lemma mine_block_searches_in_order (fuel d : nat) :
  forall b b',
    hash b = calculate_hash b ->
    mine_block fuel d b = Returns b' ->
    exists k,
      k <= fuel /\
      b' = at_nonce b (nonce b + Z.of_nat k) /\
      sealed d b' = true /\
      forall j, j < k -> sealed d (at_nonce b (nonce b + Z.of_nat j)) = false.
Proof.
  induction fuel as [|fuel IH]; intros b b' Hb H; rewrite mine_block_unfold in H;
    destruct (sealed d b) eqn:Hs; try discriminate.
  - injection H as <-. exists 0. repeat split; try lia; try assumption.
    replace (nonce b + Z.of_nat 0)%Z with (nonce b) by lia.
    symmetry. apply at_nonce_self, Hb.
  - injection H as <-. exists 0. repeat split; try lia; try assumption.
    replace (nonce b + Z.of_nat 0)%Z with (nonce b) by lia.
    symmetry. apply at_nonce_self, Hb.
  - apply IH in H; [|apply at_nonce_hash].
    destruct H as (k & Hk & -> & Hsealed & Hmin).
    change (nonce (at_nonce b (nonce b + 1))) with (nonce b + 1)%Z in *.
    exists (S k). split; [lia|]. split; [|split].
    + rewrite at_nonce_at_nonce. f_equal. lia.
    + assumption.
    + intros [|j] Hj.
      * replace (nonce b + Z.of_nat 0)%Z with (nonce b) by lia.
        rewrite at_nonce_self by assumption. assumption.
      * specialize (Hmin j ltac:(lia)). rewrite at_nonce_at_nonce in Hmin.
        replace (nonce b + Z.of_nat (S j))%Z with (nonce b + 1 + Z.of_nat j)%Z by lia.
        assumption.
Qed.

Lemma Block_init_hash (i : Z) (t : string) (d : dict) (p : string) :
  hash (Block_init i t d p) = calculate_hash (Block_init i t d p).
Proof. reflexivity. Qed.

(** X2. [mine_block] tries the nonces one after the other: started on
    a block whose hash is the hash of its content, a search that returns
    has only moved the nonce, by some [k] that the fuel covers, to the
    first nonce from the starting one whose hash begins with
    [difficulty] zeros. *)
Theorem mine_block_first_sealing_nonce (fuel d : nat) (b b' : Block) :
  hash b = calculate_hash b ->
  mine_block fuel d b = Returns b' ->
  exists k,
    k <= fuel /\
    b' = at_nonce b (nonce b + Z.of_nat k) /\
    nonce b' = (nonce b + Z.of_nat k)%Z /\
    slice_to d (hash b') = zeros d /\
    forall j, j < k ->
      slice_to d (hash (at_nonce b (nonce b + Z.of_nat j))) <> zeros d.
Proof.
  intros Hb H.
  destruct (mine_block_searches_in_order fuel d b b' Hb H)
    as (k & Hk & -> & Hs & Hmin).
  exists k. repeat split; try assumption.
  - apply String.eqb_eq. exact Hs.
  - intros j Hj. apply String.eqb_neq. exact (Hmin j Hj).
Qed.

Lemma mine_block_first_sealing_nonce_witness :
  exists b',
    mine_block 1 2 (Block_init 0 "2024-03-01T09:00:00.100208" genesis_data "0")
      = Returns b' /\
    nonce b' = 1%Z /\
    slice_to 2 (hash b') = "00" /\
    slice_to 2 (hash (Block_init 0 "2024-03-01T09:00:00.100208" genesis_data "0"))
      <> "00".
Proof.
  destruct (mine_block 1 2
              (Block_init 0 "2024-03-01T09:00:00.100208" genesis_data "0"))
    as [b'| |] eqn:Hrun; try (vm_compute in Hrun; discriminate Hrun).
  destruct (mine_block_first_sealing_nonce 1 2 _ b'
              (Block_init_hash 0 "2024-03-01T09:00:00.100208" genesis_data "0")
              Hrun)
    as (k & Hk & Hb' & Hn & Hs & Hmin).
  assert (Hone : nonce b' = 1%Z).
  { vm_compute in Hrun. injection Hrun as <-. reflexivity. }
  exists b'. split; [reflexivity|]. split; [exact Hone|]. split; [exact Hs|].
  assert (k = 1) as -> by (rewrite Hone in Hn; simpl in Hn; lia).
  specialize (Hmin 0 ltac:(lia)).
  change (nonce (Block_init 0 "2024-03-01T09:00:00.100208" genesis_data "0")
          + Z.of_nat 0)%Z with 0%Z in Hmin.
  exact Hmin.
Defined.

(** X3. A digest has 64 characters, so with a difficulty above 64 the
    loop of [mine_block] never ends: on a block whose hash is the hash of
    its content, the search is still running whatever the fuel. *)
Theorem mine_block_never_ends_above_64 (fuel d : nat) (b : Block) :
  64 < d ->
  hash b = calculate_hash b ->
  mine_block fuel d b = OutOfFuel.
Proof.
  intros Hd. revert b. induction fuel as [|fuel IH]; intros b Hb;
    rewrite mine_block_unfold, (sealed_beyond_digest d b Hd Hb); [reflexivity|].
  apply IH. apply at_nonce_hash.
Qed.

Lemma mine_block_never_ends_above_64_witness :
  64 < 65 /\
  mine_block 1000 65 (Block_init 0 "2024-03-01T09:00:00.100208" genesis_data "0")
  = OutOfFuel.
Proof.
  split; [lia|].
  apply (mine_block_never_ends_above_64 1000 65); [lia | apply Block_init_hash].
Defined.

(** ** The text depends on the value alone *)

Lemma insert_item_head {V : Type} (kv : string * V) (l : list (string * V)) :
  HdRel (fun a b => String.leb (fst a) (fst b) = true) kv l ->
  Json.insert_item kv l = kv :: l.
Proof.
  intros H. destruct l as [|e l]; [reflexivity|].
  inversion H as [|? ? Hle]; subst. simpl. rewrite Hle. reflexivity.
Qed.

Lemma insert_item_sorted {V : Type} (kv : string * V) (l : list (string * V)) :
  Sorted (fun a b => String.leb (fst a) (fst b) = true) l ->
  Sorted (fun a b => String.leb (fst a) (fst b) = true) (Json.insert_item kv l).
Proof.
  induction l as [|e l IH]; intros Hs; simpl.
  - repeat constructor.
  - destruct (String.leb (fst kv) (fst e)) eqn:Hle.
    + constructor; [assumption|]. constructor. assumption.
    + inversion Hs as [|? ? Hs' Hhd]; subst. constructor; [apply IH, Hs'|].
      assert (Hek : String.leb (fst e) (fst kv) = true).
      { destruct (String.leb_total (fst e) (fst kv)) as [H|H]; [assumption|].
        congruence. }
      destruct l as [|e' l]; simpl.
      * constructor. assumption.
      * destruct (String.leb (fst kv) (fst e')); constructor; [assumption|].
        inversion Hhd; assumption.
Qed.

Lemma sort_items_sorted {V : Type} (l : list (string * V)) :
  Sorted (fun a b => String.leb (fst a) (fst b) = true) (Json.sort_items l).
Proof.
  induction l as [|kv l IH]; simpl; [constructor|]. apply insert_item_sorted, IH.
Qed.

Lemma sort_items_of_sorted {V : Type} (l : list (string * V)) :
  Sorted (fun a b => String.leb (fst a) (fst b) = true) l ->
  Json.sort_items l = l.
Proof.
  induction l as [|kv l IH]; intros Hs; [reflexivity|].
  inversion Hs as [|? ? Hs' Hhd]; subst. simpl. rewrite (IH Hs').
  apply insert_item_head, Hhd.
Qed.

(** Sorting twice is sorting once. *)
Lemma sort_items_idempotent {V : Type} (l : list (string * V)) :
  Json.sort_items (Json.sort_items l) = Json.sort_items l.
Proof. apply sort_items_of_sorted, sort_items_sorted. Qed.

(** The text of a value is the text of its canonical form. *)
Lemma dumps_canon (v : json) : Json.dumps (Json.canon v) = Json.dumps v.
Proof.
  induction v as [|b|z|s|l IH|d IH] using json_induction; try reflexivity.
  - simpl. rewrite map_map. f_equal. f_equal. f_equal.
    apply map_ext_in. intros x Hx. rewrite Forall_forall in IH. apply IH, Hx.
  - rewrite canon_dict, !dumps_dict.
    rewrite (sort_items_map Json.canon (Json.sort_items d)), sort_items_idempotent.
    rewrite map_map. f_equal. f_equal. f_equal.
    apply map_ext_in. intros kv Hkv. simpl.
    rewrite Forall_forall in IH. rewrite (IH kv (sort_items_In kv d Hkv)).
    reflexivity.
Qed.

Lemma dumps_eq_iff_canon (v v' : json) :
  Json.dumps v = Json.dumps v' <-> Json.canon v = Json.canon v'.
Proof.
  split; [apply dumps_injective|].
  intros H. rewrite <- (dumps_canon v), <- (dumps_canon v'), H. reflexivity.
Qed.

(** X4. The text that [calculate_hash] digests is the same for two
    blocks exactly when they have the same index, timestamp,
    [previous_hash] and nonce and the same data up to the order of the
    keys of its dicts; two such blocks have the same hash. *)
Theorem block_string_characterised (b b' : Block) :
  (block_string b = block_string b' <-> content b = content b') /\
  (content b = content b' -> calculate_hash b = calculate_hash b').
Proof.
  assert (Hback : content b = content b' -> block_string b = block_string b').
  { unfold content. intros [= Hi Ht Hd Hp Hn]. unfold block_string.
    apply dumps_eq_iff_canon. rewrite !canon_dict. simpl.
    simpl in Hd. rewrite Hi, Ht, Hd, Hp, Hn. reflexivity. }
  split; [split|].
  - intros H. apply block_string_injective in H. unfold content.
    destruct H as (-> & -> & -> & -> & ->). reflexivity.
  - exact Hback.
  - intros H. unfold calculate_hash. rewrite (Hback H). reflexivity.
Qed.

(** ** The order of the keys is irrelevant *)

Lemma string_leb_trans (a : string) :
  forall b c, String.leb a b = true -> String.leb b c = true ->
              String.leb a c = true.
Proof.
  induction a as [|x a IH]; intros [|y b] [|z c] H1 H2; try reflexivity;
    try discriminate.
  specialize (IH b c). unfold String.leb in *. simpl in *.
  unfold Ascii.compare in *.
  destruct (N.compare_spec (N_of_ascii x) (N_of_ascii y));
    destruct (N.compare_spec (N_of_ascii y) (N_of_ascii z));
    destruct (N.compare_spec (N_of_ascii x) (N_of_ascii z));
    try discriminate; try reflexivity; try lia; auto.
Qed.

(** Two entries with different keys can be inserted in either order. *)
Lemma insert_item_comm {V : Type} (a b : string * V) (l : list (string * V)) :
  fst a <> fst b ->
  Json.insert_item a (Json.insert_item b l)
  = Json.insert_item b (Json.insert_item a l).
Proof.
  intros Hne. induction l as [|e l IH]; simpl.
  - destruct (String.leb (fst a) (fst b)) eqn:Hab;
      destruct (String.leb (fst b) (fst a)) eqn:Hba; try reflexivity.
    + destruct (Hne (String.leb_antisym _ _ Hab Hba)).
    + destruct (String.leb_total (fst a) (fst b)); congruence.
  - destruct (String.leb (fst b) (fst e)) eqn:Hbe;
      destruct (String.leb (fst a) (fst e)) eqn:Hae; simpl;
      rewrite ?Hbe, ?Hae.
    + destruct (String.leb (fst a) (fst b)) eqn:Hab;
        destruct (String.leb (fst b) (fst a)) eqn:Hba; simpl;
        rewrite ?Hae, ?Hbe; try reflexivity.
      * destruct (Hne (String.leb_antisym _ _ Hab Hba)).
      * destruct (String.leb_total (fst a) (fst b)); congruence.
    + destruct (String.leb (fst a) (fst b)) eqn:Hab.
      * rewrite (string_leb_trans _ _ _ Hab Hbe) in Hae. discriminate.
      * simpl. rewrite ?Hae, ?Hbe. reflexivity.
    + destruct (String.leb (fst b) (fst a)) eqn:Hba.
      * rewrite (string_leb_trans _ _ _ Hba Hae) in Hbe. discriminate.
      * simpl. rewrite ?Hbe, ?Hae. reflexivity.
    + rewrite IH. reflexivity.
Qed.

Lemma sort_items_permutation {V : Type} (l l' : list (string * V)) :
  Permutation l l' -> NoDup (map fst l) ->
  Json.sort_items l = Json.sort_items l'.
Proof.
  induction 1 as [|x l l' Hp IH|x y l|l l' l'' Hp1 IH1 Hp2 IH2]; intros Hnd.
  - reflexivity.
  - simpl. inversion Hnd; subst. rewrite IH by assumption. reflexivity.
  - simpl. apply insert_item_comm.
    inversion Hnd as [|? ? Hnot _]; subst. intros E. apply Hnot. left. symmetry. exact E.
  - rewrite IH1 by assumption. apply IH2.
    apply (Permutation_NoDup (l := map fst l)); [|assumption].
    apply Permutation_map, Hp1.
Qed.

(** X5. [sort_keys=True] makes the hash independent of the order in which
    the keys of the data were inserted: a block whose data are the same
    items in another order has the same text to digest, hence the same
    hash. *)
Theorem hash_ignores_key_order (b : Block) (d' : dict) :
  NoDup (map fst (data b)) ->
  Permutation (data b) d' ->
  block_string (set_data b d') = block_string b /\
  calculate_hash (set_data b d') = calculate_hash b.
Proof.
  intros Hnd Hp.
  assert (H : block_string (set_data b d') = block_string b).
  { unfold block_string. apply dumps_eq_iff_canon. rewrite !canon_dict. simpl.
    rewrite !(sort_items_map Json.canon).
    rewrite (sort_items_permutation _ _ Hp Hnd). reflexivity. }
  split; [exact H|]. unfold calculate_hash. rewrite H. reflexivity.
Qed.

Lemma hash_ignores_key_order_witness :
  NoDup (map fst genesis_data) /\
  Permutation genesis_data (rev genesis_data) /\
  calculate_hash
    (Block_init 0 "2024-03-01T09:00:00.100208" (rev genesis_data) "0")
  = calculate_hash
      (Block_init 0 "2024-03-01T09:00:00.100208" genesis_data "0").
Proof.
  assert (Hnd : NoDup (map fst genesis_data)).
  { repeat constructor; simpl; intuition discriminate. }
  assert (Hp : Permutation genesis_data (rev genesis_data))
    by apply Permutation_rev.
  split; [exact Hnd|]. split; [exact Hp|].
  exact (proj2 (hash_ignores_key_order
                  (Block_init 0 "2024-03-01T09:00:00.100208" genesis_data "0")
                  (rev genesis_data) Hnd Hp)).
Defined.

(** ** The text is printable ASCII *)

Lemma escape_char_printable (c : ascii) :
  all_chars is_printable (Json.escape_char c) = true.
Proof. destruct c as [[] [] [] [] [] [] [] []]; vm_compute; reflexivity. Qed.

Lemma escape_printable (s : string) :
  all_chars is_printable (Json.escape s) = true.
Proof.
  induction s as [|c s IH]; [reflexivity|].
  change (Json.escape (String c s))
    with (Json.escape_char c ++ Json.escape s)%string.
  rewrite all_chars_append, escape_char_printable, IH. reflexivity.
Qed.

Lemma quote_printable (s : string) :
  all_chars is_printable (Json.quote s) = true.
Proof.
  unfold Json.quote. rewrite !all_chars_append, escape_printable. reflexivity.
Qed.

Lemma digits_printable (s : string) :
  Json.all_digits s = true -> all_chars is_printable s = true.
Proof.
  induction s as [|c s IH]; [reflexivity|]. simpl.
  intros H. apply andb_prop in H. destruct H as [Hc Hs].
  rewrite (IH Hs), andb_true_r.
  unfold Json.is_digit in Hc. unfold is_printable.
  apply andb_prop in Hc. destruct Hc as [H1 H2].
  apply N.leb_le in H1, H2. apply andb_true_intro.
  split; apply N.leb_le; lia.
Qed.

Lemma repr_int_printable (z : Z) :
  all_chars is_printable (Json.repr_int z) = true.
Proof.
  destruct (repr_int_shape z) as [[_ ->]|[(p & _ & ->)|(p & _ & ->)]].
  - reflexivity.
  - apply digits_printable, string_of_uint_digits.
  - simpl. apply digits_printable, string_of_uint_digits.
Qed.

Lemma join_printable (sep : string) (items : list string) :
  all_chars is_printable sep = true ->
  Forall (fun s => all_chars is_printable s = true) items ->
  all_chars is_printable (Json.join sep items) = true.
Proof.
  intros Hsep HF. induction HF as [|x t Hx _ IH]; [reflexivity|].
  destruct t as [|y t]; [exact Hx|].
  change (Json.join sep (x :: y :: t))
    with (x ++ sep ++ Json.join sep (y :: t))%string.
  rewrite !all_chars_append, Hx, Hsep, IH. reflexivity.
Qed.

Lemma dumps_printable (v : json) :
  all_chars is_printable (Json.dumps v) = true.
Proof.
  induction v as [|b|z|s|l IH|d IH] using json_induction.
  - reflexivity.
  - destruct b; reflexivity.
  - apply repr_int_printable.
  - apply quote_printable.
  - simpl. rewrite all_chars_append. rewrite join_printable; [reflexivity..|].
    apply Forall_map. exact IH.
  - rewrite dumps_dict. simpl. rewrite all_chars_append.
    rewrite join_printable; [reflexivity..|].
    apply Forall_map, Forall_forall. intros kv Hkv.
    rewrite Forall_forall in IH. simpl.
    rewrite !all_chars_append, escape_printable. simpl.
    apply (IH kv (sort_items_In kv d Hkv)).
Qed.

Lemma encode_printable (s : string) :
  all_chars is_printable s = true -> encode s = s.
Proof.
  induction s as [|c s IH]; [reflexivity|]. simpl.
  intros H. apply andb_prop in H. destruct H as [Hc Hs].
  unfold is_printable in Hc. apply andb_prop in Hc. destruct Hc as [_ H2].
  apply N.leb_le in H2.
  assert (Hlt : (N_of_ascii c <? 128)%N = true) by (apply N.ltb_lt; lia).
  rewrite Hlt, (IH Hs). reflexivity.
Qed.

(** X6. Whatever the fields of the block hold, the text that
    [calculate_hash] digests has only printable ASCII characters, so that
    [.encode()] leaves it as it is: the bytes digested are the characters
    of the text. *)
Theorem block_string_is_ascii (b : Block) :
  all_chars is_printable (block_string b) = true /\
  encode (block_string b) = block_string b /\
  calculate_hash b = SHA256.hexdigest (block_string b).
Proof.
  assert (H : all_chars is_printable (block_string b) = true)
    by apply dumps_printable.
  split; [exact H|]. split; [apply encode_printable, H|].
  unfold calculate_hash, sha256_hexdigest. rewrite (encode_printable _ H).
  reflexivity.
Qed.

(** ** The chain only grows *)

(** The two ways in which [mine_pending_transactions] returns. *)
Lemma mine_pending_cases (fuel : nat) (now : string)
    (l l' : BloodUnitBlockchain) (r : option Block) :
  mine_pending_transactions fuel now l = Returns (l', r) ->
  (pending_transactions l = [] /\ l' = l /\ r = None) \/
  (exists latest b,
     pending_transactions l <> [] /\
     last_item (chain l) = Some latest /\
     r = Some b /\
     l' = mkChain (chain l ++ [b]) [] (difficulty l) /\
     index b = Z.of_nat (List.length (chain l)) /\
     timestamp b = now /\
     data b = transactions_data (pending_transactions l) /\
     previous_hash b = hash latest /\
     sealed (difficulty l) b = true /\
     hash b = calculate_hash b).
Proof.
  intros H. destruct (pending_transactions l) as [|tx txs] eqn:Ep.
  - left. rewrite mine_pending_empty in H by assumption.
    injection H as <- <-. auto.
  - right. destruct (last_item (chain l)) as [latest|] eqn:Hlast.
    + assert (Hp : pending_transactions l <> []) by (rewrite Ep; discriminate).
      destruct (mine_pending_returns fuel now l l' r latest Hp Hlast H)
        as (b & Hr & Hl' & Hrest).
      exists latest, b. rewrite <- Ep. tauto.
    + unfold mine_pending_transactions, get_latest_block in H.
      rewrite Ep, Hlast in H. discriminate.
Qed.

Lemma step_appends (l l' : BloodUnitBlockchain) :
  step l l' ->
  difficulty l' = difficulty l /\
  (chain l' = chain l \/ exists b, chain l' = chain l ++ [b]).
Proof.
  assert (Hmine : forall fuel now l0 l1 r,
             mine_pending_transactions fuel now l0 = Returns (l1, r) ->
             difficulty l1 = difficulty l0 /\
             (chain l1 = chain l0 \/ exists b, chain l1 = chain l0 ++ [b])).
  { intros fuel now l0 l1 r H. apply mine_pending_cases in H.
    destruct H as [(_ & -> & _)|(latest & b & _ & _ & _ & -> & _)].
    - auto.
    - split; [reflexivity|]. right. exists b. reflexivity. }
  intros Hs.
  destruct Hs as [tx l | fuel now l l' r H | u n d b c lo l
                  | fuel now nb u tr l l' H
                  | fuel now nb u sl te ex l l' H
                  | fuel now nb u fl tl tb l l' H
                  | fuel now nb u ho pa doc l l' H].
  - auto.
  - eapply Hmine; eassumption.
  - auto.
  - destruct (add_record_is_append_then_seal l l') as (f & n & tx & r & E).
    { left. eauto 10. }
    apply Hmine in E. exact E.
  - destruct (add_record_is_append_then_seal l l') as (f & n & tx & r & E).
    { right; left. eauto 10. }
    apply Hmine in E. exact E.
  - destruct (add_record_is_append_then_seal l l') as (f & n & tx & r & E).
    { right; right; left. eauto 10. }
    apply Hmine in E. exact E.
  - destruct (add_record_is_append_then_seal l l') as (f & n & tx & r & E).
    { right; right; right. eauto 10. }
    apply Hmine in E. exact E.
Qed.

Lemma evolves_appends (l l' : BloodUnitBlockchain) :
  evolves l l' ->
  difficulty l' = difficulty l /\
  exists suffix, chain l' = chain l ++ suffix.
Proof.
  induction 1 as [l|l l' l'' _ [IHd [suffix IHc]] Hs].
  - split; [reflexivity|]. exists []. rewrite app_nil_r. reflexivity.
  - apply step_appends in Hs. destruct Hs as [Hd [Hc|[b Hc]]].
    + split; [congruence|]. exists suffix. congruence.
    + split; [congruence|]. exists (suffix ++ [b]).
      rewrite Hc, IHc, app_assoc. reflexivity.
Qed.

(** X7. No method removes, moves or rewrites a block: after any number
    of calls of the mutating methods, the chain is the former chain
    followed by the blocks sealed since, every block is found at the index
    it had, and the difficulty is the same. *)
Theorem chain_is_append_only (l l' : BloodUnitBlockchain) :
  evolves l l' ->
  difficulty l' = difficulty l /\
  (exists suffix, chain l' = chain l ++ suffix) /\
  (forall i b, nth_error (chain l) i = Some b -> nth_error (chain l') i = Some b).
Proof.
  intros H. destruct (evolves_appends l l' H) as [Hd [suffix Hc]].
  split; [exact Hd|]. split; [exists suffix; exact Hc|].
  intros i b Hb. rewrite Hc. rewrite nth_error_app1; [exact Hb|].
  apply nth_error_Some. congruence.
Qed.

Lemma chain_is_append_only_witness :
  evolves demo_created demo_tested /\
  exists genesis,
    nth_error (chain demo_created) 0 = Some genesis /\
    nth_error (chain demo_tested) 0 = Some genesis.
Proof.
  assert (He : evolves demo_created demo_tested).
  { apply evolves_step with (l' := demo_sealed).
    - apply evolves_step with (l' := demo_collected).
      + apply evolves_step with (l' := demo_created); [apply evolves_refl|].
        assert (E : demo_collected =
                    snd (create_blood_unit "3f2a9c1e7b4d4e0f8a6b5c4d3e2f1a0b"
                           "2024-03-01T09:15:00.123456" "D1" "O+" "2024-03-01"
                           "Pune" demo_created)) by (vm_compute; reflexivity).
        rewrite E. apply step_create_unit.
      + apply (step_mine 1 "2024-03-01T09:15:00.700060" demo_collected demo_sealed
                 (last_item (chain demo_sealed))).
        vm_compute. reflexivity.
    - apply (step_testing 1 "2024-03-01T11:30:00.250000"
               "2024-03-01T11:30:00.300078" demo_unit demo_failed_test).
      vm_compute. reflexivity. }
  split; [exact He|].
  destruct (chain_is_append_only demo_created demo_tested He) as (_ & _ & Hkeep).
  destruct (nth_error (chain demo_created) 0) as [genesis|] eqn:Hg; [|discriminate].
  exists genesis. split; [reflexivity|]. apply Hkeep. exact Hg.
Defined.

(** X8. Whenever [mine_pending_transactions] returns, the pending
    buffer is empty, and calling it again returns [None] and changes
    nothing. *)
Theorem seal_twice_is_seal_once (fuel : nat) (now : string)
    (l l' : BloodUnitBlockchain) (r : option Block) :
  mine_pending_transactions fuel now l = Returns (l', r) ->
  pending_transactions l' = [] /\
  forall fuel' now',
    mine_pending_transactions fuel' now' l' = Returns (l', None).
Proof.
  intros H.
  assert (Hp : pending_transactions l' = []).
  { apply mine_pending_cases in H.
    destruct H as [(Hp & -> & _)|(latest & b & _ & _ & _ & -> & _)];
      [exact Hp | reflexivity]. }
  split; [exact Hp|]. intros fuel' now'. apply mine_pending_empty, Hp.
Qed.

Lemma seal_twice_is_seal_once_witness :
  mine_pending_transactions 1 "2024-03-01T09:15:00.700060" demo_collected
    = Returns (demo_sealed, last_item (chain demo_sealed)) /\
  pending_transactions demo_collected <> [] /\
  mine_pending_transactions 0 "2024-03-01T09:15:01" demo_sealed
    = Returns (demo_sealed, None).
Proof.
  assert (Hrun : mine_pending_transactions 1 "2024-03-01T09:15:00.700060"
                   demo_collected
                 = Returns (demo_sealed, last_item (chain demo_sealed)))
    by (vm_compute; reflexivity).
  split; [exact Hrun|]. split; [discriminate|].
  apply (seal_twice_is_seal_once _ _ _ _ _ Hrun).
Defined.

(** ** The shape of a reachable chain *)

Lemma reachable_genesis_and_batches (l : BloodUnitBlockchain) :
  reachable l ->
  exists genesis rest,
    chain l = genesis :: rest /\
    index genesis = 0%Z /\
    previous_hash genesis = "0" /\
    data genesis = genesis_data /\
    Forall (fun b => exists transaction others,
                       data b = transactions_data (transaction :: others)) rest.
Proof.
  intros Hr. pattern l. revert l Hr. apply reachable_primitive_ind.
  - intros fuel now l0. unfold BloodUnitBlockchain_init, create_genesis_block.
    simpl. destruct (mine_block fuel 2 _) as [g| |] eqn:Hmine; try discriminate.
    simpl. intros [= <-]. apply mine_block_returns in Hmine.
    destruct Hmine as (_ & _ & Hi & _ & Hd & Hp).
    exists g, []. simpl. repeat split; try assumption. constructor.
  - intros tx l0 H. exact H.
  - intros fuel now l0 l' r (g & rest & Hc & Hi & Hp & Hd & HF) H.
    apply mine_pending_cases in H.
    destruct H as [(_ & -> & _)|(latest & b & Hpend & _ & _ & -> & _ & _ & Hdata & _)].
    + exists g, rest. auto.
    + exists g, (rest ++ [b]). simpl. rewrite Hc. repeat split; try assumption.
      apply Forall_app. split; [assumption|]. constructor; [|constructor].
      destruct (pending_transactions l0) as [|tx txs]; [contradiction|].
      exists tx, txs. exact Hdata.
Qed.

(** X9. In every ledger that the class can produce, the difficulty is
    2; the first block is the genesis block, with index 0, the previous
    hash "0" and the genesis message as data; every later block holds at
    least one record; and every block has its position as index and a
    hash of 64 hexadecimal digits that starts with "00". *)
Theorem reachable_chain_shape (l : BloodUnitBlockchain) :
  reachable l ->
  difficulty l = 2 /\
  (exists genesis rest,
     chain l = genesis :: rest /\
     index genesis = 0%Z /\
     previous_hash genesis = "0" /\
     data genesis = genesis_data /\
     Forall (fun b => exists transaction others,
                        records b = Some (transaction :: others)) rest) /\
  (forall i b, nth_error (chain l) i = Some b ->
     index b = Z.of_nat i /\
     String.length (hash b) = 64 /\
     all_chars is_hex_lower (hash b) = true /\
     slice_to 2 (hash b) = "00").
Proof.
  intros Hr. pose proof (reachable_inv l Hr) as Hinv.
  split; [exact (inv_difficulty l Hinv)|]. split.
  - destruct (reachable_genesis_and_batches l Hr)
      as (g & rest & Hc & Hi & Hp & Hd & HF).
    exists g, rest. repeat split; try assumption.
    eapply Forall_impl; [|exact HF].
    intros b (tx & txs & Hb). exists tx, txs.
    apply records_transactions_data, Hb.
  - intros i b Hb. pose proof (nth_error_In _ _ Hb) as Hin.
    split; [exact (inv_index l Hinv i b Hb)|].
    pose proof (inv_hash l Hinv b Hin) as Hh.
    rewrite Hh. unfold calculate_hash at 1 2, sha256_hexdigest.
    destruct (hexdigest_shape (encode (block_string b))) as [H64 Hhex].
    split; [exact H64|]. split; [exact Hhex|].
    pose proof (inv_sealed l Hinv b Hin) as Hs.
    rewrite (inv_difficulty l Hinv) in Hs. apply String.eqb_eq in Hs.
    rewrite Hh in Hs. exact Hs.
Qed.

Lemma reachable_chain_shape_witness :
  reachable demo_tested /\
  difficulty demo_tested = 2 /\
  List.length (chain demo_tested) = 3 /\
  forall i b, nth_error (chain demo_tested) i = Some b ->
    index b = Z.of_nat i /\ slice_to 2 (hash b) = "00".
Proof.
  destruct (reachable_chain_shape demo_tested demo_tested_reachable)
    as (Hd & _ & Hall).
  split; [exact demo_tested_reachable|]. split; [exact Hd|].
  split; [reflexivity|].
  intros i b Hb. destruct (Hall i b Hb) as (Hi & _ & _ & Hs). auto.
Defined.

(** ** Statistics *)

Lemma block_count_typed (b : Block) :
  block_typed b = true ->
  py_len (get_default "transactions" (JList []) (data b))
  = Returns (List.length (records_or_nil b)).
Proof.
  unfold block_typed, records_or_nil, records, block_items, get_default.
  destruct (get "transactions" (data b)) as [v|]; [|reflexivity].
  destruct v as [|x|z|s|items|d]; simpl; try discriminate.
  - destruct s as [|c s]; [reflexivity|discriminate].
  - destruct (all_dicts items) as [ds|] eqn:E; [|discriminate].
    intros _. rewrite (all_dicts_some items ds E), length_map. reflexivity.
  - destruct d as [|kv d]; [reflexivity|discriminate].
Qed.

Lemma count_loop_typed (bs : list Block) :
  forallb block_typed bs = true ->
  forall total,
    for_each bs
      (fun total block =>
         n <- py_len (get_default "transactions" (JList []) (data block)) ;;
         Returns (total + n))
      total
    = Returns (total + List.length (flat_map records_or_nil bs)).
Proof.
  induction bs as [|b bs IH]; intros Ht total; simpl.
  - rewrite Nat.add_0_r. reflexivity.
  - apply andb_prop in Ht. destruct Ht as [Hb Hbs].
    rewrite (block_count_typed b Hb). simpl. rewrite (IH Hbs).
    rewrite length_app, Nat.add_assoc. reflexivity.
Qed.

Lemma get_chain_info_typed (l : BloodUnitBlockchain) (latest : Block) :
  chain_typed l = true ->
  last_item (chain l) = Some latest ->
  get_chain_info l
  = Returns [ ("total_blocks", JInt (Z.of_nat (List.length (chain l))));
              ("total_transactions", JInt (Z.of_nat (total_records l)));
              ("chain_valid", JBool (is_chain_valid l));
              ("latest_block_hash", JStr (hash latest));
              ("difficulty", JInt (Z.of_nat (difficulty l))) ].
Proof.
  intros Ht Hlast. unfold get_chain_info, get_latest_block.
  rewrite (count_loop_typed (chain l) Ht 0). simpl bind.
  rewrite Hlast. reflexivity.
Qed.

(** X10. On every ledger that the class can produce, [get_chain_info]
    returns without raising: the number of blocks, the number of records
    of all blocks, [True] for the validity, the hash of the last block
    and the difficulty 2. *)
Theorem get_chain_info_reachable (l : BloodUnitBlockchain) :
  reachable l ->
  exists latest,
    last_item (chain l) = Some latest /\
    get_chain_info l
    = Returns [ ("total_blocks", JInt (Z.of_nat (List.length (chain l))));
                ("total_transactions",
                 JInt (Z.of_nat (List.length (flat_map records_or_nil (chain l)))));
                ("chain_valid", JBool true);
                ("latest_block_hash", JStr (hash latest));
                ("difficulty", JInt 2) ].
Proof.
  intros Hr. pose proof (reachable_inv l Hr) as Hinv.
  destruct (last_item (chain l)) as [latest|] eqn:Hlast.
  - exists latest. split; [reflexivity|].
    rewrite (get_chain_info_typed l latest (inv_typed l Hinv) Hlast).
    rewrite (ledger_inv_valid l Hinv), (inv_difficulty l Hinv). reflexivity.
  - apply last_item_none in Hlast. destruct (inv_nonempty l Hinv Hlast).
Qed.

Lemma get_chain_info_reachable_witness :
  reachable demo_tested /\
  get_chain_info demo_tested
  = Returns [ ("total_blocks", JInt 3);
              ("total_transactions", JInt 2);
              ("chain_valid", JBool true);
              ("latest_block_hash",
               JStr "004e464274b6f81d63ba9f6c6167e5baaa72a9bdb313bcc14a219f8ac11bdcf8");
              ("difficulty", JInt 2) ].
Proof.
  split; [exact demo_tested_reachable|].
  destruct (get_chain_info_reachable demo_tested demo_tested_reachable)
    as (latest & Hlast & ->).
  vm_compute in Hlast. injection Hlast as <-. reflexivity.
Defined.

(** X11. Sealing a buffer of [n] records adds one to the "total_blocks"
    and [n] to the "total_transactions" that [get_chain_info] reports, on
    a chain whose blocks hold records. *)
Theorem seal_moves_the_counts (fuel : nat) (now : string)
    (l l' : BloodUnitBlockchain) (b : Block) (info : dict) :
  chain_typed l = true ->
  get_chain_info l = Returns info ->
  mine_pending_transactions fuel now l = Returns (l', Some b) ->
  exists info' blocks records,
    get_chain_info l' = Returns info' /\
    get "total_blocks" info = Some (JInt (Z.of_nat blocks)) /\
    get "total_blocks" info' = Some (JInt (Z.of_nat (blocks + 1))) /\
    get "total_transactions" info = Some (JInt (Z.of_nat records)) /\
    get "total_transactions" info'
    = Some (JInt (Z.of_nat (records + List.length (pending_transactions l)))) /\
    get "latest_block_hash" info' = Some (JStr (hash b)).
Proof.
  intros Ht Hinfo Hrun. apply mine_pending_cases in Hrun.
  destruct Hrun as [(_ & _ & Hnone)|
                    (latest & b0 & _ & Hlast & Hb & -> & _ & _ & Hd & _)];
    [discriminate|].
  injection Hb as <-.
  rewrite (get_chain_info_typed l latest Ht Hlast) in Hinfo.
  injection Hinfo as <-.
  assert (Hb : block_typed b = true).
  { unfold block_typed. rewrite (records_transactions_data b _ Hd). reflexivity. }
  assert (Ht' : chain_typed (mkChain (chain l ++ [b]) [] (difficulty l)) = true).
  { destruct l as [bs p d]. apply chain_typed_snoc with (p := p); assumption. }
  eexists _, (List.length (chain l)), (total_records l).
  rewrite (get_chain_info_typed _ b Ht' (last_item_snoc (chain l) b)).
  split; [reflexivity|]. repeat split.
  - simpl. rewrite length_app. reflexivity.
  - simpl. unfold total_records. simpl. rewrite flat_map_app, length_app. simpl.
    unfold records_or_nil at 2. rewrite (records_transactions_data b _ Hd).
    rewrite app_nil_r. reflexivity.
Qed.

Lemma seal_moves_the_counts_witness :
  exists info info',
    chain_typed demo_collected = true /\
    get_chain_info demo_collected = Returns info /\
    get_chain_info demo_sealed = Returns info' /\
    get "total_blocks" info = Some (JInt 1) /\
    get "total_blocks" info' = Some (JInt 2) /\
    get "total_transactions" info = Some (JInt 0) /\
    get "total_transactions" info' = Some (JInt 1).
Proof.
  assert (Ht : chain_typed demo_collected = true) by (vm_compute; reflexivity).
  destruct (get_chain_info demo_collected) as [info| |] eqn:Hinfo;
    try (vm_compute in Hinfo; discriminate Hinfo).
  destruct (last_item (chain demo_sealed)) as [b|] eqn:Hb; [|discriminate].
  assert (Hrun : mine_pending_transactions 1 "2024-03-01T09:15:00.700060"
                   demo_collected = Returns (demo_sealed, Some b)).
  { rewrite <- Hb. vm_compute. reflexivity. }
  destruct (seal_moves_the_counts _ _ _ _ _ _ Ht Hinfo Hrun)
    as (info' & blocks & records & Hinfo' & H1 & H2 & H3 & H4 & _).
  exists info, info'.
  vm_compute in Hinfo. injection Hinfo as <-.
  simpl in H1, H3. injection H1 as H1. injection H3 as H3.
  assert (blocks = 1) as -> by lia. assert (records = 0) as -> by lia.
  repeat split; assumption.
Defined.

(** ** Histories and statuses across calls *)

Lemma chain_typed_app (bs suffix : list Block) (p p' : list dict) (d d' : nat) :
  chain_typed (mkChain (bs ++ suffix) p d) = true ->
  chain_typed (mkChain bs p' d') = true.
Proof.
  unfold chain_typed. simpl. rewrite forallb_app. intros H.
  apply andb_prop in H. tauto.
Qed.

Lemma history_of_snoc (unit_id : string) (bs : list Block) (b : Block)
    (p p' : list dict) (d d' : nat) :
  history_of unit_id (mkChain (bs ++ [b]) p d)
  = history_of unit_id (mkChain bs p' d')
    ++ map (history_entry b)
         (filter (fun transaction =>
                    eq_str (get_or_none "unit_id" transaction) unit_id)
                 (records_or_nil b)).
Proof.
  unfold history_of. simpl. rewrite flat_map_app. simpl.
  rewrite app_nil_r. reflexivity.
Qed.

(** X12. Sealing appends to the history of a unit the pending records
    of that unit, in the order in which they were appended, each with the
    index and the hash of the new block; what the history held before
    stays in front, unchanged. *)
Theorem history_after_seal (fuel : nat) (now : string)
    (l l' : BloodUnitBlockchain) (b : Block) (unit_id : string) :
  chain_typed l = true ->
  mine_pending_transactions fuel now l = Returns (l', Some b) ->
  exists before,
    get_unit_history unit_id l = Returns before /\
    get_unit_history unit_id l'
    = Returns (before ++
               map (history_entry b)
                 (filter (fun transaction =>
                            eq_str (get_or_none "unit_id" transaction) unit_id)
                         (pending_transactions l))).
Proof.
  intros Ht Hrun. apply mine_pending_cases in Hrun.
  destruct Hrun as [(_ & _ & Hnone)|
                    (latest & b0 & _ & Hlast & Hb & -> & _ & _ & Hd & _)];
    [discriminate|].
  injection Hb as <-.
  exists (history_of unit_id l). split; [apply get_unit_history_typed, Ht|].
  assert (Hb : block_typed b = true).
  { unfold block_typed. rewrite (records_transactions_data b _ Hd). reflexivity. }
  destruct l as [bs p d]. simpl in *.
  rewrite get_unit_history_typed
    by (apply chain_typed_snoc with (p := p); assumption).
  rewrite (history_of_snoc unit_id bs b [] p d d).
  unfold records_or_nil. rewrite (records_transactions_data b _ Hd).
  reflexivity.
Qed.

Lemma history_after_seal_witness :
  exists b before collection,
    chain_typed demo_collected = true /\
    mine_pending_transactions 1 "2024-03-01T09:15:00.700060" demo_collected
      = Returns (demo_sealed, Some b) /\
    get_unit_history demo_unit demo_collected = Returns before /\
    before = [] /\
    pending_transactions demo_collected = [collection] /\
    get_unit_history demo_unit demo_sealed
      = Returns [history_entry b collection].
Proof.
  assert (Ht : chain_typed demo_collected = true) by (vm_compute; reflexivity).
  destruct (last_item (chain demo_sealed)) as [b|] eqn:Hb; [|discriminate].
  assert (Hrun : mine_pending_transactions 1 "2024-03-01T09:15:00.700060"
                   demo_collected = Returns (demo_sealed, Some b)).
  { rewrite <- Hb. vm_compute. reflexivity. }
  destruct (history_after_seal _ _ _ _ _ demo_unit Ht Hrun)
    as (before & Hbefore & Hafter).
  destruct (pending_transactions demo_collected) as [|collection rest] eqn:Hp;
    [discriminate|].
  assert (Hnil : before = []).
  { vm_compute in Hbefore. injection Hbefore as <-. reflexivity. }
  exists b, before, collection. subst before.
  vm_compute in Hp. injection Hp as <- <-.
  split; [exact Ht|]. split; [exact Hrun|]. split; [exact Hbefore|].
  split; [reflexivity|]. split; [reflexivity|]. exact Hafter.
Defined.

Lemma unit_ids_at_app (status : string) (bs suffix : list Block)
    (p p' : list dict) (d d' : nat) (v : json) :
  In v (unit_ids_at status (mkChain bs p d)) ->
  In v (unit_ids_at status (mkChain (bs ++ suffix) p' d')).
Proof.
  unfold unit_ids_at. simpl. rewrite flat_map_app. intros H.
  apply in_or_app. left. exact H.
Qed.

Lemma unit_ids_hashable_app (bs suffix : list Block) (p p' : list dict)
    (d d' : nat) :
  unit_ids_hashable (mkChain (bs ++ suffix) p d) = true ->
  unit_ids_hashable (mkChain bs p' d') = true.
Proof.
  unfold unit_ids_hashable. simpl. rewrite forallb_app. intros H.
  apply andb_prop in H. tauto.
Qed.

(** X13. A unit that [get_units_by_status] returns for a status is
    returned for that status ever after: no later call of a mutating
    method takes it out of the answer, whatever status the unit has moved
    to. *)
Theorem status_is_never_forgotten (l l' : BloodUnitBlockchain)
    (status unit_id : string) (units units' : list json) :
  evolves l l' ->
  get_units_by_status status l = Returns units ->
  chain_typed l' = true ->
  unit_ids_hashable l' = true ->
  get_units_by_status status l' = Returns units' ->
  In (JStr unit_id) units -> In (JStr unit_id) units'.
Proof.
  intros He Hrun Ht' Hh' Hrun' Hin.
  destruct (evolves_appends l l' He) as [_ [suffix Hc]].
  destruct l as [bs p d], l' as [bs' p' d']. simpl in Hc. subst bs'.
  pose proof (chain_typed_app bs suffix p' p d' d Ht') as Ht.
  pose proof (unit_ids_hashable_app bs suffix p' p d' d Hh') as Hh.
  rewrite (get_units_by_status_typed status _ Ht Hh) in Hrun.
  rewrite (get_units_by_status_typed status _ Ht' Hh') in Hrun'.
  injection Hrun as <-. injection Hrun' as <-.
  unfold units_at in Hin. apply fold_add_unique_In in Hin.
  destruct Hin as [[]|Hin].
  apply (unit_ids_at_app status bs suffix p p' d d') in Hin.
  pose proof (fold_add_unique_covers _ [] _
                (unit_ids_at_hashable status _ Hh') Hin) as Hcov.
  apply existsb_exists in Hcov. destruct Hcov as (w & Hw & E).
  apply py_eqb_str in E. subst w. exact Hw.
Qed.

Lemma status_is_never_forgotten_witness :
  evolves demo_sealed demo_tested /\
  get_units_by_status "collected" demo_sealed = Returns [JStr demo_unit] /\
  exists units',
    get_units_by_status "collected" demo_tested = Returns units' /\
    In (JStr demo_unit) units' /\
    verify_unit_authenticity demo_unit demo_tested
    = Returns [ ("verified", JBool true);
                ("message", JStr "Unit verified and authentic");
                ("unit_id", JStr demo_unit);
                ("total_records", JInt 2);
                ("current_status", JStr "rejected");
                ("blockchain_valid", JBool true) ].
Proof.
  assert (He : evolves demo_sealed demo_tested).
  { apply evolves_step with (l' := demo_sealed); [apply evolves_refl|].
    apply (step_testing 1 "2024-03-01T11:30:00.250000"
             "2024-03-01T11:30:00.300078" demo_unit demo_failed_test).
    vm_compute. reflexivity. }
  assert (Hrun : get_units_by_status "collected" demo_sealed
                 = Returns [JStr demo_unit]) by (vm_compute; reflexivity).
  split; [exact He|]. split; [exact Hrun|].
  destruct (get_units_by_status "collected" demo_tested) as [units'| |] eqn:Hrun';
    try (vm_compute in Hrun'; discriminate Hrun').
  exists units'. split; [reflexivity|]. split.
  - apply (status_is_never_forgotten demo_sealed demo_tested "collected"
             demo_unit [JStr demo_unit] units' He Hrun); try assumption;
      try (vm_compute; reflexivity).
    left. reflexivity.
  - vm_compute. reflexivity.
Defined.

(** ** Creating and registering a unit *)

Lemma upper_length (s : string) : String.length (upper s) = String.length s.
Proof. induction s as [|c s IH]; simpl; [|rewrite IH]; reflexivity. Qed.

Lemma upper_char_hex (c : ascii) :
  is_hex_lower c = true -> is_hex_upper (upper_char c) = true.
Proof. destruct c as [[] [] [] [] [] [] [] []]; vm_compute; trivial. Qed.

Lemma upper_hex (s : string) :
  all_chars is_hex_lower s = true -> all_chars is_hex_upper (upper s) = true.
Proof.
  induction s as [|c s IH]; [reflexivity|]. simpl. intros H.
  apply andb_prop in H. destruct H as [Hc Hs].
  rewrite (upper_char_hex c Hc), (IH Hs). reflexivity.
Qed.

Lemma slice_to_all_chars (p : ascii -> bool) (n : nat) (s : string) :
  all_chars p s = true -> all_chars p (slice_to n s) = true.
Proof.
  unfold slice_to. revert n. induction s as [|c s IH]; intros [|n] H; simpl in *;
    try reflexivity.
  apply andb_prop in H. destruct H as [Hc Hs]. rewrite Hc, (IH n Hs). reflexivity.
Qed.

(** X14. Given the 32 hexadecimal digits of a uuid, [create_blood_unit]
    returns "UNIT-" followed by 12 digits or capital letters from A to
    F, leaves the chain alone and appends to the pending buffer one
    COLLECTION record with that unit id and the status "collected". *)
Theorem create_blood_unit_result (uuid_hex now : string)
    (donor_id blood_type collection_date location : string)
    (l : BloodUnitBlockchain) :
  all_chars is_hex_lower uuid_hex = true ->
  12 <= String.length uuid_hex ->
  exists suffix,
    fst (create_blood_unit uuid_hex now donor_id blood_type collection_date
           location l) = ("UNIT-" ++ suffix)%string /\
    String.length suffix = 12 /\
    all_chars is_hex_upper suffix = true /\
    snd (create_blood_unit uuid_hex now donor_id blood_type collection_date
           location l)
    = mkChain (chain l)
        (pending_transactions l
         ++ [collection_transaction ("UNIT-" ++ suffix) now donor_id blood_type
               collection_date location])
        (difficulty l).
Proof.
  intros Hhex Hlen. exists (upper (slice_to 12 uuid_hex)).
  split; [reflexivity|]. split; [|split].
  - rewrite upper_length. apply slice_to_short, Hlen.
  - apply upper_hex, slice_to_all_chars, Hhex.
  - reflexivity.
Qed.

Lemma create_blood_unit_result_witness :
  all_chars is_hex_lower "3f2a9c1e7b4d4e0f8a6b5c4d3e2f1a0b" = true /\
  12 <= String.length "3f2a9c1e7b4d4e0f8a6b5c4d3e2f1a0b" /\
  exists suffix,
    fst (create_blood_unit "3f2a9c1e7b4d4e0f8a6b5c4d3e2f1a0b"
           "2024-03-01T09:15:00.123456" "D1" "O+" "2024-03-01" "Pune"
           demo_created) = ("UNIT-" ++ suffix)%string /\
    String.length suffix = 12 /\
    all_chars is_hex_upper suffix = true.
Proof.
  assert (Hhex : all_chars is_hex_lower "3f2a9c1e7b4d4e0f8a6b5c4d3e2f1a0b" = true)
    by reflexivity.
  assert (Hlen : 12 <= String.length "3f2a9c1e7b4d4e0f8a6b5c4d3e2f1a0b")
    by (simpl; lia).
  split; [exact Hhex|]. split; [exact Hlen|].
  destruct (create_blood_unit_result "3f2a9c1e7b4d4e0f8a6b5c4d3e2f1a0b"
              "2024-03-01T09:15:00.123456" "D1" "O+" "2024-03-01" "Pune"
              demo_created Hhex Hlen) as (suffix & H1 & H2 & H3 & _).
  exists suffix. auto.
Defined.

(** X15. The endpoint that registers a unit creates it and seals at
    once. On a ledger that the class can produce, with nothing pending
    and no record yet under the new unit id, a registration that returns
    leaves a ledger in which the history of the unit is its COLLECTION
    record alone, in the last block, and the verification answers that the
    unit is authentic, with one record and the status "collected". *)
Theorem registered_unit_is_traceable (fuel : nat) (uuid_hex now now_block : string)
    (donor_id blood_type collection_date location : string)
    (l l' : BloodUnitBlockchain) (unit_id : string) :
  reachable l ->
  pending_transactions l = [] ->
  register_unit fuel uuid_hex now now_block donor_id blood_type collection_date
    location l = Returns (unit_id, l') ->
  history_of unit_id l = [] ->
  exists b,
    last_item (chain l') = Some b /\
    get_unit_history unit_id l'
    = Returns [history_entry b
                 (collection_transaction unit_id now donor_id blood_type
                    collection_date location)] /\
    verify_unit_authenticity unit_id l'
    = Returns [ ("verified", JBool true);
                ("message", JStr "Unit verified and authentic");
                ("unit_id", JStr unit_id);
                ("total_records", JInt 1);
                ("current_status", JStr "collected");
                ("blockchain_valid", JBool true) ].
Proof.
  intros Hr Hp Hrun Hfresh. unfold register_unit in Hrun.
  destruct (mine_pending_transactions _ _ _) as [[l1 r]| |] eqn:Hmine;
    try discriminate.
  simpl in Hrun. injection Hrun as Hu <-.
  assert (Hr1 : reachable l1).
  { eapply reach_mine; [|exact Hmine]. apply reach_create_unit, Hr. }
  pose proof (reachable_inv l1 Hr1) as Hinv1.
  apply mine_pending_cases in Hmine.
  destruct Hmine as [(Hnil & _)|(latest & b & _ & _ & _ & Hl1 & _ & _ & Hd & _)].
  { simpl in Hnil. destruct (pending_transactions l); discriminate. }
  simpl in Hl1, Hd. rewrite Hp in Hd. simpl in Hd. rewrite Hu in Hd.
  change ([("type", JStr "COLLECTION"); ("unit_id", JStr unit_id);
           ("blood_type", JStr blood_type); ("donor_id", JStr donor_id);
           ("collection_date", JStr collection_date);
           ("location", JStr location); ("timestamp", JStr now);
           ("status", JStr "collected")])
    with (collection_transaction unit_id now donor_id blood_type
            collection_date location) in Hd.
  exists b. split; [rewrite Hl1; apply last_item_snoc|].
  assert (Hhist : get_unit_history unit_id l1
                  = Returns [history_entry b
                               (collection_transaction unit_id now donor_id
                                  blood_type collection_date location)]).
  { rewrite (get_unit_history_typed unit_id l1 (inv_typed l1 Hinv1)).
    rewrite Hl1. destruct l as [bs p d]. simpl chain. simpl difficulty.
    rewrite (history_of_snoc unit_id bs b [] p d d), Hfresh.
    unfold records_or_nil. rewrite (records_transactions_data b _ Hd).
    simpl. rewrite String.eqb_refl. reflexivity. }
  split; [exact Hhist|].
  unfold verify_unit_authenticity. rewrite Hhist. simpl.
  rewrite (ledger_inv_valid l1 Hinv1). reflexivity.
Qed.

Lemma registered_unit_is_traceable_witness :
  reachable demo_created /\
  pending_transactions demo_created = [] /\
  register_unit 1 "3f2a9c1e7b4d4e0f8a6b5c4d3e2f1a0b" "2024-03-01T09:15:00.123456"
    "2024-03-01T09:15:00.700060" "D1" "O+" "2024-03-01" "Pune" demo_created
    = Returns (demo_unit, demo_sealed) /\
  history_of demo_unit demo_created = [] /\
  verify_unit_authenticity demo_unit demo_sealed
  = Returns [ ("verified", JBool true);
              ("message", JStr "Unit verified and authentic");
              ("unit_id", JStr demo_unit);
              ("total_records", JInt 1);
              ("current_status", JStr "collected");
              ("blockchain_valid", JBool true) ].
Proof.
  assert (Hrun : register_unit 1 "3f2a9c1e7b4d4e0f8a6b5c4d3e2f1a0b"
                   "2024-03-01T09:15:00.123456" "2024-03-01T09:15:00.700060"
                   "D1" "O+" "2024-03-01" "Pune" demo_created
                 = Returns (demo_unit, demo_sealed)) by (vm_compute; reflexivity).
  split; [exact demo_created_reachable|]. split; [reflexivity|].
  split; [exact Hrun|]. split; [reflexivity|].
  destruct (registered_unit_is_traceable _ _ _ _ _ _ _ _ _ _ _
              demo_created_reachable eq_refl Hrun eq_refl) as (b & _ & _ & Hv).
  exact Hv.
Defined.

(** ** The other lifecycle events *)

(** Appending one record and sealing, whenever it returns. *)
Lemma append_then_seal_returns (fuel : nat) (now_block : string)
    (transaction : dict) (l l' : BloodUnitBlockchain) (r : option Block) :
  mine_pending_transactions fuel now_block (add_transaction transaction l)
    = Returns (l', r) ->
  exists b,
    chain l' = chain l ++ [b] /\
    last_item (chain l') = Some b /\
    records b = Some (pending_transactions l ++ [transaction]) /\
    pending_transactions l' = [].
Proof.
  intros H. apply mine_pending_cases in H.
  destruct H as [(Hnil & _)|(latest & b & _ & _ & _ & -> & _ & _ & Hd & _)].
  - simpl in Hnil. destruct (pending_transactions l); discriminate.
  - exists b. simpl. repeat split.
    + apply last_item_snoc.
    + apply records_transactions_data. exact Hd.
Qed.

(** X16. [add_storage_record], [add_transfer_record] and
    [add_transfusion_record] behave alike: a call that returns has
    appended one block, whose records are the records that were pending
    followed by the new one, and has emptied the buffer; the new record
    has the status "stored", "in_transit" or "transfused". *)
Theorem lifecycle_records_are_sealed (fuel : nat) (now now_block unit_id : string)
    (l l' : BloodUnitBlockchain) :
  (forall storage_location temperature expiry_date,
     add_storage_record fuel now now_block unit_id storage_location temperature
       expiry_date l = Returns l' ->
     exists b record,
       chain l' = chain l ++ [b] /\
       records b = Some (pending_transactions l ++ [record]) /\
       pending_transactions l' = [] /\
       record = storage_transaction now unit_id storage_location temperature
                  expiry_date /\
       get "status" record = Some (JStr "stored")) /\
  (forall from_location to_location transported_by,
     add_transfer_record fuel now now_block unit_id from_location to_location
       transported_by l = Returns l' ->
     exists b record,
       chain l' = chain l ++ [b] /\
       records b = Some (pending_transactions l ++ [record]) /\
       pending_transactions l' = [] /\
       record = transfer_transaction now unit_id from_location to_location
                  transported_by /\
       get "status" record = Some (JStr "in_transit")) /\
  (forall hospital patient_id doctor_id,
     add_transfusion_record fuel now now_block unit_id hospital patient_id
       doctor_id l = Returns l' ->
     exists b record,
       chain l' = chain l ++ [b] /\
       records b = Some (pending_transactions l ++ [record]) /\
       pending_transactions l' = [] /\
       record = transfusion_transaction now unit_id hospital patient_id
                  doctor_id /\
       get "status" record = Some (JStr "transfused")).
Proof.
  repeat split.
  - intros sl te ex H. unfold add_storage_record in H.
    destruct (mine_pending_transactions _ _ _) as [[l1 r]| |] eqn:E;
      try discriminate.
    injection H as <-. apply append_then_seal_returns in E.
    destruct E as (b & Hc & _ & Hr & Hp).
    exists b, (storage_transaction now unit_id sl te ex). auto.
  - intros fl tl tb H. unfold add_transfer_record in H.
    destruct (mine_pending_transactions _ _ _) as [[l1 r]| |] eqn:E;
      try discriminate.
    injection H as <-. apply append_then_seal_returns in E.
    destruct E as (b & Hc & _ & Hr & Hp).
    exists b, (transfer_transaction now unit_id fl tl tb). auto.
  - intros ho pa doc H. unfold add_transfusion_record in H.
    destruct (mine_pending_transactions _ _ _) as [[l1 r]| |] eqn:E;
      try discriminate.
    injection H as <-. apply append_then_seal_returns in E.
    destruct E as (b & Hc & _ & Hr & Hp).
    exists b, (transfusion_transaction now unit_id ho pa doc). auto.
Qed.

Lemma lifecycle_records_are_sealed_witness :
  exists l' b,
    add_transfer_record 0 "2024-03-02T08:00:00.500000" "2024-03-02T08:00:00.600310"
      demo_unit "Pune" "Mumbai" "COURIER-9" demo_sealed = Returns l' /\
    chain l' = chain demo_sealed ++ [b] /\
    records b = Some [transfer_transaction "2024-03-02T08:00:00.500000" demo_unit
                        "Pune" "Mumbai" "COURIER-9"] /\
    pending_transactions l' = [].
Proof.
  destruct (add_transfer_record 0 "2024-03-02T08:00:00.500000"
              "2024-03-02T08:00:00.600310" demo_unit "Pune" "Mumbai" "COURIER-9"
              demo_sealed) as [l'| |] eqn:Hrun;
    try (vm_compute in Hrun; discriminate Hrun).
  destruct (lifecycle_records_are_sealed 0 "2024-03-02T08:00:00.500000"
              "2024-03-02T08:00:00.600310" demo_unit demo_sealed l')
    as (_ & Htransfer & _).
  destruct (Htransfer _ _ _ Hrun) as (b & record & Hc & Hr & Hp & -> & _).
  exists l', b. split; [reflexivity|]. split; [exact Hc|]. split; [exact Hr|].
  exact Hp.
Defined.

(** X17. The record of a transfusion has no "patient_id" key; what it
    holds of the patient is "patient_id_hash", the first 16 hexadecimal
    digits of the SHA-256 digest of the identifier; and a field of the
    record can only be the identifier itself when the caller passed that
    same string as unit, hospital or doctor, or when it is one of the
    other strings of the record. *)
Theorem transfusion_hides_patient (now unit_id hospital patient_id doctor_id : string) :
  get "patient_id"
    (transfusion_transaction now unit_id hospital patient_id doctor_id) = None /\
  exists digest,
    get "patient_id_hash"
      (transfusion_transaction now unit_id hospital patient_id doctor_id)
    = Some (JStr digest) /\
    digest = slice_to 16 (sha256_hexdigest patient_id) /\
    String.length digest = 16 /\
    all_chars is_hex_lower digest = true /\
    forall key,
      get key (transfusion_transaction now unit_id hospital patient_id doctor_id)
      = Some (JStr patient_id) ->
      patient_id = unit_id \/ patient_id = hospital \/ patient_id = doctor_id \/
      patient_id = now \/ patient_id = "TRANSFUSION" \/
      patient_id = "transfused" \/ patient_id = digest.
Proof.
  split; [reflexivity|].
  exists (slice_to 16 (sha256_hexdigest patient_id)).
  destruct (hexdigest_shape (encode patient_id)) as [H64 Hhex].
  split; [reflexivity|]. split; [reflexivity|]. split; [|split].
  - apply slice_to_short. unfold sha256_hexdigest. rewrite H64. lia.
  - apply slice_to_all_chars. exact Hhex.
  - intros key H. unfold transfusion_transaction in H. simpl in H.
    repeat match type of H with
           | (if ?c then _ else _) = _ => destruct c
           end;
      try discriminate; injection H as H; auto 10.
Qed.

(** ** Bounds of the audit trail *)

Lemma for_each_skip {A S : Type} (xs : list A) (body : S -> A -> outcome S) :
  (forall s x, In x xs -> body s x = Returns s) ->
  forall s, for_each xs body s = Returns s.
Proof.
  induction xs as [|x xs IH]; intros H s; simpl; [reflexivity|].
  rewrite H by (left; reflexivity). simpl. apply IH.
  intros s' x' Hx'. apply H. right. exact Hx'.
Qed.

(** X18. With bounds in the wrong order, [get_audit_trail] returns the
    empty list on any ledger, and reads no record at all. *)
Theorem audit_trail_inverted_bounds (start_date end_date : string)
    (l : BloodUnitBlockchain) :
  String.leb start_date end_date = false ->
  get_audit_trail start_date end_date l = Returns [].
Proof.
  intros Hinv. unfold get_audit_trail. apply for_each_skip.
  intros s b _. cbv zeta.
  destruct (String.leb start_date (timestamp b)) eqn:H1;
    destruct (String.leb (timestamp b) end_date) eqn:H2; try reflexivity.
  rewrite (string_leb_trans _ _ _ H1 H2) in Hinv. discriminate.
Qed.

Lemma audit_trail_inverted_bounds_witness :
  String.leb "2024-03-02" "2024-03-01" = false /\
  get_audit_trail "2024-03-02" "2024-03-01" demo_tested = Returns [].
Proof.
  split; [reflexivity|].
  apply (audit_trail_inverted_bounds "2024-03-02" "2024-03-01" demo_tested).
  reflexivity.
Defined.

(** ** What a history entry points to *)

(** X19. In a ledger that the class can produce, every entry of the
    history of a unit names a block by its index and hash: the block at
    that index of the chain has that hash and holds the record of the
    entry, whose unit id is the one asked for. *)
Theorem history_entries_point_to_blocks (unit_id : string)
    (l : BloodUnitBlockchain) (history : list json) (entry : json) :
  reachable l ->
  get_unit_history unit_id l = Returns history ->
  In entry history ->
  exists i b transaction,
    entry = JDict [ ("block_index", JInt (Z.of_nat i));
                    ("block_hash", JStr (hash b));
                    ("transaction", JDict transaction) ] /\
    nth_error (chain l) i = Some b /\
    In transaction (records_or_nil b) /\
    get "unit_id" transaction = Some (JStr unit_id).
Proof.
  intros Hr Hrun Hin. pose proof (reachable_inv l Hr) as Hinv.
  rewrite (get_unit_history_typed unit_id l (inv_typed l Hinv)) in Hrun.
  injection Hrun as <-. unfold history_of in Hin.
  apply in_flat_map in Hin. destruct Hin as (b & Hb & Hin).
  apply in_map_iff in Hin. destruct Hin as (tx & <- & Htx).
  apply filter_In in Htx. destruct Htx as [Htx Hu].
  apply In_nth_error in Hb. destruct Hb as [i Hi].
  exists i, b, tx. unfold history_entry.
  rewrite (inv_index l Hinv i b Hi). repeat split; try assumption.
  apply eq_str_get. exact Hu.
Qed.

Lemma history_entries_point_to_blocks_witness :
  exists history entry b,
    reachable demo_tested /\
    get_unit_history demo_unit demo_tested = Returns history /\
    last_item history = Some entry /\
    nth_error (chain demo_tested) 2 = Some b /\
    get "block_hash" (match entry with JDict d => d | _ => [] end)
      = Some (JStr (hash b)).
Proof.
  destruct (get_unit_history demo_unit demo_tested) as [history| |] eqn:Hrun;
    try (vm_compute in Hrun; discriminate Hrun).
  destruct (last_item history) as [entry|] eqn:Hlast.
  2:{ vm_compute in Hrun. injection Hrun as <-. discriminate Hlast. }
  assert (Hin : In entry history).
  { vm_compute in Hrun. injection Hrun as <-. simpl in Hlast.
    injection Hlast as <-. right; left. reflexivity. }
  destruct (history_entries_point_to_blocks demo_unit demo_tested history entry
              demo_tested_reachable Hrun Hin) as (i & b & tx & He & Hb & _ & _).
  assert (Hi : i = 2).
  { vm_compute in Hrun. injection Hrun as <-. simpl in Hlast.
    injection Hlast as <-. injection He as He _. lia. }
  subst i. exists history, entry, b.
  split; [exact demo_tested_reachable|]. split; [reflexivity|].
  split; [exact Hlast|]. split; [exact Hb|]. rewrite He. reflexivity.
Defined.

(** ** A broken chain stays broken *)

Lemma link_ok_prefix (bs suffix : list Block) (i : nat) :
  i < List.length bs -> link_ok (bs ++ suffix) i -> link_ok bs i.
Proof.
  intros Hi (cur & prev & Hc & Hp & Hh & Hl).
  rewrite nth_error_app1 in Hc by assumption.
  rewrite nth_error_app1 in Hp by lia.
  exists cur, prev. auto.
Qed.

(** X20. No method repairs a chain: when [is_chain_valid] returns false,
    it still returns false after any number of calls of the mutating
    methods. *)
Theorem broken_chain_stays_broken (l l' : BloodUnitBlockchain) :
  evolves l l' ->
  is_chain_valid l = false ->
  is_chain_valid l' = false.
Proof.
  intros He Hbad. destruct (evolves_appends l l' He) as [_ [suffix Hc]].
  destruct (is_chain_valid l') eqn:Hv; [|reflexivity].
  rewrite <- Hbad. symmetry. apply is_chain_valid_true. intros i Hi.
  apply link_ok_prefix with (suffix := suffix); [lia|].
  rewrite <- Hc. apply (proj1 (is_chain_valid_true l') Hv).
  rewrite Hc, length_app. lia.
Qed.

Lemma broken_chain_stays_broken_witness :
  evolves demo_tampered demo_tampered_tested /\
  is_chain_valid demo_tampered = false /\
  List.length (chain demo_tampered_tested) = 3 /\
  is_chain_valid demo_tampered_tested = false.
Proof.
  assert (He : evolves demo_tampered demo_tampered_tested).
  { apply evolves_step with (l' := demo_tampered); [apply evolves_refl|].
    apply (step_testing 1 "2024-03-01T11:30:00.250000"
             "2024-03-01T11:30:00.300078" demo_unit demo_failed_test).
    vm_compute. reflexivity. }
  assert (Hbad : is_chain_valid demo_tampered = false) by (vm_compute; reflexivity).
  split; [exact He|]. split; [exact Hbad|]. split; [reflexivity|].
  exact (broken_chain_stays_broken demo_tampered demo_tampered_tested He Hbad).
Defined.

(** ** How many unit ids there are *)

Lemma upper_char_code (c : ascii) :
  N_of_ascii (upper_char c)
  = if (N.leb 97 (N_of_ascii c) && N.leb (N_of_ascii c) 122)%bool
    then (N_of_ascii c - 32)%N else N_of_ascii c.
Proof.
  unfold upper_char.
  destruct (N.leb 97 (N_of_ascii c) && N.leb (N_of_ascii c) 122)%bool eqn:E;
    [|reflexivity].
  apply N_ascii_embedding. pose proof (N_ascii_bounded c). lia.
Qed.

Lemma upper_char_inj_hex (c c' : ascii) :
  is_hex_lower c = true -> is_hex_lower c' = true ->
  upper_char c = upper_char c' -> c = c'.
Proof.
  unfold is_hex_lower. intros Hc Hc' H.
  apply (f_equal N_of_ascii) in H. rewrite !upper_char_code in H.
  rewrite <- (ascii_N_embedding c), <- (ascii_N_embedding c'). f_equal.
  destruct (N.leb_spec 97 (N_of_ascii c)), (N.leb_spec (N_of_ascii c) 122),
    (N.leb_spec 97 (N_of_ascii c')), (N.leb_spec (N_of_ascii c') 122),
    (N.leb_spec 48 (N_of_ascii c)), (N.leb_spec (N_of_ascii c) 57),
    (N.leb_spec (N_of_ascii c) 102),
    (N.leb_spec 48 (N_of_ascii c')), (N.leb_spec (N_of_ascii c') 57),
    (N.leb_spec (N_of_ascii c') 102);
    simpl in *; try discriminate; lia.
Qed.

Lemma upper_inj_hex (s : string) :
  forall s', all_chars is_hex_lower s = true -> all_chars is_hex_lower s' = true ->
             upper s = upper s' -> s = s'.
Proof.
  induction s as [|c s IH]; intros [|c' s'] Hs Hs' H; simpl in *;
    try reflexivity; try discriminate.
  apply andb_prop in Hs, Hs'. destruct Hs as [Hc Hs], Hs' as [Hc' Hs'].
  injection H as Hcc H.
  rewrite (upper_char_inj_hex c c' Hc Hc' Hcc), (IH s' Hs Hs' H). reflexivity.
Qed.

(** X21. The unit id is made of the first 12 hexadecimal digits of the
    uuid and of nothing else: two calls of [create_blood_unit] return the
    same unit id exactly when their uuids agree on these 12 digits, that
    is on 48 of their bits. *)
Theorem unit_id_is_the_first_12_digits (uuid1 uuid2 : string)
    (now1 now2 donor1 donor2 type1 type2 date1 date2 place1 place2 : string)
    (l1 l2 : BloodUnitBlockchain) :
  all_chars is_hex_lower uuid1 = true ->
  all_chars is_hex_lower uuid2 = true ->
  (fst (create_blood_unit uuid1 now1 donor1 type1 date1 place1 l1)
   = fst (create_blood_unit uuid2 now2 donor2 type2 date2 place2 l2)
   <-> slice_to 12 uuid1 = slice_to 12 uuid2).
Proof.
  intros H1 H2. unfold create_blood_unit. cbv zeta. simpl fst. split.
  - intros H. simpl in H. injection H as H.
    apply upper_inj_hex in H; [exact H|apply slice_to_all_chars..]; assumption.
  - intros ->. reflexivity.
Qed.

Lemma unit_id_is_the_first_12_digits_witness :
  all_chars is_hex_lower "3f2a9c1e7b4d4e0f8a6b5c4d3e2f1a0b" = true /\
  all_chars is_hex_lower "3f2a9c1e7b4dffffffffffffffffffff" = true /\
  fst (create_blood_unit "3f2a9c1e7b4d4e0f8a6b5c4d3e2f1a0b"
         "2024-03-01T09:15:00.123456" "D1" "O+" "2024-03-01" "Pune" demo_created)
  = fst (create_blood_unit "3f2a9c1e7b4dffffffffffffffffffff"
           "2024-03-05T10:00:00.000001" "D2" "A-" "2024-03-05" "Nashik" demo_tested).
Proof.
  assert (H1 : all_chars is_hex_lower "3f2a9c1e7b4d4e0f8a6b5c4d3e2f1a0b" = true)
    by reflexivity.
  assert (H2 : all_chars is_hex_lower "3f2a9c1e7b4dffffffffffffffffffff" = true)
    by reflexivity.
  split; [exact H1|]. split; [exact H2|].
  apply (unit_id_is_the_first_12_digits _ _ _ _ _ _ _ _ _ _ _ _ _ _ H1 H2).
  reflexivity.
Defined.

(** ** The whole trail *)

(** X22. With bounds that enclose the timestamp of every block,
    [get_audit_trail] returns one entry for each record of the chain, in
    chain order: as many entries as the "total_transactions" of
    [get_chain_info]. *)
Theorem audit_trail_of_everything (start_date end_date : string)
    (l : BloodUnitBlockchain) (latest : Block) :
  chain_typed l = true ->
  last_item (chain l) = Some latest ->
  (forall b, In b (chain l) ->
     String.leb start_date (timestamp b) = true /\
     String.leb (timestamp b) end_date = true) ->
  exists trail info,
    get_audit_trail start_date end_date l = Returns trail /\
    trail = flat_map (fun b => map (audit_record b) (records_or_nil b)) (chain l) /\
    get_chain_info l = Returns info /\
    get "total_transactions" info = Some (JInt (Z.of_nat (List.length trail))).
Proof.
  intros Ht Hlast Hall.
  exists (flat_map (fun b => map (audit_record b) (records_or_nil b)) (chain l)).
  exists [ ("total_blocks", JInt (Z.of_nat (List.length (chain l))));
           ("total_transactions", JInt (Z.of_nat (total_records l)));
           ("chain_valid", JBool (is_chain_valid l));
           ("latest_block_hash", JStr (hash latest));
           ("difficulty", JInt (Z.of_nat (difficulty l))) ].
  split; [|split; [reflexivity|split]].
  - rewrite (get_audit_trail_typed start_date end_date l Ht). unfold audit_of.
    f_equal. rewrite !flat_map_concat_map. f_equal.
    apply map_ext_in. intros b Hb.
    destruct (Hall b Hb) as [-> ->]. reflexivity.
  - apply (get_chain_info_typed l latest Ht Hlast).
  - simpl. unfold total_records. do 3 f_equal.
    generalize (chain l). clear. intros bs.
    induction bs as [|b bs IH]; simpl; [reflexivity|].
    rewrite !length_app, length_map, IH. reflexivity.
Qed.

Lemma audit_trail_of_everything_witness :
  exists trail,
    chain_typed demo_tested = true /\
    get_audit_trail "2024-03-01" "2024-03-02" demo_tested = Returns trail /\
    List.length trail = 2.
Proof.
  assert (Ht : chain_typed demo_tested = true) by (vm_compute; reflexivity).
  destruct (last_item (chain demo_tested)) as [latest|] eqn:Hlast; [|discriminate].
  destruct (audit_trail_of_everything "2024-03-01" "2024-03-02" demo_tested latest
              Ht Hlast) as (trail & info & Hrun & Htrail & _ & _).
  { intros b Hb. simpl in Hb.
    destruct Hb as [<-|[<-|[<-|[]]]]; split; reflexivity. }
  exists trail. split; [exact Ht|]. split; [exact Hrun|].
  rewrite Htrail. reflexivity.
Defined.

(** ** The exported chain *)

(** X23. What [export_chain] returns for a ledger that the class can
    produce can be checked without the ledger: it has one dictionary for
    each block, in chain order; the dictionary at position [i] has [i] as
    its "index", reads back as the block it was made from, has as its
    "hash" the hash recomputed from its other fields, a hash that starts
    with two zeros, and the dictionary that follows it has that hash as
    its "previous_hash". *)
Theorem exported_chain_verifies (l : BloodUnitBlockchain) (i : nat) (d : dict) :
  reachable l ->
  nth_error (export_chain l) i = Some d ->
  List.length (export_chain l) = List.length (chain l) /\
  exists b,
    nth_error (chain l) i = Some b /\
    from_dict d = Some b /\
    get "index" d = Some (JInt (Z.of_nat i)) /\
    get "hash" d = Some (JStr (calculate_hash b)) /\
    slice_to 2 (calculate_hash b) = "00" /\
    (forall d', nth_error (export_chain l) (S i) = Some d' ->
                get "previous_hash" d' = get "hash" d).
Proof.
  intros Hr Hd. apply reachable_inv in Hr.
  unfold export_chain in *. split; [apply length_map|].
  rewrite nth_error_map in Hd.
  destruct (nth_error (chain l) i) as [b|] eqn:Hb; [|discriminate].
  injection Hd as <-. exists b.
  assert (Hin : In b (chain l)) by (eapply nth_error_In; exact Hb).
  assert (Hh : hash b = calculate_hash b) by (apply (inv_hash l Hr b Hin)).
  split; [reflexivity|]. split; [destruct b; reflexivity|].
  split; [simpl; rewrite (inv_index l Hr i b Hb); reflexivity|].
  split; [simpl; rewrite <- Hh; reflexivity|].
  split.
  - pose proof (inv_sealed l Hr b Hin) as Hs.
    rewrite (inv_difficulty l Hr) in Hs. unfold sealed in Hs.
    apply String.eqb_eq in Hs. rewrite <- Hh. exact Hs.
  - intros d' Hd'. rewrite nth_error_map in Hd'.
    destruct (nth_error (chain l) (S i)) as [c|] eqn:Hc; [|discriminate].
    injection Hd' as <-. simpl.
    rewrite (inv_linked l Hr i c b Hc Hb). reflexivity.
Qed.

Lemma exported_chain_verifies_witness :
  exists d,
    reachable demo_tested /\
    nth_error (export_chain demo_tested) 2 = Some d /\
    get "index" d = Some (JInt 2) /\
    get "previous_hash" d
    = option_map (fun b => JStr (hash b)) (nth_error (chain demo_tested) 1).
Proof.
  destruct (nth_error (export_chain demo_tested) 2) as [d|] eqn:Hd;
    [|discriminate].
  exists d. split; [exact demo_tested_reachable|]. split; [reflexivity|].
  destruct (exported_chain_verifies demo_tested 2 d demo_tested_reachable Hd)
    as (_ & b & Hb & _ & Hi & _).
  split; [exact Hi|].
  vm_compute in Hd. injection Hd as <-. reflexivity.
Defined.
